(** * Poverty dashboard: the analysis core

    A shallow embedding of the cleaning / filtering pipeline
    ([data/preprocess.py]), the statistics helpers ([utils/stats.py]) and the
    model-training helpers ([utils/ml.py]), together with the properties that
    the written specification states about them.

    Numbers.  A [float64] is modelled by its exact mathematical value, a
    rational, extended with the three IEEE special values [+inf], [-inf] and
    [NaN]; the arithmetic on special values follows IEEE-754 (so [x / 0] is an
    infinity or [NaN], and [inf - inf] is [NaN]).  Rounding, overflow and the
    sign of zero are not modelled: a statement about the value of a sum, a
    mean or a quotient is a statement in exact arithmetic, and says so.
    Integer columns and Python integers are unbounded integers, except where
    the code adds to a numpy [int64] scalar (the last year of a forecast),
    which wraps around.

    Libraries.  numpy reductions and pandas column operations are written out
    from their documented definitions.  What scikit-learn and scipy compute
    (fitting, scoring, splitting, skewness, kurtosis, the square root) is kept
    abstract behind type classes; one small instance of each is given so that
    every statement can be exercised on concrete data.  What depends on the
    release of a library (copy-on-write in pandas, the type of a
    scikit-learn metric) is a field of a class: a statement holds for every
    value of it unless it says otherwise. *)

From Stdlib Require Import QArith Qabs Qround Reals Qreals ZArith Lia Psatz.
From stdpp Require Import base option list strings.

Open Scope Q_scope.

(** ** Exceptions *)

Inductive exn :=
| KeyError
| TypeError
| ValueError
| ZeroDivisionError
| IndexError
| OverflowError.

Inductive result (A : Type) :=
| Ok (a : A)
| Raise (e : exn).
Arguments Ok {A} a.
Arguments Raise {A} e.

#[global] Instance result_ret : MRet result := fun A a => Ok a.
#[global] Instance result_bind : MBind result := fun A B f m =>
  match m with
  | Ok a => f a
  | Raise e => Raise e
  end.
#[global] Instance result_fmap : FMap result := fun A B f m =>
  match m with
  | Ok a => Ok (f a)
  | Raise e => Raise e
  end.

Definition raises {A} (m : result A) : bool :=
  match m with Ok _ => false | Raise _ => true end.

(** ** Floating-point values *)

Module Float.

Inductive fl :=
| Fin (q : Q)
| PInf
| NInf
| NaN.

Definition of_Z (z : Z) : fl := Fin (inject_Z z).
Definition of_nat (n : nat) : fl := Fin (inject_Z (Z.of_nat n)).

Definition isnan (x : fl) : bool :=
  match x with NaN => true | _ => false end.

Definition is_finite (x : fl) : bool :=
  match x with Fin _ => true | _ => false end.

Definition Qlt_bool (a b : Q) : bool := negb (Qle_bool b a).

(** Sign of a value that is not [NaN]: [-1], [0] or [1]. *)
Definition fsign (x : fl) : Z :=
  match x with
  | Fin q => if Qeq_bool q 0 then 0%Z else if Qle_bool 0 q then 1%Z else (-1)%Z
  | PInf => 1%Z
  | NInf => (-1)%Z
  | NaN => 0%Z
  end.

Definition of_sign (s : Z) : fl :=
  match s with
  | Z0 => NaN
  | Zpos _ => PInf
  | Zneg _ => NInf
  end.

Definition fopp (x : fl) : fl :=
  match x with
  | Fin q => Fin (- q)
  | PInf => NInf
  | NInf => PInf
  | NaN => NaN
  end.

(** Sum, difference and product: on finite values the exact result (float64
    rounds it, and overflows to an infinity beyond its range); on the
    special values as IEEE has them. *)
Definition fadd (x y : fl) : fl :=
  match x, y with
  | NaN, _ | _, NaN => NaN
  | Fin a, Fin b => Fin (a + b)
  | PInf, NInf | NInf, PInf => NaN
  | PInf, _ | _, PInf => PInf
  | NInf, _ | _, NInf => NInf
  end.

Definition fsub (x y : fl) : fl := fadd x (fopp y).

Definition fmul (x y : fl) : fl :=
  match x, y with
  | NaN, _ | _, NaN => NaN
  | Fin a, Fin b => Fin (a * b)
  | _, _ => of_sign (fsign x * fsign y)
  end.

(** IEEE division: a finite value over zero is an infinity of the sign of
    the numerator, [0 / 0] and [inf / inf] are [NaN]; a finite value over a
    finite value that is not zero is the exact quotient (no rounding, no
    overflow). *)
Definition fdiv (x y : fl) : fl :=
  match x, y with
  | NaN, _ | _, NaN => NaN
  | Fin a, Fin b => if Qeq_bool b 0 then of_sign (fsign x) else Fin (a / b)
  | Fin _, _ => Fin 0
  | _, Fin b => of_sign (fsign x * (if Qlt_bool b 0 then -1 else 1))
  | _, _ => NaN
  end.

Definition fabs (x : fl) : fl :=
  match x with
  | Fin q => Fin (Qabs q)
  | PInf | NInf => PInf
  | NaN => NaN
  end.

(** Comparisons; every comparison with [NaN] is false. *)
Definition fle (x y : fl) : bool :=
  match x, y with
  | NaN, _ | _, NaN => false
  | Fin a, Fin b => Qle_bool a b
  | NInf, _ | _, PInf => true
  | _, _ => false
  end.

Definition fge (x y : fl) : bool := fle y x.
Definition flt (x y : fl) : bool :=
  match x, y with
  | NaN, _ | _, NaN => false
  | _, _ => negb (fle y x)
  end.
Definition fgt (x y : fl) : bool := flt y x.

(** [==] on floats: false on [NaN]. *)
Definition feqb (x y : fl) : bool := fle x y && fle y x.

(** Equality of the denoted values (two fractions of one rational are the
    same float); [NaN] is related to itself here. *)
Definition feq (x y : fl) : Prop :=
  match x, y with
  | Fin a, Fin b => a == b
  | PInf, PInf | NInf, NInf | NaN, NaN => True
  | _, _ => False
  end.

(** The same as a test; this is how pandas compares cells when it looks
    for duplicated rows (missing values count as equal there). *)
Definition fsame (x y : fl) : bool :=
  match x, y with
  | Fin a, Fin b => Qeq_bool a b
  | PInf, PInf | NInf, NInf | NaN, NaN => true
  | _, _ => false
  end.

End Float.
Export Float.

Declare Scope fl_scope.
Delimit Scope fl_scope with fl.
Bind Scope fl_scope with fl.
Infix "+" := fadd : fl_scope.
Infix "-" := fsub : fl_scope.
Infix "*" := fmul : fl_scope.
Infix "/" := fdiv : fl_scope.
Infix "<=?" := fle : fl_scope.
Infix ">=?" := fge : fl_scope.
Infix "<?" := flt : fl_scope.
Infix ">?" := fgt : fl_scope.

(** ** numpy *)

Module Numpy.

(** [np.sqrt] has no rational model; it is a parameter with the two facts
    the statements below rely on. *)
Class Libm := {
  np_sqrt : fl -> fl;
  np_sqrt_zero : forall q, q == 0 -> feq (np_sqrt (Fin q)) (Fin 0);
  np_sqrt_finite : forall q, 0 <= q -> is_finite (np_sqrt (Fin q)) = true
}.

Definition np_sum (a : list fl) : fl := foldl fadd (Fin 0) a.

(** [np.mean]: the mean of an empty array is [0 / 0]; of finite values, the
    exact mean (float64 rounds the sum, so that its mean of three times 0.1
    is above 0.1). *)
Definition np_mean (a : list fl) : fl :=
  (np_sum a / of_nat (length a))%fl.

Definition np_var (a : list fl) : fl :=
  let m := np_mean a in
  np_mean (map (fun x => ((x - m) * (x - m))%fl) a).

Definition np_std `{Libm} (a : list fl) : fl := np_sqrt (np_var a).

(** The order numpy sorts by: [NaN] goes last. *)
Definition sort_le (x y : fl) : bool :=
  match x, y with
  | _, NaN => true
  | NaN, _ => false
  | _, _ => fle x y
  end.

Fixpoint insert_sorted (x : fl) (s : list fl) : list fl :=
  match s with
  | [] => [x]
  | y :: s' => if sort_le x y then x :: s else y :: insert_sorted x s'
  end.

Definition np_sort (a : list fl) : list fl := foldr insert_sorted [] a.

Definition item (s : list fl) (i : nat) : fl := nth i s NaN.

(** [np.min], [np.max]: [ValueError] on an empty array, [NaN] wins. *)
Definition fmin (x y : fl) : fl :=
  if isnan x || isnan y then NaN else if fle x y then x else y.
Definition fmax (x y : fl) : fl :=
  if isnan x || isnan y then NaN else if fle x y then y else x.

Definition np_min (a : list fl) : result fl :=
  match a with
  | [] => Raise ValueError
  | x :: a' => Ok (foldl fmin x a')
  end.

Definition np_max (a : list fl) : result fl :=
  match a with
  | [] => Raise ValueError
  | x :: a' => Ok (foldl fmax x a')
  end.

(** [np.median]: the middle item, or the mean of the two middle items. *)
Definition np_median (a : list fl) : fl :=
  let n := length a in
  let s := np_sort a in
  if existsb isnan a then NaN
  else if (n =? 0)%nat then NaN
  else if Nat.odd n then item s (n / 2)
  else np_mean [item s (n / 2 - 1); item s (n / 2)].

(** numpy's linear interpolation between two neighbours, by its two
    formulas, in exact arithmetic (where the two agree with the midpoint at
    [t = 1/2]; in float64 they can differ from it in the last place). *)
Definition lerp (a b : fl) (t : Q) : fl :=
  let d := (b - a)%fl in
  if Qle_bool (1 # 2) t then (b - d * Fin (1 - t))%fl else (a + d * Fin t)%fl.

(** The [q]-quantile, [0 <= q <= 1], by the default ("linear") method: the
    virtual index is [(n - 1) * q]. *)
Definition np_quantile (a : list fl) (q : Q) : fl :=
  let n := length a in
  let s := np_sort a in
  if existsb isnan a then NaN
  else if (n =? 0)%nat then NaN
  else
    let h := inject_Z (Z.of_nat (n - 1)) * q in
    let i := Z.to_nat (Qfloor h) in
    let g := h - inject_Z (Qfloor h) in
    lerp (item s i) (item s (Nat.min (i + 1) (n - 1))) g.

Definition np_percentile (a : list fl) (p : Q) : fl :=
  np_quantile a (p / 100).

(** [np.arange(start, stop)] with unit step, on integers. *)
Definition np_arange (start stop : Z) : list Z :=
  map (fun i => (start + Z.of_nat i)%Z) (seq 0 (Z.to_nat (stop - start))).

(** [np.nanmean], [np.nanstd], [np.nanpercentile]: the reduction of the
    values that are not [NaN], and [NaN] when none is left. *)
Definition not_nan (a : list fl) : list fl :=
  List.filter (fun x => negb (isnan x)) a.

Definition np_nanmean (a : list fl) : fl := np_mean (not_nan a).

Definition np_nanstd `{Libm} (a : list fl) : fl :=
  match not_nan a with
  | [] => NaN
  | obs => np_std obs
  end.

Definition np_nanpercentile (a : list fl) (p : Q) : fl :=
  np_percentile (not_nan a) p.

(** [np.ones(n)]: [ValueError] for a negative length. *)
Definition np_ones (n : Z) : result (list fl) :=
  if (n <? 0)%Z then Raise ValueError else Ok (repeat (Fin 1) (Z.to_nat n)).

(** [np.convolve(a, v, mode='valid')]: the longer argument is slid over the
    reversed shorter one; an empty argument is a [ValueError]. *)
Definition np_convolve_valid (a v : list fl) : result (list fl) :=
  let '(a, v) := if (length a <? length v)%nat then (v, a) else (a, v) in
  if (length a =? 0)%nat then Raise ValueError
  else if (length v =? 0)%nat then Raise ValueError
  else Ok (map (fun k => np_sum (zip_with fmul (drop k a) (rev v)))
               (seq 0 (length a - length v + 1))).

(** A numpy [int64] scalar: the sum with a Python integer wraps around on
    overflow; a Python integer outside the int64 range is not accepted
    ([OverflowError], numpy 2). *)
Definition int64_min : Z := (- 2 ^ 63)%Z.
Definition int64_max : Z := (2 ^ 63 - 1)%Z.

Definition in_int64 (z : Z) : bool := (int64_min <=? z)%Z && (z <=? int64_max)%Z.

Definition int64_wrap (z : Z) : Z := ((z - int64_min) mod 2 ^ 64 + int64_min)%Z.

(** The scalar a reduction of a numeric column returns is an [int64] when the
    column holds whole numbers of the int64 range (that is how pandas holds
    whole years) and a [float64] otherwise. *)
Definition is_int64 (x : Q) : bool :=
  Qeq_bool x (inject_Z (Qfloor x)) && in_int64 (Qfloor x).

(** [x + k] for such a scalar [x] and a Python integer [k]. *)
Definition scalar_add (x : Q) (k : Z) : result Q :=
  if is_int64 x then
    if in_int64 k then Ok (inject_Z (int64_wrap (Qfloor x + k)))
    else Raise OverflowError
  else Ok (x + inject_Z k).

End Numpy.
Export Numpy.

(** ** pandas *)

Module Pandas.

(** A column is numeric ([int64], [float64]: what
    [select_dtypes(include=[np.number])] keeps) or of dtype [object]. *)
Inductive dtype :=
| Number
| Object.

(** A cell of a numeric column is a float (a missing value is [NaN]); a cell
    of an [object] column is a string or missing ([None]). *)
Inductive cell :=
| CNum (x : fl)
| CObj (s : option string).

Definition row := list cell.

Record DataFrame := mkDataFrame {
  columns : list (string * dtype);
  rows : list row
}.

Record Series := mkSeries {
  sdtype : dtype;
  svalues : list cell
}.

(** [pd.DataFrame()] *)
Definition empty_frame : DataFrame := {| columns := []; rows := [] |}.

(** [df.empty]: some axis has length 0. *)
Definition df_empty (d : DataFrame) : bool :=
  match columns d, rows d with
  | [], _ | _, [] => true
  | _, _ => false
  end.

Fixpoint col_index (name : string) (cols : list (string * dtype)) : option nat :=
  match cols with
  | [] => None
  | (c, _) :: cs => if String.eqb c name then Some 0%nat else S <$> col_index name cs
  end.

(** [name in df.columns] *)
Definition has_column (d : DataFrame) (name : string) : bool :=
  match col_index name (columns d) with Some _ => true | None => false end.

Definition cell_at (k : nat) (r : row) : cell := nth k r (CNum NaN).

Definition col_dtype (k : nat) (d : DataFrame) : dtype :=
  nth k (map snd (columns d)) Object.

(** [df[name]] *)
Definition getitem (d : DataFrame) (name : string) : result Series :=
  match col_index name (columns d) with
  | Some k => Ok {| sdtype := col_dtype k d; svalues := map (cell_at k) (rows d) |}
  | None => Raise KeyError
  end.

Definition isnull (c : cell) : bool :=
  match c with
  | CNum x => isnan x
  | CObj None => true
  | CObj (Some _) => false
  end.

Definition cell_fl (c : cell) : fl :=
  match c with CNum x => x | CObj _ => NaN end.

(** The values a reduction with [skipna=True] works on. *)
Definition dropna (s : Series) : list fl :=
  List.filter (fun x => negb (isnan x)) (map cell_fl (svalues s)).

(** Reductions of a column of dtype [object] are not modelled: pandas raises
    [TypeError] as soon as such a column holds a string. *)
Definition numeric_only {A} (s : Series) (v : A) : result A :=
  match sdtype s with Number => Ok v | Object => Raise TypeError end.

(** [s.median()], [s.quantile(q)], [s.max()]; [NaN] when nothing is left. *)
Definition series_median (s : Series) : result fl :=
  numeric_only s (np_median (dropna s)).

Definition series_quantile (s : Series) (q : Q) : result fl :=
  numeric_only s (np_quantile (dropna s) q).

Definition series_max (s : Series) : result fl :=
  numeric_only s
    match dropna s with
    | [] => NaN
    | x :: a => foldl fmax x a
    end.

(** [s >= v], [s <= v] against a number: element by element; a missing cell
    compares false, a string against a number raises [TypeError]. *)
Definition compare_cell (op : fl -> fl -> bool) (v : fl) (c : cell) : result bool :=
  match c with
  | CNum x => Ok (op x v)
  | CObj None => Ok false
  | CObj (Some _) => Raise TypeError
  end.

Definition series_ge (s : Series) (v : fl) : result (list bool) :=
  mapM (compare_cell fge v) (svalues s).

Definition series_le (s : Series) (v : fl) : result (list bool) :=
  mapM (compare_cell fle v) (svalues s).

(** [s.isin(values)] and [s == value] for strings: never raise. *)
Definition series_isin (s : Series) (values : list string) : list bool :=
  map (fun c => match c with
                | CObj (Some x) => existsb (String.eqb x) values
                | _ => false
                end) (svalues s).

Definition series_eq (s : Series) (value : string) : list bool :=
  map (fun c => match c with
                | CObj (Some x) => String.eqb x value
                | _ => false
                end) (svalues s).

(** [m1 & m2] *)
Definition mask_and (m1 m2 : list bool) : list bool := zip_with andb m1 m2.

(** Boolean indexing [a[mask]]. *)
Fixpoint select {A} (l : list A) (mask : list bool) : list A :=
  match l, mask with
  | x :: l', b :: mask' => if b then x :: select l' mask' else select l' mask'
  | _, _ => []
  end.

(** [df[mask]]: a new frame with the rows where the mask holds. *)
Definition getitem_mask (d : DataFrame) (mask : list bool) : DataFrame :=
  {| columns := columns d; rows := select (rows d) mask |}.

(** [df.drop_duplicates()]: keeps the first of equal rows. *)
Definition cell_same (c1 c2 : cell) : bool :=
  match c1, c2 with
  | CNum x, CNum y => fsame x y
  | CObj None, CObj None => true
  | CObj (Some a), CObj (Some b) => String.eqb a b
  | _, _ => false
  end.

Fixpoint row_same (r1 r2 : row) : bool :=
  match r1, r2 with
  | [], [] => true
  | c1 :: r1', c2 :: r2' => cell_same c1 c2 && row_same r1' r2'
  | _, _ => false
  end.

Fixpoint dedup (seen : list row) (rs : list row) : list row :=
  match rs with
  | [] => []
  | r :: rs' =>
      if existsb (row_same r) seen then dedup seen rs'
      else r :: dedup (r :: seen) rs'
  end.

Definition drop_duplicates (d : DataFrame) : DataFrame :=
  {| columns := columns d; rows := dedup [] (rows d) |}.

(** [df[name].isnull().any()] and the frame in which the missing cells of
    column [name] are filled with [v], by column position. *)
Definition any_null (k : nat) (d : DataFrame) : bool :=
  existsb (fun r => isnull (cell_at k r)) (rows d).

Definition fillna (k : nat) (v : cell) (d : DataFrame) : DataFrame :=
  {| columns := columns d;
     rows := map (fun r => if isnull (cell_at k r) then <[k := v]> r else r) (rows d) |}.

(** Whether pandas runs with copy-on-write: always from pandas 3, an option
    before. *)
Class PandasMode := {
  copy_on_write : bool
}.

(** The chained call [df[name].fillna(v, inplace=True)] fills the column
    object that [df[name]] returns.  Without copy-on-write that object shares
    its data with [df], and [df] is filled; with copy-on-write it is a
    temporary of its own, and [df] stays as it was. *)
Definition fillna_chained `{PandasMode} (k : nat) (v : cell) (d : DataFrame) : DataFrame :=
  if copy_on_write then d else fillna k v d.

(** The positions of the columns of a given dtype, in column order. *)
Definition dtype_eqb (a b : dtype) : bool :=
  match a, b with
  | Number, Number | Object, Object => true
  | _, _ => false
  end.

Definition positions_of (t : dtype) (d : DataFrame) : list nat :=
  map fst (List.filter (fun p => dtype_eqb (snd (snd p)) t)
                       (zip (seq 0 (length (columns d))) (columns d))).

(** [df.select_dtypes(include=[np.number])]: the numeric columns, in their
    order, with the cells of every row that belong to them. *)
Definition is_number (c : string * dtype) : bool := dtype_eqb (snd c) Number.

Definition select_number (d : DataFrame) : DataFrame :=
  let numeric := map is_number (columns d) in
  {| columns := select (columns d) numeric;
     rows := map (fun r => select r numeric) (rows d) |}.

(** A two-dimensional float array, [shape = (len(mrows), ncols)]. *)
Record ndarray2 := mkArray {
  ncols : nat;
  mrows : list (list fl)
}.

(** [pd.DataFrame({n1: v1, n2: v2})] from two float columns; [ValueError]
    when the columns differ in length. *)
Definition frame_of_pairs (n1 n2 : string) (v1 v2 : list fl) : result DataFrame :=
  if (length v1 =? length v2)%nat then
    Ok {| columns := [(n1, Number); (n2, Number)];
          rows := zip_with (fun a b => [CNum a; CNum b]) v1 v2 |}
  else Raise ValueError.

End Pandas.
Export Pandas.

(** ** Objects and references

    [filter_data] hands its argument back in one case and a fresh frame in the
    others, so frames live in a store and are passed by reference. *)

Module Store.

Definition ref := nat.
Definition heap := list DataFrame.

(** A computation reads and extends the store, and may raise. *)
Definition Py (A : Type) : Type := heap -> result (A * heap).

Definition py_ret {A} (a : A) : Py A := fun h => Ok (a, h).

Definition py_bind {A B} (m : Py A) (k : A -> Py B) : Py B := fun h =>
  match m h with
  | Ok (a, h') => k a h'
  | Raise e => Raise e
  end.

Definition py_lift {A} (m : result A) : Py A := fun h =>
  match m with
  | Ok a => Ok (a, h)
  | Raise e => Raise e
  end.

(** Reading a reference; a dangling one cannot be built by the code below. *)
Definition py_deref (r : ref) : Py DataFrame := fun h =>
  match h !! r with
  | Some d => Ok (d, h)
  | None => Raise KeyError
  end.

(** A new object. *)
Definition py_new (d : DataFrame) : Py ref := fun h => Ok (length h, h ++ [d]).

(** [df.copy()] *)
Definition df_copy (r : ref) : Py ref := py_bind (py_deref r) py_new.

End Store.
Export Store.

Notation "x <- m ;; k" := (py_bind m (fun x => k))
  (at level 100, m at next level, right associativity).

(** ** data/preprocess.py *)

Module Preprocess.

(** Python truthiness of an optional list / an optional string. *)
Definition truthy_list {A} (l : option (list A)) : bool :=
  match l with Some (_ :: _) => true | _ => false end.

Definition truthy_str (s : option string) : bool :=
  match s with Some (String _ _) => true | _ => false end.

(** One numeric column of [clean_data]: when a cell is missing, the chained
    in-place fill with the median of the column. *)
Definition impute_number `{PandasMode} (d : DataFrame) (k : nat) : DataFrame :=
  if any_null k d then
    let col := {| sdtype := Number; svalues := map (cell_at k) (rows d) |} in
    fillna_chained k (CNum (np_median (dropna col))) d
  else d.

(** One [object] column: the chained in-place fill with ['Unknown']. *)
Definition impute_object `{PandasMode} (d : DataFrame) (k : nat) : DataFrame :=
  if any_null k d then fillna_chained k (CObj (Some "Unknown"%string)) d else d.

(** The outlier step on the ['value'] column. *)
Definition value_fence (v : Series) : result (fl * fl) :=
  Q1 ← series_quantile v (1 # 4);
  Q3 ← series_quantile v (3 # 4);
  let IQR := (Q3 - Q1)%fl in
  let lower_bound := (Q1 - of_Z 3 * IQR)%fl in
  let upper_bound := (Q3 + of_Z 3 * IQR)%fl in
  mret (lower_bound, upper_bound).

Definition remove_outliers (d : DataFrame) : result DataFrame :=
  v ← getitem d "value";
  '(lower_bound, upper_bound) ← value_fence v;
  m1 ← series_ge v lower_bound;
  m2 ← series_le v upper_bound;
  mret (getitem_mask d (mask_and m1 m2)).

(** [clean_data(df)].  The argument is [None] or a frame.  The work is done on
    a private copy, so the frame is a value here. *)
Definition clean_data `{PandasMode} (df : option DataFrame) : result (option DataFrame) :=
  match df with
  | None => Ok None
  | Some d =>
      if df_empty d then Ok (Some d)
      else
        let df_clean := drop_duplicates d in
        let df_clean := foldl impute_number df_clean (positions_of Number df_clean) in
        let df_clean := foldl impute_object df_clean (positions_of Object df_clean) in
        if has_column df_clean "value" then Some <$> remove_outliers df_clean
        else Ok (Some df_clean)
  end.

(** The five steps of [filter_data]; each one reads the current frame and
    either builds a new one or leaves the reference as it is. *)
Definition filter_year (year_range : option (Z * Z)) (cur : ref) : Py ref :=
  d <- py_deref cur ;;
  match year_range with
  | Some (lo, hi) =>
      if has_column d "year" then
        y <- py_lift (getitem d "year") ;;
        m1 <- py_lift (series_ge y (of_Z lo)) ;;
        m2 <- py_lift (series_le y (of_Z hi)) ;;
        py_new (getitem_mask d (mask_and m1 m2))
      else py_ret cur
  | None => py_ret cur
  end.

Definition filter_isin (values : option (list string)) (name : string) (cur : ref) : Py ref :=
  d <- py_deref cur ;;
  if truthy_list values && has_column d name then
    s <- py_lift (getitem d name) ;;
    py_new (getitem_mask d (series_isin s (default [] values)))
  else py_ret cur.

Definition filter_area (area_type : option string) (cur : ref) : Py ref :=
  d <- py_deref cur ;;
  if truthy_str area_type
     && negb (String.eqb (default EmptyString area_type) "All")
     && has_column d "area_type" then
    s <- py_lift (getitem d "area_type") ;;
    py_new (getitem_mask d (series_eq s (default EmptyString area_type)))
  else py_ret cur.

(** [filter_data(df, year_range, states, countries, area_type, indicators)] *)
Definition filter_data (df : option ref)
    (year_range : option (Z * Z))
    (states countries : option (list string))
    (area_type : option string)
    (indicators : option (list string)) : Py (option ref) :=
  match df with
  | None => py_ret None
  | Some r =>
      d <- py_deref r ;;
      if df_empty d then py_ret (Some r)
      else
        df_filtered <- df_copy r ;;
        df_filtered <- filter_year year_range df_filtered ;;
        df_filtered <- filter_isin states "state" df_filtered ;;
        df_filtered <- filter_isin countries "country" df_filtered ;;
        df_filtered <- filter_area area_type df_filtered ;;
        df_filtered <- filter_isin indicators "indicator" df_filtered ;;
        py_ret (Some df_filtered)
  end.

End Preprocess.
Export Preprocess.

(** ** scipy and scikit-learn, as interfaces *)

Module Libraries.

(** [scipy.stats.skew] and [scipy.stats.kurtosis] of a sample. *)
Class SciPy := {
  scipy_skew : list fl -> fl;
  scipy_kurtosis : list fl -> fl
}.

(** The three regressors the code constructs, with their arguments. *)
Inductive estimator :=
| LinearRegression
| RandomForestRegressor (n_estimators : Z) (random_state : Z) (n_jobs : option Z)
| GradientBoostingRegressor (n_estimators : Z) (random_state : Z).

(** What the code uses of scikit-learn.  A fitted model predicts row by row;
    the metrics of [sklearn.metrics] return a numpy scalar in some releases
    and a Python [float] in others, which matters to a division by the
    integer [0] only. *)
Class Sklearn := {
  fitted : Type;
  fit : estimator -> ndarray2 -> list fl -> result fitted;
  n_features_in_ : fitted -> nat;
  predict_row : fitted -> list fl -> fl;
  coef_ : fitted -> list fl;
  intercept_ : fitted -> fl;
  r2_score : list fl -> list fl -> result fl;
  mean_squared_error : list fl -> list fl -> result fl;
  mean_absolute_error : list fl -> list fl -> result fl;
  metrics_are_numpy_scalars : bool;
  train_test_split :
    ndarray2 -> list fl -> Q -> Z -> result (ndarray2 * ndarray2 * list fl * list fl);
  cross_val_score : estimator -> ndarray2 -> list fl -> Z -> result (list fl)
}.

(** [model.predict(X)]: one prediction per row; [ValueError] when [X] has
    no row, when the number of columns is not the one the model was fitted
    on, or when [X] holds a value that is not finite. *)
Definition predict `{Sklearn} (model : fitted) (X : ndarray2) : result (list fl) :=
  if (length (mrows X) =? 0)%nat then Raise ValueError
  else if (ncols X =? n_features_in_ model)%nat && forallb (forallb is_finite) (mrows X)
  then Ok (map (predict_row model) (mrows X))
  else Raise ValueError.

End Libraries.
Export Libraries.

(** ** config.py *)

Module Config.

Definition ML_MODELS : list string :=
  ["Linear Regression"; "Random Forest"; "Gradient Boosting"]%string.
Definition ML_RANDOM_STATE : Z := 42.
Definition CORRELATION_METHODS : list string :=
  ["pearson"; "spearman"; "kendall"]%string.

End Config.
Export Config.

(** ** utils/stats.py *)

Module Stats.

(** A Python [dict] with float values, in insertion order. *)
Definition dict := list (string * fl).

Definition keys (d : dict) : list string := map fst d.

Fixpoint dict_get (d : dict) (k : string) : option fl :=
  match d with
  | [] => None
  | (k', v) :: d' => if String.eqb k' k then Some v else dict_get d' k
  end.

(** What [get_summary_statistics] accepts. *)
Inductive stats_arg :=
| OfFrame (values : list (list fl))
| OfSeries (values : list fl)
| OfArray (values : list fl).

Definition flat_values (data : stats_arg) : list fl :=
  match data with
  | OfFrame m => concat m
  | OfSeries v => v
  | OfArray v => v
  end.

Definition get_summary_statistics `{Libm} `{SciPy} (data : stats_arg) : result dict :=
  let data := flat_values data in
  let data := List.filter (fun x => negb (isnan x)) data in
  if (length data =? 0)%nat then Ok []
  else
    lo ← np_min data;
    hi ← np_max data;
    mret [ ("count", of_nat (length data));
           ("mean", np_mean data);
           ("median", np_median data);
           ("std", np_std data);
           ("variance", np_var data);
           ("min", lo);
           ("max", hi);
           ("range", (hi - lo)%fl);
           ("q25", np_percentile data 25);
           ("q50", np_percentile data 50);
           ("q75", np_percentile data 75);
           ("iqr", (np_percentile data 75 - np_percentile data 25)%fl);
           ("skewness", scipy_skew data);
           ("kurtosis", scipy_kurtosis data) ]%string.

(** *** Correlation *)

(** An entry of a correlation matrix: a real number or [NaN]. *)
Inductive rval :=
| RNaN
| RVal (r : R).

Record CorrFrame := mkCorr {
  clabels : list string;
  cvalues : list (list rval)
}.

Definition empty_corr : CorrFrame := {| clabels := []; cvalues := [] |}.

Inductive corr_method :=
| Pearson
| Spearman
| Kendall.

Definition parse_method (method : string) : result corr_method :=
  if String.eqb method "pearson" then Ok Pearson
  else if String.eqb method "spearman" then Ok Spearman
  else if String.eqb method "kendall" then Ok Kendall
  else Raise ValueError.

Definition Qsum (l : list Q) : Q := foldr Qplus 0 l.

Definition dot (u v : list Q) : Q := Qsum (zip_with Qmult u v).

Definition center (l : list Q) : list Q :=
  let m := Qsum l / inject_Z (Z.of_nat (length l)) in
  map (fun x => x - m) l.

Definition finite_values (l : list fl) : option (list Q) :=
  mapM (fun x => match x with Fin q => Some q | _ => None end) l.

Definition count (p : fl -> bool) (l : list fl) : Q :=
  inject_Z (Z.of_nat (length (List.filter p l))).

(** Average ranks (ties share the mean of their positions). *)
Definition rank (l : list fl) : list Q :=
  map (fun x => count (fun y => flt y x) l
                + (count (fun y => feqb y x) l + 1) / 2) l.

(** The sign of [x - y] for every pair of positions [i < j]. *)
Definition order_sign (x y : fl) : Q :=
  if flt x y then - (1) else if flt y x then 1 else 0.

Fixpoint pair_signs (l : list fl) : list Q :=
  match l with
  | [] => []
  | x :: l' => map (order_sign x) l' ++ pair_signs l'
  end.

(** Modelled from the spec: the three methods of [DataFrame.corr] by their
    standard definitions.  Each coefficient is the cosine of two vectors
    derived from the columns:
    the centred values (Pearson), the centred ranks (Spearman), the pairwise
    order signs (Kendall's tau-b).  Pearson does arithmetic on the values,
    which gives [NaN] as soon as one is infinite. *)
Definition embed (m : corr_method) (l : list fl) : option (list Q) :=
  match m with
  | Pearson => center <$> finite_values l
  | Spearman => Some (center (rank l))
  | Kendall => Some (pair_signs l)
  end.

Definition both_valid (p : fl * fl) : bool :=
  negb (isnan (fst p)) && negb (isnan (snd p)).

(** Modelled from the spec: the three sums a coefficient of
    [DataFrame.corr] is made of, over the rows where both columns are
    present: [A = <u, u>], [B = <u, v>], [C = <v, v>]. *)
Definition corr_sums (m : corr_method) (x y : list fl) : option (Q * Q * Q) :=
  let ps := List.filter both_valid (zip x y) in
  match embed m (map fst ps), embed m (map snd ps) with
  | Some u, Some v => Some (dot u u, dot u v, dot v v)
  | _, _ => None
  end.

(** Modelled from the spec: one entry of [DataFrame.corr], the coefficient
    [B / sqrt (A * C)]; [NaN] when a column is constant. *)
Definition corr_pair (m : corr_method) (x y : list fl) : rval :=
  match corr_sums m x y with
  | Some (A, B, C) =>
      if Qeq_bool (A * C) 0 then RNaN
      else RVal (Q2R B / sqrt (Q2R (A * C)))
  | None => RNaN
  end.

Definition column_values (d : DataFrame) (k : nat) : list fl :=
  map (fun r => cell_fl (cell_at k r)) (rows d).

(** Modelled from the spec: [DataFrame.corr(method)] is pandas code; the spec
    says it "computes the pairwise matrix using that method's standard
    definition", over the rows where both columns are present.  An unknown
    method name is a [ValueError]. *)
Definition pandas_corr (d : DataFrame) (method : string) : result CorrFrame :=
  m ← parse_method method;
  let ks := seq 0 (length (columns d)) in
  mret {| clabels := map fst (columns d);
          cvalues := map (fun i => map (fun j =>
                       corr_pair m (column_values d i) (column_values d j)) ks) ks |}.

Definition calculate_correlation (data : DataFrame) (method : string) : CorrFrame :=
  if df_empty data then empty_corr
  else
    let numeric_data := select_number data in
    if df_empty numeric_data then empty_corr
    else
      match pandas_corr numeric_data method with
      | Ok corr_matrix => corr_matrix
      | Raise _ => empty_corr
      end.

(** *** Regression *)

(** What [perform_regression] accepts for [X] and for [y]. *)
Inductive x_arg :=
| XSeries (values : list fl)
| XFrame (values : ndarray2)
| XArray (values : ndarray2).

Inductive y_arg :=
| YSeries (values : list fl)
| YArray (values : list fl).

(** [X.values.reshape(-1, 1)] *)
Definition reshape_column (v : list fl) : ndarray2 :=
  {| ncols := 1; mrows := map (fun x => [x]) v |}.

(** [~(np.isnan(X).any(axis=1) | np.isnan(y))] and the two indexings
    [X[mask]], [y[mask]] that follow: the two sides of [|] must have one
    length.  Otherwise a side of length 1 is broadcast and one of the
    indexings fails ([IndexError]), and two other lengths do not combine
    ([ValueError]). *)
Definition nan_mask (X : ndarray2) (y : list fl) : result (list bool) :=
  let n := length (mrows X) in
  let m := length y in
  if (n =? m)%nat then
    Ok (zip_with (fun r v => negb (existsb isnan r || isnan v)) (mrows X) y)
  else if (n =? 1)%nat || (m =? 1)%nat then Raise IndexError
  else Raise ValueError.

Record regression_result `{Sklearn} := mkRegression {
  coefficients : list fl;
  intercept : fl;
  r2 : fl;
  adjusted_r2 : fl;
  rmse : fl;
  mae : fl;
  model : option fitted
}.

(** [x / d] for a metric [x] and a Python [int] [d]: a numpy scalar follows
    IEEE, a Python [float] raises on [d = 0]. *)
Definition scalar_truediv `{Sklearn} (x : fl) (d : Z) : result fl :=
  if metrics_are_numpy_scalars then Ok (x / of_Z d)%fl
  else if (d =? 0)%Z then Raise ZeroDivisionError
  else Ok (x / of_Z d)%fl.

(** [1 - (1 - r2) * (n - 1) / (n - p - 1)] *)
Definition adjusted_r2_formula `{Sklearn} (r2 : fl) (n p : Z) : result fl :=
  t ← scalar_truediv ((of_Z 1 - r2) * of_Z (n - 1))%fl (n - p - 1)%Z;
  mret (of_Z 1 - t)%fl.

(** The [isinstance] preamble: a Series becomes one column, a frame its
    values; what is an array already is taken as it is. *)
Definition as_matrix (X : x_arg) : ndarray2 :=
  match X with
  | XSeries v => reshape_column v
  | XFrame m => m
  | XArray m => m
  end.

Definition as_vector (y : y_arg) : list fl :=
  match y with YSeries v => v | YArray v => v end.

(** The result for an empty input. *)
Definition zeroed_result `{Sklearn} : regression_result :=
  {| coefficients := []; intercept := of_Z 0; r2 := of_Z 0;
     adjusted_r2 := of_Z 0; rmse := of_Z 0; mae := of_Z 0; model := None |}.

Definition perform_regression `{Libm} `{Sklearn} (X : x_arg) (y : y_arg)
    : result regression_result :=
  let X := as_matrix X in
  let y := as_vector y in
  mask ← nan_mask X y;
  let X := {| ncols := ncols X; mrows := select (mrows X) mask |} in
  let y := select y mask in
  if (length (mrows X) =? 0)%nat || (length y =? 0)%nat then Ok zeroed_result
  else
    fitted_model ← fit LinearRegression X y;
    y_pred ← predict fitted_model X;
    r2 ← r2_score y y_pred;
    let n := Z.of_nat (length y) in
    let p := Z.of_nat (ncols X) in
    adjusted ← adjusted_r2_formula r2 n p;
    mse ← mean_squared_error y y_pred;
    mae ← mean_absolute_error y y_pred;
    mret {| coefficients := coef_ fitted_model;
            intercept := intercept_ fitted_model;
            r2 := r2;
            adjusted_r2 := adjusted;
            rmse := np_sqrt mse;
            mae := mae;
            model := Some fitted_model |}.

(** *** Scores, outliers, growth rates and smoothing *)

(** [calculate_zscore(data)] on a one-dimensional array.  The test
    [std == 0] is on the exact value of the standard deviation: it holds of
    every constant sample here, where float64 can leave a tiny rest. *)
Definition calculate_zscore `{Libm} (data : list fl) : list fl :=
  let mean := np_nanmean data in
  let std := np_nanstd data in
  if feqb std (of_Z 0) then map (fun _ => of_Z 0) data
  else map (fun x => ((x - mean) / std)%fl) data.

(** [detect_outliers(data, method, threshold)]: a mask as long as the data. *)
Definition detect_outliers `{Libm} (data : list fl) (method : string) (threshold : fl)
    : list bool :=
  if String.eqb method "iqr" then
    let q1 := np_nanpercentile data 25 in
    let q3 := np_nanpercentile data 75 in
    let iqr := (q3 - q1)%fl in
    let lower_bound := (q1 - threshold * iqr)%fl in
    let upper_bound := (q3 + threshold * iqr)%fl in
    map (fun x => flt x lower_bound || fgt x upper_bound) data
  else if String.eqb method "zscore" then
    let zscores := map fabs (calculate_zscore data) in
    map (fun z => fgt z threshold) zscores
  else map (fun _ => false) data.

(** [calculate_growth_rate(values, periods)] for [periods >= 0]: the loop
    writes entry [i] from entries [i] and [i - periods]. *)
Definition calculate_growth_rate (values : list fl) (periods : nat) : list fl :=
  if (length values <? periods + 1)%nat then []
  else
    map (fun i =>
           if (i <? periods)%nat then NaN
           else
             let base := item values (i - periods) in
             if negb (feqb base (of_Z 0))
             then (((item values i - base) / base) * of_Z 100)%fl
             else NaN)
        (seq 0 (length values)).

(** [calculate_moving_average(data, window)] *)
Definition calculate_moving_average (data : list fl) (window : Z) : result (list fl) :=
  if (Z.of_nat (length data) <? window)%Z then Ok data
  else
    ones ← np_ones window;
    np_convolve_valid data (map (fun x => (x / of_Z window)%fl) ones).

End Stats.
Export Stats.

(** ** utils/ml.py *)

Module ML.

(** [data[names].values] and [data[name].values], then [np.isnan] of them:
    [KeyError] for an absent column, [TypeError] for a column of dtype
    [object]. *)
Definition position (d : DataFrame) (name : string) : result nat :=
  match col_index name (columns d) with
  | Some k => Ok k
  | None => Raise KeyError
  end.

Definition require_number (d : DataFrame) (k : nat) : result unit :=
  match col_dtype k d with
  | Number => Ok tt
  | Object => Raise TypeError
  end.

Definition prepare (d : DataFrame) (target : string) (features : list string)
    : result (ndarray2 * list fl) :=
  ks ← mapM (position d) features;
  kt ← position d target;
  _ ← mapM (require_number d) ks;
  _ ← require_number d kt;
  let X := {| ncols := length ks;
              mrows := map (fun r => map (fun k => cell_fl (cell_at k r)) ks) (rows d) |} in
  let y := column_values d kt in
  let mask := zip_with (fun r v => negb (existsb isnan r || isnan v)) (mrows X) y in
  mret ({| ncols := ncols X; mrows := select (mrows X) mask |}, select y mask).

(** numpy's elementwise operations: equal lengths, or one side of length 1. *)
Definition elementwise (op : fl -> fl -> fl) (a b : list fl) : result (list fl) :=
  if (length a =? length b)%nat then Ok (zip_with op a b)
  else match a, b with
       | [x], _ => Ok (map (op x) b)
       | _, [y] => Ok (map (fun x => op x y) a)
       | _, _ => Raise ValueError
       end.

Definition evaluate_model `{Libm} `{Sklearn} (y_true y_pred : list fl) : result dict :=
  r2 ← r2_score y_true y_pred;
  mse ← mean_squared_error y_true y_pred;
  mae ← mean_absolute_error y_true y_pred;
  diff ← elementwise fsub y_true y_pred;
  ratio ← elementwise fdiv diff y_true;
  let mape := (np_mean (map fabs ratio) * of_Z 100)%fl in
  mret [ ("r2", r2); ("rmse", np_sqrt mse); ("mae", mae); ("mape", mape) ]%string.



(** [np.arange(start, stop)] on floats, step 1. *)
Definition arange (start stop : Q) : list fl :=
  map (fun i => Fin (start + inject_Z (Z.of_nat i)))
      (seq 0 (Z.to_nat (Qceiling (stop - start)))).

Definition predict_future `{Sklearn}
    (model : option fitted) (historical_data : DataFrame) (years_ahead : Z)
    : result DataFrame :=
  match model with
  | None => Ok empty_frame
  | Some model =>
      if df_empty historical_data then Ok empty_frame
      else
        year ← getitem historical_data "year";
        last_year ← series_max year;
        match last_year with
        | Fin last_year =>
            start ← scalar_add last_year 1;
            upto ← scalar_add last_year years_ahead;
            stop ← scalar_add upto 1;
            let future_years := arange start stop in
            let X_future := reshape_column future_years in
            predictions ← predict model X_future;
            frame_of_pairs "year" "value" future_years predictions
        | _ => Raise ValueError
        end
  end.

(** The [if / elif / else] on [model_type] in [cross_validate_model]. *)
Definition select_cv_model (model_type : string) : estimator :=
  if String.eqb model_type "Linear Regression" then LinearRegression
  else if String.eqb model_type "Random Forest" then
    RandomForestRegressor 100 ML_RANDOM_STATE None
  else if String.eqb model_type "Gradient Boosting" then
    GradientBoostingRegressor 100 ML_RANDOM_STATE
  else LinearRegression.

Record cv_result := mkCV {
  mean_score : fl;
  std_score : fl;
  scores : list fl
}.

Definition cross_validate_model `{Libm} `{Sklearn}
    (data : DataFrame) (target : string) (features : list string)
    (model_type : string) (cv : Z) : result cv_result :=
  '(X, y) ← prepare data target features;
  if (Z.of_nat (length (mrows X)) <? cv)%Z then
    Ok {| mean_score := of_Z 0; std_score := of_Z 0; scores := [] |}
  else
    scores ← cross_val_score (select_cv_model model_type) X y cv;
    mret {| mean_score := np_mean scores; std_score := np_std scores; scores := scores |}.

(** What [np.mean(predictions, axis=0)] returns: an array with one mean per
    row of [X], or the scalar [NaN] for an empty list of predictions. *)
Inductive ensemble :=
| EScalar (x : fl)
| EArray (v : list fl).

Definition create_ensemble_prediction `{Sklearn} (models : list fitted) (X : ndarray2)
    : result ensemble :=
  predictions ← mapM (fun model => predict model X) models;
  match predictions with
  | [] => Ok (EScalar NaN)
  | _ => Ok (EArray (map (fun i => np_mean (map (fun pred => item pred i) predictions))
                         (seq 0 (length (mrows X)))))
  end.

End ML.
Export ML.

(** ** Small library instances

    Stand-ins for numpy's square root, scipy and scikit-learn, used to run
    the functions above on concrete data.  The square root is exact on
    quotients of perfect squares; the regressor predicts the mean of its
    training targets; the split puts the last fifth of the rows aside. *)

Module Samples.

Definition sample_sqrt (x : fl) : fl :=
  match x with
  | Fin q => if Qle_bool 0 q then Fin (Z.sqrt (Qnum q) # Pos.sqrt (Qden q)) else NaN
  | PInf => PInf
  | _ => NaN
  end.

Definition sample_scipy : SciPy :=
  {| scipy_skew := fun _ => NaN; scipy_kurtosis := fun _ => NaN |}.

Definition squared_error (a b : fl) : fl := ((a - b) * (a - b))%fl.

Definition sample_r2 (y_true y_pred : list fl) : result fl :=
  let m := np_mean y_true in
  Ok (of_Z 1 - np_sum (zip_with squared_error y_true y_pred)
               / np_sum (map (fun v => squared_error v m) y_true))%fl.

Definition sample_split (X : ndarray2) (y : list fl) (test_size : Q) (seed : Z)
    : result (ndarray2 * ndarray2 * list fl * list fl) :=
  let n := length y in
  let n_test := Z.to_nat (Qceiling (inject_Z (Z.of_nat n) * test_size)) in
  let n_train := (n - n_test)%nat in
  if (n_train =? 0)%nat then Raise ValueError
  else Ok ({| ncols := ncols X; mrows := take n_train (mrows X) |},
           {| ncols := ncols X; mrows := drop n_train (mrows X) |},
           take n_train y, drop n_train y).

Definition sample_sklearn (numpy_scalars : bool) : Sklearn :=
  {| fitted := fl * nat;
     fit := fun _ X y => Ok (np_mean y, ncols X);
     n_features_in_ := snd;
     predict_row := fun m _ => fst m;
     coef_ := fun m => repeat (of_Z 0) (snd m);
     intercept_ := fst;
     r2_score := sample_r2;
     mean_squared_error := fun a b =>
       Ok (np_mean (zip_with squared_error a b));
     mean_absolute_error := fun a b =>
       Ok (np_mean (zip_with (fun x y => fabs (x - y)%fl) a b));
     metrics_are_numpy_scalars := numpy_scalars;
     train_test_split := sample_split;
     cross_val_score := fun _ _ _ cv => Ok (repeat (of_Z 0) (Z.to_nat cv)) |}.

(** The two modes of pandas. *)
Definition pandas_2 : PandasMode := {| copy_on_write := false |}.
Definition pandas_3 : PandasMode := {| copy_on_write := true |}.

End Samples.
Export Samples.

(** ** The vocabulary of the statements, and the data they are run on *)

(** The stand-in square root meets the two facts asked of [np.sqrt]. *)
Definition sample_libm : Libm.
Proof.
  refine {| np_sqrt := sample_sqrt |}.
  - intros [n d] Hq. unfold Qeq in Hq. simpl in Hq.
    assert (n = 0%Z) by lia. subst n. reflexivity.
  - intros q Hq. unfold sample_sqrt. apply Qle_bool_iff in Hq. now rewrite Hq.
Defined.

(** The store only grows: whatever a reference denoted, it still denotes. *)
Definition extends (h h' : heap) : Prop := exists ext, h' = h ++ ext.

(** [d'] has the columns of [d] and some of its rows, in their order. *)
Definition kept (d d' : DataFrame) : Prop :=
  columns d' = columns d /\ rows d' `sublist_of` rows d.

(** What every step of [filter_data] does: the store grows, and the frame the
    step returns keeps columns and a sub-sequence of the rows. *)
Definition selecting (step : ref -> Py ref) : Prop :=
  forall h cur d r' h',
    h !! cur = Some d -> step cur h = Ok (r', h') ->
    extends h h' /\ (cur <= r')%nat /\ exists d', h' !! r' = Some d' /\ kept d d'.

(** A row whose cell in column [k] is a finite number between [lo] and [hi],
    both ends included. *)
Definition year_between (k : nat) (lo hi : Z) (r : row) : Prop :=
  exists y, cell_at k r = CNum (Fin y) /\ inject_Z lo <= y <= inject_Z hi.

(** A small frame and one run of [filter_data] on it. *)
Definition example_frame : DataFrame :=
  {| columns := [("state", Object); ("year", Number); ("value", Number)]%string;
     rows := [ [CObj (Some "Goa"); CNum (of_Z 2000); CNum (Fin (31 # 2))];
               [CObj (Some "Goa"); CNum (of_Z 2001); CNum (Fin (29 # 2))];
               [CObj (Some "Kerala"); CNum (of_Z 2002); CNum (Fin 9)];
               [CObj (Some "Goa"); CNum (of_Z 2003); CNum (Fin 13)];
               [CObj None; CNum NaN; CNum (Fin 12)];
               [CObj (Some "Goa"); CNum (of_Z 2004); CNum (Fin 11)] ]%string |}.

Definition example_filtered : DataFrame :=
  {| columns := columns example_frame;
     rows := [ [CObj (Some "Goa"); CNum (of_Z 2001); CNum (Fin (29 # 2))];
               [CObj (Some "Goa"); CNum (of_Z 2003); CNum (Fin 13)] ]%string |}.

Definition example_heap : heap :=
  [ example_frame; example_frame;
    {| columns := columns example_frame;
       rows := [ [CObj (Some "Goa"); CNum (of_Z 2001); CNum (Fin (29 # 2))];
                 [CObj (Some "Kerala"); CNum (of_Z 2002); CNum (Fin 9)];
                 [CObj (Some "Goa"); CNum (of_Z 2003); CNum (Fin 13)] ]%string |};
    example_filtered ].

(** Six observations of distinct years whose values are 0, 0, 0, 0, 1, 10. *)
Definition outlier_frame : DataFrame :=
  {| columns := [("year", Number); ("value", Number)]%string;
     rows := [ [CNum (of_Z 2000); CNum (of_Z 0)];
               [CNum (of_Z 2001); CNum (of_Z 0)];
               [CNum (of_Z 2002); CNum (of_Z 0)];
               [CNum (of_Z 2003); CNum (of_Z 0)];
               [CNum (of_Z 2004); CNum (of_Z 1)];
               [CNum (of_Z 2005); CNum (of_Z 10)] ] |}.

Definition row_count (m : result (option DataFrame)) : option nat :=
  match m with
  | Ok (Some d) => Some (length (rows d))
  | _ => None
  end.

(** A frame on which [clean_data] has nothing left to do is stable: it is
    rectangular, has no two equal rows and no missing cell, and its values
    lie within the fence computed from them.  First, no two equal rows. *)
Fixpoint distinct_rows (rs : list row) : bool :=
  match rs with
  | [] => true
  | r :: rs' => negb (existsb (row_same r) rs') && distinct_rows rs'
  end.

Definition rectangular (d : DataFrame) : bool :=
  forallb (fun r => (length r =? length (columns d))%nat) (rows d).

Definition complete (d : DataFrame) : bool :=
  forallb (forallb (fun c => negb (isnull c))) (rows d).

Definition inside (lo hi : fl) (c : cell) : bool :=
  match c with
  | CNum x => fge x lo && fle x hi
  | CObj _ => false
  end.



(** The frame of the filtering example after one pass without copy-on-write:
    the missing state has become ['Unknown'], the missing year the median
    year 2002, and no value is outside the fence. *)
Definition example_cleaned : DataFrame :=
  Eval vm_compute in
    match @clean_data pandas_2 (Some example_frame) with
    | Ok (Some d) => d
    | _ => empty_frame
    end.

Definition finite (x : fl) : Prop := is_finite x = true.

Definition squares (m : Q) (qs : list Q) : list Q :=
  map (fun q => (q + - m) * (q + - m)) qs.

(** A float that is a finite number with a given property. *)
Definition valued (R : Q -> Prop) (x : fl) : Prop := exists q, x = Fin q /\ R q.

(** A property of rationals kept by the midpoint and by interpolation. *)
Record convex (R : Q -> Prop) : Prop := {
  convex_mid : forall a b, R a -> R b -> R ((0 + a + b) / inject_Z 2);
  convex_up : forall a b t, R a -> R b -> R (a + (b + - a) * t);
  convex_down : forall a b t, R a -> R b -> R (b + - ((b + - a) * (1 - t)))
}.

Definition summary_keys : list string :=
  [ "count"; "mean"; "median"; "std"; "variance"; "min"; "max"; "range";
    "q25"; "q50"; "q75"; "iqr"; "skewness"; "kurtosis" ]%string.

(** The observations [get_summary_statistics] works on: the values that are
    not [NaN]. *)
Definition observations (data : stats_arg) : list fl :=
  List.filter (fun x => negb (isnan x)) (flat_values data).

(** The entry of key [k] exists and satisfies [P]. *)
Definition field (d : dict) (k : string) (P : fl -> Prop) : Prop :=
  exists x, dict_get d k = Some x /\ P x.


(** The rows of [X] and the entries of [y] that the mask keeps. *)
Definition complete_rows (X : x_arg) (mask : list bool) : ndarray2 :=
  {| ncols := ncols (as_matrix X); mrows := select (mrows (as_matrix X)) mask |}.

Definition complete_targets (y : y_arg) (mask : list bool) : list fl :=
  select (as_vector y) mask.

(** Two points and one regressor: [n = 2], [p = 1]. *)
Definition two_points : x_arg := XArray {| ncols := 1; mrows := [[Fin 1]; [Fin 2]] |}.
Definition two_targets : y_arg := YArray [Fin 1; Fin 3].

(** A true value of 0 against a prediction of 1. *)
Definition example_metrics : dict :=
  Eval vm_compute in
    match @evaluate_model sample_libm (sample_sklearn false) [Fin 0; Fin 1] [Fin 1; Fin 1] with
    | Ok d => d
    | Raise _ => []
    end.

(** A frame whose only row has no year. *)
Definition missing_frame : DataFrame :=
  {| columns := [("year", Number); ("value", Number)]%string;
     rows := [[CNum NaN; CNum (Fin 1)]] |}.

(** A history that ends in 2024 and a model fitted on one feature. *)
Definition history_frame : DataFrame :=
  {| columns := [("year", Number); ("value", Number)]%string;
     rows := [ [CNum (of_Z 2022); CNum (Fin (21 # 2))];
               [CNum (of_Z 2023); CNum (Fin 10)];
               [CNum (of_Z 2024); CNum (Fin (19 # 2))] ] |}.

(** The same frame after one pass with copy-on-write: nothing is filled in,
    the row without a state and a year is as it was. *)
Definition example_selected : DataFrame :=
  Eval vm_compute in
    match @clean_data pandas_3 (Some example_frame) with
    | Ok (Some d) => d
    | _ => empty_frame
    end.

(** A history that ends in the last year an int64 holds. *)
Definition overflow_frame : DataFrame :=
  {| columns := [("year", Number); ("value", Number)]%string;
     rows := [ [CNum (of_Z 9223372036854775806); CNum (Fin 11)];
               [CNum (of_Z 9223372036854775807); CNum (Fin 10)] ] |}.

Definition example_forecast : DataFrame :=
  Eval vm_compute in
    match @predict_future (sample_sklearn false) (Some (Fin 10, 1%nat)) history_frame 5 with
    | Ok d => d
    | Raise _ => empty_frame
    end.

(** Both columns vary on the rows they share, so the coefficient exists. *)
Definition defined_pair (m : corr_method) (x y : list fl) : bool :=
  match corr_sums m x y with
  | Some (A, _, C) => negb (Qeq_bool (A * C) 0)
  | None => false
  end.

(** The names of the numeric columns, in column order. *)
Definition numeric_names (data : DataFrame) : list string :=
  map fst (List.filter is_number (columns data)).

(** The entry in row [i] and column [j] of a correlation matrix. *)
Definition entry (C : CorrFrame) (i j : nat) : rval :=
  nth j (nth i (cvalues C) []) RNaN.

(** A frame is non-degenerate for a method when every two numeric columns
    vary on the rows they share. *)
Definition nondegenerate (data : DataFrame) (m : corr_method) : bool :=
  let d := select_number data in
  let ks := seq 0 (length (columns d)) in
  forallb (fun i =>
    forallb (fun j => defined_pair m (column_values d i) (column_values d j)) ks) ks.

(** Three states, two indicators. *)
Definition indicator_frame : DataFrame :=
  {| columns := [("state", Object); ("poverty", Number); ("literacy", Number)]%string;
     rows := [ [CObj (Some "Goa"); CNum (Fin 10); CNum (Fin 90)];
               [CObj (Some "Kerala"); CNum (Fin 8); CNum (Fin 95)];
               [CObj (Some "Bihar"); CNum (Fin 30); CNum (Fin 60)] ]%string |}.

(** ** More vocabulary: the rows a filter specification lets through *)

Definition cell_between (lo hi : Z) (c : cell) : bool :=
  match c with
  | CNum x => fge x (of_Z lo) && fle x (of_Z hi)
  | CObj _ => false
  end.

Definition cell_in (values : list string) (c : cell) : bool :=
  match c with
  | CObj (Some x) => existsb (String.eqb x) values
  | _ => false
  end.

Definition cell_is (value : string) (c : cell) : bool :=
  match c with
  | CObj (Some x) => String.eqb x value
  | _ => false
  end.

(** A test on the cell of a named column; a column the frame does not have
    restricts nothing. *)
Definition column_test (d : DataFrame) (name : string) (test : cell -> bool) (r : row) : bool :=
  match col_index name (columns d) with
  | Some k => test (cell_at k r)
  | None => true
  end.

Definition passes_year (d : DataFrame) (year_range : option (Z * Z)) (r : row) : bool :=
  match year_range with
  | Some (lo, hi) => column_test d "year" (cell_between lo hi) r
  | None => true
  end.

Definition passes_isin (d : DataFrame) (values : option (list string)) (name : string)
    (r : row) : bool :=
  if truthy_list values then column_test d name (cell_in (default [] values)) r else true.

Definition passes_area (d : DataFrame) (area_type : option string) (r : row) : bool :=
  if truthy_str area_type && negb (String.eqb (default EmptyString area_type) "All")
  then column_test d "area_type" (cell_is (default EmptyString area_type)) r
  else true.

(** All the supplied predicates at once. *)
Definition passes (d : DataFrame)
    (year_range : option (Z * Z)) (states countries : option (list string))
    (area_type : option string) (indicators : option (list string)) (r : row) : bool :=
  passes_year d year_range r
  && passes_isin d states "state" r
  && passes_isin d countries "country" r
  && passes_area d area_type r
  && passes_isin d indicators "indicator" r.

(** The cell is not a string (a number, or missing). *)
Definition comparable (c : cell) : bool :=
  match c with
  | CObj (Some _) => false
  | _ => true
  end.

(** What a step does to the rows, exactly. *)
Definition filtering (step : ref -> Py ref) (test : DataFrame -> row -> bool) : Prop :=
  forall h cur d r' h',
    h !! cur = Some d -> step cur h = Ok (r', h') ->
    exists d', h' !! r' = Some d' /\ columns d' = columns d
               /\ rows d' = List.filter (test d) (rows d).

(** The store after filtering the filtered example once more. *)
Definition example_heap_twice : heap :=
  Eval vm_compute in
    match filter_data (Some 3%nat) (Some (2001, 2003)%Z) (Some ["Goa"%string]) None
                      (Some "All"%string) None example_heap with
    | Ok (_, h) => h
    | Raise _ => []
    end.

(** The stores of filtering the example in two steps: by year, then by
    state. *)
Definition example_heap_first : heap :=
  Eval vm_compute in
    match filter_data (Some 0%nat) (Some (2001, 2003)%Z) None None None None
                      [example_frame] with
    | Ok (_, h) => h
    | Raise _ => []
    end.

Definition example_heap_second : heap :=
  Eval vm_compute in
    match filter_data (Some 2%nat) None (Some ["Goa"%string]) None (Some "All"%string) None
                      example_heap_first with
    | Ok (_, h) => h
    | Raise _ => []
    end.

(** A frame whose years were read as text. *)
Definition text_year_frame : DataFrame :=
  {| columns := [("year", Object); ("value", Number)]%string;
     rows := [ [CObj (Some "2020"%string); CNum (Fin 12)];
               [CObj (Some "2021"%string); CNum (Fin 11)] ] |}.

(** Every row has [n] cells. *)
Definition rows_of_width (n : nat) (d : DataFrame) : Prop :=
  Forall (fun r => length r = n) (rows d).

(** No cell of column [k] is missing. *)
Definition filled (k : nat) (d : DataFrame) : Prop :=
  Forall (fun r => isnull (cell_at k r) = false) (rows d).

(** ** More vocabulary: ranges and samples of numbers *)

(** A rational between two bounds. *)
Definition between (lo hi : Q) (q : Q) : Prop := lo <= q <= hi.

Definition nonzero (q : Q) : Prop := ~ q == 0.

(** An entry that is a finite number or [NaN], never an infinity. *)
Definition never_infinite (x : fl) : Prop := isnan x = true \/ finite x.

(** The values in another unit: every one multiplied by [c]. *)
Definition rescale (c : Q) (values : list fl) : list fl :=
  map (fun x => (Fin c * x)%fl) values.

(** A short series with a zero in it. *)
Definition growth_series : list fl := [Fin 4; Fin 0; Fin 5; Fin 6].

Definition smooth_series : list fl := [Fin 1; Fin 2; Fin 6; Fin 4].

(** Its moving averages over windows of three. *)
Definition smooth_averages : list fl :=
  Eval vm_compute in
    match calculate_moving_average smooth_series 3 with
    | Ok out => out
    | Raise _ => []
    end.

(** A sample with a gap, all of whose values are the same. *)
Definition flat_sample : list fl := [Fin 7; NaN; Fin 7].



(** A flag that is never raised on a missing value. *)
Definition spares_missing (x : fl) (flagged : bool) : Prop :=
  isnan x = true -> flagged = false.

(** The rows of [d] that a mask of flags does not mark. *)
Definition unflagged (d : DataFrame) (flags : list bool) : list row :=
  select (rows d) (map negb flags).

(** Nothing to deduplicate and nothing to fill in. *)
Definition tidy (d : DataFrame) : bool :=
  rectangular d && distinct_rows (rows d) && complete d.

(** [outlier_frame] after one pass of [clean_data]. *)
Definition outlier_cleaned : DataFrame :=
  Eval vm_compute in
    match @clean_data pandas_3 (Some outlier_frame) with
    | Ok (Some d) => d
    | _ => outlier_frame
    end.

(** ** More vocabulary: models on concrete data *)

(** Three points and their targets. *)
Definition three_points : x_arg :=
  XArray {| ncols := 1; mrows := [[Fin 1]; [Fin 2]; [Fin 3]] |}.
Definition three_targets : y_arg := YArray [Fin 1; Fin 2; Fin 4].

(** The score of the stand-in model (it predicts the mean) on them. *)
Definition three_r2 : Q :=
  Eval vm_compute in
    match sample_r2 [Fin 1; Fin 2; Fin 4] (repeat (np_mean [Fin 1; Fin 2; Fin 4]) 3) with
    | Ok (Fin q) => q
    | _ => 0
    end.

(** True values without a zero against predictions of 1. *)
Definition fair_metrics : dict :=
  Eval vm_compute in
    match @evaluate_model sample_libm (sample_sklearn false) [Fin 1; Fin 2] [Fin 1; Fin 1] with
    | Ok d => d
    | Raise _ => []
    end.

(** Every prediction of every model, on every row of [X], satisfies [P]. *)
Definition predicting `{Sklearn} (P : fl -> Prop) (models : list fitted) (X : ndarray2) : Prop :=
  Forall (fun model => Forall (fun r => P (predict_row model r)) (mrows X)) models.

(** Two fitted stand-in models, two rows, and the ensemble of the two. *)
Definition two_rows : ndarray2 := {| ncols := 1; mrows := [[Fin 5]; [Fin 6]] |}.

Definition ensemble_example : ensemble :=
  Eval vm_compute in
    match @create_ensemble_prediction (sample_sklearn false)
            [(Fin 1, 1%nat); (Fin 3, 1%nat)] two_rows with
    | Ok out => out
    | Raise _ => EScalar NaN
    end.

(** The result [cross_validate_model] returns without validating. *)
Definition no_scores : cv_result :=
  {| mean_score := of_Z 0; std_score := of_Z 0; scores := [] |}.

(** The entries of the summary that locate the data. *)
Definition location_keys : list string :=
  [ "mean"; "median"; "min"; "max"; "q25"; "q50"; "q75" ]%string.

(** Four values and a gap. *)
Definition gapped_series : stats_arg := OfSeries [Fin 2; NaN; Fin 8; Fin 3; Fin 5].

(** * Properties *)

(** ** Floats *)

Lemma Qle_bool_true (a b : Q) : Qle_bool a b = true <-> a <= b.
Proof. apply Qle_bool_iff. Qed.

Lemma fle_fin_l (a : Q) (x : fl) :
  fle (Fin a) x = true -> x = PInf \/ exists y, x = Fin y /\ a <= y.
Proof.
  destruct x as [y| | |]; simpl; try discriminate; auto.
  intros Hle. right. exists y. split; [reflexivity|]. now apply Qle_bool_iff.
Qed.

Lemma fle_fin_r (x : fl) (b : Q) :
  fle x (Fin b) = true -> x = NInf \/ exists y, x = Fin y /\ y <= b.
Proof.
  destruct x as [y| | |]; simpl; try discriminate; auto.
  intros Hle. right. exists y. split; [reflexivity|]. now apply Qle_bool_iff.
Qed.

Lemma between_fin (x : fl) (a b : Q) :
  fge x (Fin a) = true -> fle x (Fin b) = true ->
  exists y, x = Fin y /\ a <= y <= b.
Proof.
  unfold fge. intros Ha Hb.
  destruct (fle_fin_l _ _ Ha) as [->|(y & -> & Hy)]; [discriminate|].
  destruct (fle_fin_r _ _ Hb) as [?|(y' & [= <-] & Hy')]; [discriminate|].
  eauto.
Qed.

(** ** Results and boolean indexing *)

Lemma mapM_result_Forall2 {A B} (f : A -> result B) (l : list A) (bs : list B) :
  mapM f l = Ok bs -> Forall2 (fun x b => f x = Ok b) l bs.
Proof.
  revert bs. induction l as [|x l IH]; intros bs; simpl.
  - intros [= <-]. constructor.
  - destruct (f x) as [b|e] eqn:Hx; simpl; [|discriminate].
    destruct (mapM f l) as [bs'|e]; simpl; [|discriminate].
    intros [= <-]. constructor; auto.
Qed.

Lemma select_sublist {A} (l : list A) (mask : list bool) :
  select l mask `sublist_of` l.
Proof.
  revert mask. induction l as [|x l IH]; intros [|[] mask]; simpl;
    try apply sublist_nil_l.
  - now apply sublist_skip.
  - now apply sublist_cons.
Qed.

Lemma select_all {A} (l : list A) (mask : list bool) :
  length mask = length l -> forallb (fun b => b) mask = true -> select l mask = l.
Proof.
  revert mask. induction l as [|x l IH]; intros [|b mask]; simpl; try discriminate; auto.
  intros [= Hlen] [Hb Hrest]%andb_prop. subst b.
  now rewrite IH.
Qed.

Lemma Forall_sublist_of {A} (P : A -> Prop) (l1 l2 : list A) :
  l1 `sublist_of` l2 -> Forall P l2 -> Forall P l1.
Proof.
  induction 1; intros Hall; auto.
  - inversion Hall; subst. constructor; auto.
  - inversion Hall; subst. auto.
Qed.

(** ** The store *)

Lemma extends_refl (h : heap) : extends h h.
Proof. exists []. now rewrite app_nil_r. Qed.

Lemma extends_trans (h1 h2 h3 : heap) : extends h1 h2 -> extends h2 h3 -> extends h1 h3.
Proof. intros [e1 ->] [e2 ->]. exists (e1 ++ e2). now rewrite app_assoc. Qed.

Lemma extends_lookup (h h' : heap) (l : ref) (d : DataFrame) :
  extends h h' -> h !! l = Some d -> h' !! l = Some d.
Proof. intros [ext ->]. apply lookup_app_l_Some. Qed.

Lemma py_new_spec (d : DataFrame) (h : heap) :
  py_new d h = Ok (length h, h ++ [d]) /\ (h ++ [d]) !! length h = Some d.
Proof.
  split; [reflexivity|]. apply lookup_snoc_Some. right. auto.
Qed.

(** ** filter_data *)

Lemma kept_refl (d : DataFrame) : kept d d.
Proof. split; reflexivity. Qed.

Lemma kept_trans (d1 d2 d3 : DataFrame) : kept d1 d2 -> kept d2 d3 -> kept d1 d3.
Proof.
  intros [Hc1 Hr1] [Hc2 Hr2]. split; [congruence|]. etrans; eauto.
Qed.

Lemma kept_mask (d : DataFrame) (mask : list bool) : kept d (getitem_mask d mask).
Proof. split; [reflexivity|]. apply select_sublist. Qed.

Lemma selecting_new (d : DataFrame) (mask : list bool) (h : heap) (cur r' : ref) (h' : heap) :
  h !! cur = Some d -> py_new (getitem_mask d mask) h = Ok (r', h') ->
  extends h h' /\ (cur <= r')%nat /\ exists d', h' !! r' = Some d' /\ kept d d'.
Proof.
  intros Hcur [= <- <-]. split; [now eexists|].
  split; [apply lookup_lt_Some in Hcur; lia|].
  exists (getitem_mask d mask). split; [apply py_new_spec | apply kept_mask].
Qed.

Lemma selecting_same (h : heap) (cur : ref) (d : DataFrame) :
  h !! cur = Some d ->
  extends h h /\ (cur <= cur)%nat /\ exists d', h !! cur = Some d' /\ kept d d'.
Proof.
  intros. split; [apply extends_refl|]. split; [lia|].
  exists d. split; [done | apply kept_refl].
Qed.

Ltac py_run Hcur :=
  unfold py_bind, py_deref, py_lift, py_ret; rewrite ?Hcur; simpl.

Lemma filter_year_selecting (year_range : option (Z * Z)) : selecting (filter_year year_range).
Proof.
  intros h cur d r' h' Hcur. unfold filter_year. py_run Hcur.
  destruct year_range as [[lo hi]|].
  - destruct (has_column d "year").
    + destruct (getitem d "year") as [y|]; [|discriminate].
      destruct (series_ge y (of_Z lo)) as [m1|]; [|discriminate].
      destruct (series_le y (of_Z hi)) as [m2|]; [|discriminate].
      now apply (selecting_new _ _ _ _ _ _ Hcur).
    + intros [= <- <-]. now apply selecting_same.
  - intros [= <- <-]. now apply selecting_same.
Qed.

Lemma filter_isin_selecting (values : option (list string)) (name : string) :
  selecting (filter_isin values name).
Proof.
  intros h cur d r' h' Hcur. unfold filter_isin. py_run Hcur.
  destruct (truthy_list values && has_column d name).
  - destruct (getitem d name) as [s|]; [|discriminate].
    now apply (selecting_new _ _ _ _ _ _ Hcur).
  - intros [= <- <-]. now apply selecting_same.
Qed.

Lemma filter_area_selecting (area_type : option string) : selecting (filter_area area_type).
Proof.
  intros h cur d r' h' Hcur. unfold filter_area. py_run Hcur.
  match goal with |- context [if ?c then _ else _] => destruct c end.
  - destruct (getitem d "area_type") as [s|]; [|discriminate].
    now apply (selecting_new _ _ _ _ _ _ Hcur).
  - intros [= <- <-]. now apply selecting_same.
Qed.

(** A run of [m] followed by [k] that returns went through both. *)
Lemma py_bind_Ok {A B} (m : Py A) (k : A -> Py B) (h : heap) (b : B) (h' : heap) :
  py_bind m k h = Ok (b, h') ->
  exists a h1, m h = Ok (a, h1) /\ k a h1 = Ok (b, h').
Proof.
  unfold py_bind. destruct (m h) as [[a h1]|]; [|discriminate].
  intros Hk. eauto.
Qed.

(** The copy and the five steps of [filter_data], taken together. *)
Lemma filter_data_run (h : heap) (r : ref) (d : DataFrame)
    (year_range : option (Z * Z)) (states countries : option (list string))
    (area_type : option string) (indicators : option (list string))
    (out : option ref) (h' : heap) :
  h !! r = Some d -> df_empty d = false ->
  filter_data (Some r) year_range states countries area_type indicators h = Ok (out, h') ->
  exists r1 h1 d1 r' d',
    filter_year year_range (length h) (h ++ [d]) = Ok (r1, h1)
    /\ h1 !! r1 = Some d1 /\ kept d d1
    /\ out = Some r' /\ h' !! r' = Some d' /\ kept d1 d'
    /\ extends h h' /\ (length h <= r')%nat.
Proof.
  intros Hr Hne. unfold filter_data. intros Hrun.
  apply py_bind_Ok in Hrun as (d0 & h0 & Hderef & Hrun).
  unfold py_deref in Hderef. rewrite Hr in Hderef. injection Hderef as <- <-.
  rewrite Hne in Hrun.
  apply py_bind_Ok in Hrun as (c & hc & Hcopy & Hrun).
  unfold df_copy, py_bind, py_deref in Hcopy. rewrite Hr in Hcopy.
  injection Hcopy as <- <-.
  assert (Hc : (h ++ [d]) !! length h = Some d) by apply py_new_spec.
  apply py_bind_Ok in Hrun as (r1 & h1 & Hyear & Hrun).
  destruct (filter_year_selecting _ _ _ _ _ _ Hc Hyear) as (He1 & Hl1 & d1 & Hd1 & Hk1).
  apply py_bind_Ok in Hrun as (r2 & h2 & Hs2 & Hrun).
  destruct (filter_isin_selecting _ _ _ _ _ _ _ Hd1 Hs2) as (He2 & Hl2 & d2 & Hd2 & Hk2).
  apply py_bind_Ok in Hrun as (r3 & h3 & Hs3 & Hrun).
  destruct (filter_isin_selecting _ _ _ _ _ _ _ Hd2 Hs3) as (He3 & Hl3 & d3 & Hd3 & Hk3).
  apply py_bind_Ok in Hrun as (r4 & h4 & Hs4 & Hrun).
  destruct (filter_area_selecting _ _ _ _ _ _ Hd3 Hs4) as (He4 & Hl4 & d4 & Hd4 & Hk4).
  apply py_bind_Ok in Hrun as (r5 & h5 & Hs5 & Hrun).
  destruct (filter_isin_selecting _ _ _ _ _ _ _ Hd4 Hs5) as (He5 & Hl5 & d5 & Hd5 & Hk5).
  injection Hrun as <- <-.
  exists r1, h1, d1, r5, d5. repeat split; auto.
  - apply Hk1.
  - apply Hk1.
  - apply (kept_trans _ d2); [done|]. apply (kept_trans _ d3); [done|].
    apply (kept_trans _ d4); done.
  - apply (kept_trans _ d2); [done|]. apply (kept_trans _ d3); [done|].
    apply (kept_trans _ d4); done.
  - assert (extends h (h ++ [d])) by (now eexists).
    repeat (eapply extends_trans; [eassumption|]). apply extends_refl.
  - lia.
Qed.

Lemma compare_cell_between (lo hi : Z) (c : cell) :
  compare_cell fge (of_Z lo) c = Ok true ->
  compare_cell fle (of_Z hi) c = Ok true ->
  exists y, c = CNum (Fin y) /\ inject_Z lo <= y <= inject_Z hi.
Proof.
  destruct c as [x|[s|]]; simpl; try discriminate.
  intros [= Hge] [= Hle].
  destruct (between_fin _ _ _ Hge Hle) as (y & -> & Hy). eauto.
Qed.

Lemma select_year_between (k : nat) (lo hi : Z) (rs : list row) (m1 m2 : list bool) :
  Forall2 (fun c b => compare_cell fge (of_Z lo) c = Ok b) (map (cell_at k) rs) m1 ->
  Forall2 (fun c b => compare_cell fle (of_Z hi) c = Ok b) (map (cell_at k) rs) m2 ->
  Forall (year_between k lo hi) (select rs (mask_and m1 m2)).
Proof.
  revert m1 m2. induction rs as [|r rs IH]; intros m1 m2 H1 H2; simpl.
  - constructor.
  - inversion H1 as [|c1 b1 cs1 m1' Hb1 Hrest1]; subst.
    inversion H2 as [|c2 b2 cs2 m2' Hb2 Hrest2]; subst.
    simpl. destruct b1, b2; simpl; auto.
    constructor; auto. now apply compare_cell_between.
Qed.

Lemma filter_year_between (lo hi : Z) (h : heap) (cur : ref) (d : DataFrame)
    (k : nat) (r' : ref) (h' : heap) :
  h !! cur = Some d -> col_index "year" (columns d) = Some k ->
  filter_year (Some (lo, hi)) cur h = Ok (r', h') ->
  exists d', h' !! r' = Some d' /\ Forall (year_between k lo hi) (rows d').
Proof.
  intros Hcur Hk. unfold filter_year. py_run Hcur.
  unfold has_column, getitem. rewrite Hk. simpl.
  unfold series_ge, series_le. simpl.
  destruct (mapM (compare_cell fge (of_Z lo)) (map (cell_at k) (rows d)))
    as [m1|] eqn:H1; [|discriminate].
  destruct (mapM (compare_cell fle (of_Z hi)) (map (cell_at k) (rows d)))
    as [m2|] eqn:H2; [|discriminate].
  simpl. intros [= <- <-].
  eexists. split; [apply py_new_spec|]. simpl.
  apply select_year_between; now apply mapM_result_Forall2.
Qed.

Lemma df_empty_rows (d : DataFrame) (k : nat) (name : string) :
  df_empty d = true -> col_index name (columns d) = Some k -> rows d = [].
Proof.
  unfold df_empty. destruct (columns d); [discriminate|].
  destruct (rows d); [reflexivity | discriminate].
Qed.

(** C5.  With [year_range = (a, b)], every row of [filter_data(D, ...)] has a
    year [y] with [a <= y <= b], whatever the other filters are: the range
    is inclusive at both ends. *)
Theorem filter_data_year_range_inclusive (h : heap) (r : ref) (d : DataFrame) (k : nat)
    (a b : Z) (states countries : option (list string))
    (area_type : option string) (indicators : option (list string))
    (out : option ref) (h' : heap) :
  h !! r = Some d ->
  col_index "year" (columns d) = Some k ->
  filter_data (Some r) (Some (a, b)) states countries area_type indicators h = Ok (out, h') ->
  exists r' d',
    out = Some r' /\ h' !! r' = Some d'
    /\ col_index "year" (columns d') = Some k
    /\ Forall (year_between k a b) (rows d').
Proof.
  intros Hr Hk Hrun.
  destruct (df_empty d) eqn:Hempty.
  - unfold filter_data in Hrun.
    apply py_bind_Ok in Hrun as (d0 & h0 & Hderef & Hrun).
    unfold py_deref in Hderef. rewrite Hr in Hderef. injection Hderef as <- <-.
    rewrite Hempty in Hrun. injection Hrun as <- <-.
    exists r, d. repeat split; auto.
    rewrite (df_empty_rows _ _ _ Hempty Hk). constructor.
  - destruct (filter_data_run _ _ _ _ _ _ _ _ _ _ Hr Hempty Hrun)
      as (r1 & h1 & d1 & r' & d' & Hyear & Hd1 & Hk1 & -> & Hd' & Hk' & _).
    assert (Hc : (h ++ [d]) !! length h = Some d) by apply py_new_spec.
    destruct (filter_year_between _ _ _ _ _ _ _ _ Hc Hk Hyear) as (d1' & Hd1' & Hall).
    assert (d1' = d1) by congruence. subst d1'.
    exists r', d'. repeat split; auto.
    + destruct Hk1 as [Hc1 _], Hk' as [Hc' _]. congruence.
    + eapply Forall_sublist_of; [apply Hk'|done].
Qed.

(** C10.  [filter_data] only selects rows: the frame it returns has the
    columns of the input and a sub-sequence of its rows, cell for cell; every
    object of the store, the input among them, is left as it was; and unless
    the input is empty (it is then handed back itself) the result is a new
    object. *)
Theorem filter_data_only_selects (h : heap) (r : ref) (d : DataFrame)
    (year_range : option (Z * Z)) (states countries : option (list string))
    (area_type : option string) (indicators : option (list string))
    (out : option ref) (h' : heap) :
  h !! r = Some d ->
  filter_data (Some r) year_range states countries area_type indicators h = Ok (out, h') ->
  exists r' d',
    out = Some r' /\ h' !! r' = Some d'
    /\ columns d' = columns d
    /\ rows d' `sublist_of` rows d
    /\ (forall l x, h !! l = Some x -> h' !! l = Some x)
    /\ (df_empty d = false -> r' <> r).
Proof.
  intros Hr Hrun.
  destruct (df_empty d) eqn:Hempty.
  - unfold filter_data in Hrun.
    apply py_bind_Ok in Hrun as (d0 & h0 & Hderef & Hrun).
    unfold py_deref in Hderef. rewrite Hr in Hderef. injection Hderef as <- <-.
    rewrite Hempty in Hrun. injection Hrun as <- <-.
    exists r, d. repeat split; auto.
  - destruct (filter_data_run _ _ _ _ _ _ _ _ _ _ Hr Hempty Hrun)
      as (r1 & h1 & d1 & r' & d' & _ & _ & Hk1 & -> & Hd' & Hk' & Hext & Hfresh).
    destruct (kept_trans _ _ _ Hk1 Hk') as [Hcols Hrows].
    exists r', d'. repeat split; auto.
    + intros l x Hl. eapply extends_lookup; eauto.
    + intros _ ->. apply lookup_lt_Some in Hr. lia.
Qed.

Lemma example_filter_run :
  filter_data (Some 0%nat) (Some (2001, 2003)%Z) (Some ["Goa"%string]) None
              (Some "All"%string) None [example_frame]
  = Ok (Some 3%nat, example_heap).
Proof. reflexivity. Qed.

Lemma filter_data_year_range_witness :
  exists r' d',
    Some 3%nat = Some r' /\ example_heap !! r' = Some d'
    /\ col_index "year" (columns d') = Some 1%nat
    /\ Forall (year_between 1 2001 2003) (rows d').
Proof.
  apply (filter_data_year_range_inclusive [example_frame] 0%nat example_frame 1%nat
           2001 2003 (Some ["Goa"%string]) None (Some "All"%string) None
           (Some 3%nat) example_heap);
    reflexivity.
Defined.

Lemma filter_data_only_selects_witness :
  exists r' d',
    Some 3%nat = Some r' /\ example_heap !! r' = Some d'
    /\ columns d' = columns example_frame
    /\ rows d' `sublist_of` rows example_frame
    /\ (forall l x, [example_frame] !! l = Some x -> example_heap !! l = Some x)
    /\ (df_empty example_frame = false -> r' <> 0%nat).
Proof.
  apply (filter_data_only_selects [example_frame] 0%nat example_frame
           (Some (2001, 2003)%Z) (Some ["Goa"%string]) None (Some "All"%string) None
           (Some 3%nat) example_heap);
    reflexivity.
Defined.

(** ** clean_data *)

(** The first pass: the quartiles of the values are 0 and 3/4, the fence is
    [-9/4, 3], and the row of value 10 goes. *)
Lemma outlier_frame_first_pass {mode : PandasMode} :
  exists lo hi,
    (v ← getitem outlier_frame "value"; value_fence v) = Ok (lo, hi)
    /\ feq lo (Fin (- (9 # 4))) /\ feq hi (Fin 3)
    /\ row_count (clean_data (Some outlier_frame)) = Some 5%nat.
Proof.
  do 2 eexists. split; [vm_compute; reflexivity|].
  split; [reflexivity|]. split; [reflexivity|]. vm_compute. reflexivity.
Qed.



(** Where the fill takes effect, it can also create duplicates that only a
    second pass drops. *)
Lemma clean_data_imputed_duplicate :
  let d := {| columns := [("value"%string, Number)];
              rows := [[CNum (Fin 5)]; [CNum NaN]] |} in
  row_count (@clean_data pandas_2 (Some d)) = Some 2%nat
  /\ row_count (@clean_data pandas_2 (Some d) ≫= @clean_data pandas_2) = Some 1%nat.
Proof. split; vm_compute; reflexivity. Qed.

Lemma fsame_sym (x y : fl) : fsame x y = fsame y x.
Proof.
  destruct x as [a| | |], y as [b| | |]; simpl; try reflexivity.
  destruct (Qeq_bool a b) eqn:Hab, (Qeq_bool b a) eqn:Hba; try reflexivity.
  - apply Qeq_bool_iff in Hab. symmetry in Hab. apply Qeq_bool_iff in Hab. congruence.
  - apply Qeq_bool_iff in Hba. symmetry in Hba. apply Qeq_bool_iff in Hba. congruence.
Qed.

Lemma cell_same_sym (c1 c2 : cell) : cell_same c1 c2 = cell_same c2 c1.
Proof.
  destruct c1 as [x|[a|]], c2 as [y|[b|]]; simpl; try reflexivity.
  - apply fsame_sym.
  - apply String.eqb_sym.
Qed.

Lemma row_same_sym (r1 r2 : row) : row_same r1 r2 = row_same r2 r1.
Proof.
  revert r2. induction r1 as [|c1 r1 IH]; intros [|c2 r2]; simpl; try reflexivity.
  now rewrite cell_same_sym, IH.
Qed.

Lemma dedup_distinct (seen rs : list row) :
  distinct_rows rs = true ->
  Forall (fun r => existsb (row_same r) seen = false) rs ->
  dedup seen rs = rs.
Proof.
  revert seen. induction rs as [|r rs IH]; intros seen Hd Hseen; simpl; [reflexivity|].
  simpl in Hd. apply andb_prop in Hd as [Hr Hd].
  inversion Hseen as [|? ? Hr_seen Hrest]; subst.
  rewrite Hr_seen. f_equal. apply IH; [exact Hd|].
  apply negb_true_iff in Hr.
  rewrite Forall_forall in Hrest. apply Forall_forall. intros r' Hin.
  simpl. rewrite (Hrest r' Hin), orb_false_r.
  rewrite row_same_sym.
  destruct (row_same r r') eqn:Hsame; [|reflexivity].
  assert (existsb (row_same r) rs = true); [|congruence].
  apply existsb_exists. exists r'. split; [now apply list_elem_of_In|exact Hsame].
Qed.

Lemma frame_eta (d : DataFrame) : {| columns := columns d; rows := rows d |} = d.
Proof. now destruct d. Qed.

Lemma drop_duplicates_distinct (d : DataFrame) :
  distinct_rows (rows d) = true -> drop_duplicates d = d.
Proof.
  intros Hd. unfold drop_duplicates. rewrite dedup_distinct; auto using frame_eta.
  apply Forall_forall. reflexivity.
Qed.

Lemma positions_of_lt (t : dtype) (d : DataFrame) (k : nat) :
  In k (positions_of t d) -> (k < length (columns d))%nat.
Proof.
  unfold positions_of. intros Hin.
  apply in_map_iff in Hin as ([k' c] & <- & Hin).
  apply filter_In in Hin as [Hin _].
  apply list_elem_of_In, elem_of_zip_l in Hin. simpl.
  apply list_elem_of_In, in_seq in Hin. lia.
Qed.

Lemma complete_no_null (d : DataFrame) (k : nat) :
  rectangular d = true -> complete d = true -> (k < length (columns d))%nat ->
  any_null k d = false.
Proof.
  unfold rectangular, complete, any_null. intros Hrect Hfull Hk.
  rewrite forallb_forall in Hrect, Hfull.
  apply not_true_is_false. intros Hex.
  apply existsb_exists in Hex as (r & Hin & Hnull).
  specialize (Hrect r Hin). apply Nat.eqb_eq in Hrect.
  specialize (Hfull r Hin). rewrite forallb_forall in Hfull.
  assert (Hcell : In (cell_at k r) r) by (apply nth_In; lia).
  specialize (Hfull _ Hcell). rewrite Hnull in Hfull. discriminate.
Qed.

Lemma impute_nothing (step : DataFrame -> nat -> DataFrame) (d : DataFrame) (ks : list nat) :
  Forall (fun k => step d k = d) ks -> foldl step d ks = d.
Proof.
  induction 1 as [|k ks Hk _ IH]; simpl; [reflexivity|]. now rewrite Hk.
Qed.






Lemma example_cleaned_rows :
  map (fun r => cell_at 0 r) (rows example_cleaned)
  = [CObj (Some "Goa"); CObj (Some "Goa"); CObj (Some "Kerala"); CObj (Some "Goa");
     CObj (Some "Unknown"); CObj (Some "Goa")]%string
  /\ Forall2 (fun c y => exists x, c = CNum x /\ feq x (of_Z y))
       (map (fun r => cell_at 1 r) (rows example_cleaned))
       [2000; 2001; 2002; 2003; 2002; 2004]%Z.
Proof.
  split; [reflexivity|].
  repeat constructor; eexists; (split; [reflexivity|reflexivity]).
Qed.


(** ** Summary statistics *)

Lemma finite_inv (x : fl) : finite x -> exists q, x = Fin q.
Proof. destruct x; try discriminate. eauto. Qed.

Lemma all_finite_map (l : list fl) : Forall finite l -> exists qs, l = map Fin qs.
Proof.
  induction 1 as [|x l (q & ->)%finite_inv _ (qs & ->)].
  - now exists [].
  - now exists (q :: qs).
Qed.

Lemma foldl_fadd_fin (a : Q) (qs : list Q) :
  foldl fadd (Fin a) (map Fin qs) = Fin (foldl Qplus a qs).
Proof. revert a. induction qs as [|q qs IH]; intros a; simpl; auto. Qed.

Lemma count_nonzero (n : nat) : (0 < n)%nat -> Qeq_bool (inject_Z (Z.of_nat n)) 0 = false.
Proof.
  intros Hn. apply not_true_is_false. intros Heq%Qeq_bool_iff.
  unfold Qeq in Heq. simpl in Heq. lia.
Qed.

Lemma count_positive (n : nat) : (0 < n)%nat -> 0 < inject_Z (Z.of_nat n).
Proof. intros Hn. unfold Qlt. simpl. lia. Qed.

Lemma np_mean_fin (qs : list Q) :
  qs <> [] ->
  np_mean (map Fin qs)
  = Fin (foldl Qplus 0 qs / inject_Z (Z.of_nat (length qs))).
Proof.
  intros Hne. unfold np_mean, np_sum. rewrite foldl_fadd_fin, length_map.
  unfold of_nat. simpl. rewrite count_nonzero; [reflexivity|].
  destruct qs; [congruence | simpl; lia].
Qed.

(** Sums of rationals, up to [==]. *)
Lemma foldl_Qplus_shift (a : Q) (qs : list Q) :
  foldl Qplus a qs == a + foldl Qplus 0 qs.
Proof.
  revert a. induction qs as [|q qs IH]; intros a; simpl.
  - ring.
  - rewrite IH, (IH (0 + q)). ring.
Qed.

Lemma foldl_Qplus_nonneg (qs : list Q) :
  Forall (fun q => 0 <= q) qs -> 0 <= foldl Qplus 0 qs.
Proof.
  induction 1 as [|q qs Hq _ IH]; simpl; [apply Qle_refl|].
  rewrite foldl_Qplus_shift. lra.
Qed.


Lemma mean_value (qs : list Q) :
  qs <> [] ->
  exists m, np_mean (map Fin qs) = Fin m
            /\ m == foldl Qplus 0 qs / inject_Z (Z.of_nat (length qs)).
Proof. intros Hne. eexists. split; [now apply np_mean_fin | reflexivity]. Qed.


Lemma Qsquare_nonneg (t : Q) : 0 <= t * t.
Proof. nra. Qed.

Lemma deviations_fin (m : Q) (qs : list Q) :
  map (fun x => ((x - Fin m) * (x - Fin m))%fl) (map Fin qs) = map Fin (squares m qs).
Proof. unfold squares. rewrite !map_map. reflexivity. Qed.

Lemma var_value (qs : list Q) :
  qs <> [] ->
  exists m s, np_mean (map Fin qs) = Fin m
              /\ np_var (map Fin qs) = Fin s
              /\ s == foldl Qplus 0 (squares m qs) / inject_Z (Z.of_nat (length qs)).
Proof.
  intros Hne. destruct (mean_value qs Hne) as (m & Hm & _).
  exists m. eexists. split; [exact Hm|].
  unfold np_var. rewrite Hm, deviations_fin.
  assert (Hsq : squares m qs <> []) by (destruct qs; [congruence | discriminate]).
  rewrite (np_mean_fin _ Hsq). unfold squares at 2. rewrite length_map.
  split; reflexivity.
Qed.

Lemma var_nonneg (qs : list Q) :
  qs <> [] -> exists s, np_var (map Fin qs) = Fin s /\ 0 <= s.
Proof.
  intros Hne. destruct (var_value qs Hne) as (m & s & _ & Hs & Heq).
  exists s. split; [exact Hs|]. rewrite Heq.
  apply Qle_shift_div_l.
  - apply count_positive. destruct qs; [congruence | simpl; lia].
  - rewrite Qmult_0_l. apply foldl_Qplus_nonneg.
    unfold squares. apply Forall_forall. intros q (x & <- & _)%list_elem_of_In%in_map_iff.
    apply Qsquare_nonneg.
Qed.


Lemma valued_finite (R : Q -> Prop) (x : fl) : valued R x -> finite x.
Proof. now intros (q & -> & _). Qed.

Lemma valued_map (R : Q -> Prop) (l : list fl) :
  Forall (valued R) l -> exists qs, l = map Fin qs /\ Forall R qs.
Proof.
  induction 1 as [|x l (q & -> & Hq) _ (qs & -> & Hqs)].
  - exists []. auto.
  - exists (q :: qs). auto.
Qed.

Lemma valued_no_nan (R : Q -> Prop) (l : list fl) :
  Forall (valued R) l -> existsb isnan l = false.
Proof.
  induction 1 as [|x l (q & -> & _) _ IH]; simpl; auto.
Qed.

Lemma insert_sorted_Forall (P : fl -> Prop) (x : fl) (s : list fl) :
  P x -> Forall P s -> Forall P (insert_sorted x s).
Proof.
  intros Hx. induction 1 as [|y s Hy Hs IH]; simpl.
  - auto.
  - destruct (sort_le x y); auto.
Qed.

Lemma np_sort_Forall (P : fl -> Prop) (a : list fl) :
  Forall P a -> Forall P (np_sort a).
Proof.
  unfold np_sort. induction 1; simpl; auto using insert_sorted_Forall.
Qed.

Lemma insert_sorted_length (x : fl) (s : list fl) :
  length (insert_sorted x s) = S (length s).
Proof.
  induction s as [|y s IH]; simpl; [reflexivity|].
  destruct (sort_le x y); simpl; auto.
Qed.

Lemma np_sort_length (a : list fl) : length (np_sort a) = length a.
Proof.
  unfold np_sort. induction a; simpl; [reflexivity|].
  now rewrite insert_sorted_length, IHa.
Qed.

Lemma item_Forall (P : fl -> Prop) (s : list fl) (i : nat) :
  Forall P s -> (i < length s)%nat -> P (item s i).
Proof.
  intros Hall Hi. rewrite Forall_forall in Hall. apply Hall.
  apply list_elem_of_In, nth_In, Hi.
Qed.

Lemma convex_any : convex (fun _ => True).
Proof. split; auto. Qed.


Lemma median_valued (R : Q -> Prop) (l : list fl) :
  convex R -> l <> [] -> Forall (valued R) l -> valued R (np_median l).
Proof.
  intros HR Hne Hall. unfold np_median.
  rewrite (valued_no_nan R l Hall).
  assert (Hlen : (0 < length l)%nat) by (destruct l; [congruence | simpl; lia]).
  destruct (Nat.eqb_spec (length l) 0) as [|_]; [lia|].
  pose proof (np_sort_Forall _ _ Hall) as Hs.
  pose proof (np_sort_length l) as Hsl.
  assert (Hhalf : (length l / 2 < length l)%nat) by (apply Nat.div_lt; lia).
  destruct (Nat.odd (length l)).
  - apply item_Forall; [exact Hs | lia].
  - destruct (item_Forall _ _ (length l / 2 - 1) Hs) as (a & -> & Ha); [lia|].
    destruct (item_Forall _ _ (length l / 2) Hs) as (b & -> & Hb); [lia|].
    change [Fin a; Fin b] with (map Fin [a; b]).
    rewrite np_mean_fin by discriminate. simpl.
    eexists. split; [reflexivity|]. now apply convex_mid.
Qed.

Lemma lerp_valued (R : Q -> Prop) (x y : fl) (t : Q) :
  convex R -> valued R x -> valued R y -> valued R (lerp x y t).
Proof.
  intros HR (a & -> & Ha) (b & -> & Hb). unfold lerp. simpl.
  destruct (Qle_bool (1 # 2) t); eexists; (split; [reflexivity|]).
  - now apply convex_down.
  - now apply convex_up.
Qed.

Lemma virtual_index_bound (n : nat) (q : Q) :
  (0 < n)%nat -> 0 <= q <= 1 ->
  (Z.to_nat (Qfloor (inject_Z (Z.of_nat (n - 1)) * q)) <= n - 1)%nat.
Proof.
  intros Hn [Hq0 Hq1].
  assert (Hk : 0 <= inject_Z (Z.of_nat (n - 1))).
  { change 0 with (inject_Z 0). rewrite <- Zle_Qle. lia. }
  assert (Hh : inject_Z (Z.of_nat (n - 1)) * q <= inject_Z (Z.of_nat (n - 1))) by nra.
  apply Qfloor_resp_le in Hh. rewrite Qfloor_Z in Hh. lia.
Qed.

Lemma quantile_valued (R : Q -> Prop) (l : list fl) (q : Q) :
  convex R -> 0 <= q <= 1 -> l <> [] -> Forall (valued R) l ->
  valued R (np_quantile l q).
Proof.
  intros HR Hq Hne Hall. unfold np_quantile.
  rewrite (valued_no_nan R l Hall).
  assert (Hlen : (0 < length l)%nat) by (destruct l; [congruence | simpl; lia]).
  destruct (Nat.eqb_spec (length l) 0) as [|_]; [lia|].
  pose proof (np_sort_Forall _ _ Hall) as Hs.
  pose proof (np_sort_length l) as Hsl.
  pose proof (virtual_index_bound (length l) q Hlen Hq) as Hi.
  apply lerp_valued; [exact HR | |]; apply item_Forall; auto; lia.
Qed.

Lemma fmin_valued (R : Q -> Prop) (x y : fl) :
  valued R x -> valued R y -> valued R (fmin x y).
Proof.
  intros (a & -> & Ha) (b & -> & Hb). unfold fmin. simpl.
  destruct (Qle_bool a b); eexists; eauto.
Qed.

Lemma fmax_valued (R : Q -> Prop) (x y : fl) :
  valued R x -> valued R y -> valued R (fmax x y).
Proof.
  intros (a & -> & Ha) (b & -> & Hb). unfold fmax. simpl.
  destruct (Qle_bool a b); eexists; eauto.
Qed.

Lemma foldl_valued (R : Q -> Prop) (op : fl -> fl -> fl) (x : fl) (l : list fl) :
  (forall a b, valued R a -> valued R b -> valued R (op a b)) ->
  valued R x -> Forall (valued R) l -> valued R (foldl op x l).
Proof.
  intros Hop Hx Hall. revert x Hx.
  induction Hall as [|y l Hy _ IH]; intros x Hx; simpl; auto.
Qed.

Section Summary.
Context {libm : Libm} {scipy : SciPy}.

Lemma summary_empty (data : stats_arg) :
  observations data = [] -> get_summary_statistics data = Ok [].
Proof.
  unfold get_summary_statistics, observations. cbv zeta. intros ->. reflexivity.
Qed.

Lemma summary_nonempty (data : stats_arg) (x : fl) (l : list fl) :
  observations data = x :: l ->
  let obs := x :: l in
  let lo := foldl fmin x l in
  let hi := foldl fmax x l in
  get_summary_statistics data
  = Ok [ ("count", of_nat (length obs));
         ("mean", np_mean obs);
         ("median", np_median obs);
         ("std", np_std obs);
         ("variance", np_var obs);
         ("min", lo);
         ("max", hi);
         ("range", (hi - lo)%fl);
         ("q25", np_percentile obs 25);
         ("q50", np_percentile obs 50);
         ("q75", np_percentile obs 75);
         ("iqr", (np_percentile obs 75 - np_percentile obs 25)%fl);
         ("skewness", scipy_skew obs);
         ("kurtosis", scipy_kurtosis obs) ]%string.
Proof.
  unfold get_summary_statistics, observations. cbv zeta. intros ->. reflexivity.
Qed.

(** The record is empty or has all fourteen entries, and the call returns. *)
Lemma summary_empty_or_complete (data : stats_arg) :
  exists d, get_summary_statistics data = Ok d
            /\ (observations data = [] /\ d = []
                \/ observations data <> [] /\ keys d = summary_keys).
Proof.
  destruct (observations data) as [|x l] eqn:Hobs.
  - exists []. split; [now apply summary_empty | now left].
  - eexists. split; [apply (summary_nonempty _ _ _ Hobs)|].
    right. split; [discriminate | reflexivity].
Qed.



Lemma percent_bounds (p : Q) : 0 <= p <= 100 -> 0 <= p / 100 <= 1.
Proof.
  intros [Hlo Hhi]. split.
  - apply Qle_shift_div_l; lra.
  - apply Qle_shift_div_r; lra.
Qed.




Lemma finite_valued (x : fl) : finite x -> valued (fun _ => True) x.
Proof. intros (q & ->)%finite_inv. now exists q. Qed.






(** Whatever the libraries, an infinite observation gives a [NaN] range: the
    maximum and the minimum are both [+inf]. *)
Lemma summary_range_of_infinity :
  exists d, get_summary_statistics (OfSeries [PInf]) = Ok d
            /\ dict_get d "range" = Some NaN
            /\ dict_get d "variance" = Some NaN
            /\ dict_get d "iqr" = Some NaN.
Proof.
  eexists. split; [apply (summary_nonempty (OfSeries [PInf]) PInf []); reflexivity|].
  repeat split; reflexivity.
Qed.

End Summary.



(** ** Regression and model training *)

Lemma finite_fadd (x y : fl) : finite (x + y)%fl -> finite x /\ finite y.
Proof. destruct x, y; simpl; try discriminate; split; reflexivity. Qed.

Lemma finite_foldl_fadd (a : fl) (l : list fl) :
  finite (foldl fadd a l) -> finite a /\ Forall finite l.
Proof.
  revert a. induction l as [|x l IH]; intros a; simpl.
  - auto.
  - intros [[Ha Hx]%finite_fadd Hl]%IH. auto.
Qed.

Lemma finite_fdiv_l (x y : fl) : finite (x / y)%fl -> finite x.
Proof.
  destruct x as [a| | |]; [intros _; reflexivity | | |];
    destruct y as [b| | |]; simpl; try discriminate;
    unfold Qlt_bool; destruct (Qle_bool 0 b); discriminate.
Qed.

Lemma finite_fmul_fin (x : fl) (q : Q) : finite (x * Fin q)%fl -> finite x.
Proof.
  destruct x as [a| | |]; [intros _; reflexivity | | |]; simpl; try discriminate;
    destruct (Qeq_bool q 0), (Qle_bool 0 q); discriminate.
Qed.

Lemma finite_fabs (x : fl) : finite (fabs x) -> finite x.
Proof. destruct x; simpl; try discriminate; reflexivity. Qed.

(** Nothing divided by zero is finite. *)
Lemma fdiv_zero_not_finite (x : fl) (q : Q) : q == 0 -> ~ finite (x / Fin q)%fl.
Proof.
  intros Hq%Qeq_bool_iff. destruct x as [a| | |]; simpl; try discriminate.
  - rewrite Hq. destruct (Qeq_bool a 0); [discriminate|].
    destruct (Qle_bool 0 a); discriminate.
  - unfold Qlt_bool. destruct (Qle_bool 0 q); discriminate.
  - unfold Qlt_bool. destruct (Qle_bool 0 q); discriminate.
Qed.

Section Models.
Context {libm : Libm} {sklearn : Sklearn}.

(** *** The adjusted R² *)

(** With [n - p - 1 = 0] the formula divides by zero: a Python float raises,
    a numpy scalar gives an infinity or [NaN]. *)
Lemma adjusted_r2_zero_denominator (r2 : fl) (n p : Z) :
  (n - p - 1 = 0)%Z ->
  adjusted_r2_formula r2 n p = Raise ZeroDivisionError
  \/ exists v, adjusted_r2_formula r2 n p = Ok v /\ is_finite v = false.
Proof.
  intros Hz. unfold adjusted_r2_formula, scalar_truediv. rewrite Hz.
  destruct metrics_are_numpy_scalars; [right | now left].
  exists (of_Z 1 - (of_Z 1 - r2) * of_Z (n - 1) / of_Z 0)%fl.
  split; [reflexivity|].
  apply not_true_is_false. intros Hfin.
  unfold fsub at 1 in Hfin. apply finite_fadd in Hfin as [_ Hfin].
  assert (Hdiv : finite ((of_Z 1 - r2) * of_Z (n - 1) / of_Z 0)%fl).
  { destruct ((of_Z 1 - r2) * of_Z (n - 1) / of_Z 0)%fl; try discriminate; reflexivity. }
  now apply (fdiv_zero_not_finite _ (inject_Z 0)) in Hdiv.
Qed.

(** A negative denominator is not guarded either: the formula is applied as
    it stands (with two rows, two columns and [R² = 1/2] it gives [3/2]). *)
Lemma adjusted_r2_negative_denominator :
  exists v, adjusted_r2_formula (Fin (1 # 2)) 2 2 = Ok v /\ feq v (Fin (3 # 2)).
Proof.
  unfold adjusted_r2_formula, scalar_truediv.
  destruct metrics_are_numpy_scalars; (eexists; split; [reflexivity|]); reflexivity.
Qed.


Lemma perform_regression_fitted (X : x_arg) (y : y_arg) (mask : list bool)
    (m : fitted) (y_pred : list fl) (r2v msev maev : fl) :
  nan_mask (as_matrix X) (as_vector y) = Ok mask ->
  mrows (complete_rows X mask) <> [] -> complete_targets y mask <> [] ->
  fit LinearRegression (complete_rows X mask) (complete_targets y mask) = Ok m ->
  predict m (complete_rows X mask) = Ok y_pred ->
  r2_score (complete_targets y mask) y_pred = Ok r2v ->
  mean_squared_error (complete_targets y mask) y_pred = Ok msev ->
  mean_absolute_error (complete_targets y mask) y_pred = Ok maev ->
  perform_regression X y
  = (adjusted ← adjusted_r2_formula r2v
                  (Z.of_nat (length (complete_targets y mask)))
                  (Z.of_nat (ncols (complete_rows X mask)));
     mret {| coefficients := coef_ m; intercept := intercept_ m; r2 := r2v;
             adjusted_r2 := adjusted; rmse := np_sqrt msev; mae := maev;
             model := Some m |}).
Proof.
  intros Hmask HX Hy Hfit Hpred Hr2 Hmse Hmae.
  unfold perform_regression. cbv zeta. rewrite Hmask.
  unfold complete_rows, complete_targets in *. simpl in HX, Hy.
  cbn [mbind result_bind mrows].
  destruct (select (mrows (as_matrix X)) mask) eqn:EX; [congruence|].
  destruct (select (as_vector y) mask) eqn:Ey; [congruence|].
  cbn [length Nat.eqb orb].
  rewrite Hfit. cbn [mbind result_bind]. rewrite Hpred. cbn [mbind result_bind].
  rewrite Hr2. cbn [mbind result_bind ncols].
  destruct (adjusted_r2_formula _ _ _) as [adj|e]; [|reflexivity].
  cbn [mbind result_bind]. rewrite Hmse. cbn [mbind result_bind].
  rewrite Hmae. reflexivity.
Qed.

(** C1.  With [n - p - 1 = 0] after the rows with missing values are dropped,
    [perform_regression] does not return a sentinel: it raises
    [ZeroDivisionError], or it returns an adjusted R² that is an infinity or
    [NaN]. *)
Theorem perform_regression_adjusted_r2_unguarded (X : x_arg) (y : y_arg) (mask : list bool)
    (m : fitted) (y_pred : list fl) (r2v msev maev : fl) :
  nan_mask (as_matrix X) (as_vector y) = Ok mask ->
  mrows (complete_rows X mask) <> [] -> complete_targets y mask <> [] ->
  fit LinearRegression (complete_rows X mask) (complete_targets y mask) = Ok m ->
  predict m (complete_rows X mask) = Ok y_pred ->
  r2_score (complete_targets y mask) y_pred = Ok r2v ->
  mean_squared_error (complete_targets y mask) y_pred = Ok msev ->
  mean_absolute_error (complete_targets y mask) y_pred = Ok maev ->
  (Z.of_nat (length (complete_targets y mask))
   - Z.of_nat (ncols (complete_rows X mask)) - 1 = 0)%Z ->
  perform_regression X y = Raise ZeroDivisionError
  \/ exists r, perform_regression X y = Ok r /\ is_finite (adjusted_r2 r) = false.
Proof.
  intros Hmask HX Hy Hfit Hpred Hr2 Hmse Hmae Hzero.
  rewrite (perform_regression_fitted X y mask m y_pred r2v msev maev) by assumption.
  destruct (adjusted_r2_zero_denominator r2v _ _ Hzero) as [-> | (v & -> & Hv)].
  - now left.
  - right. eexists. split; [reflexivity|]. exact Hv.
Qed.

(** *** Empty input *)



(** *** The model type *)



(** The same fall-back in [cross_validate_model]. *)
Lemma cross_validate_unknown_type_is_linear (data : DataFrame) (target : string)
    (features : list string) (model_type : string) (cv : Z) :
  ~ In model_type ML_MODELS ->
  cross_validate_model data target features model_type cv
  = cross_validate_model data target features "Linear Regression" cv.
Proof.
  intros Hnot. unfold cross_validate_model.
  assert (Hsel : select_cv_model model_type = LinearRegression).
  { unfold select_cv_model.
    destruct (String.eqb_spec model_type "Linear Regression") as [->|_]; [reflexivity|].
    destruct (String.eqb_spec model_type "Random Forest") as [->|_].
    { exfalso. apply Hnot. simpl. auto. }
    destruct (String.eqb_spec model_type "Gradient Boosting") as [->|_].
    { exfalso. apply Hnot. simpl. auto. }
    reflexivity. }
  now rewrite Hsel.
Qed.

(** *** MAPE *)

Lemma zip_with_In_r {A B C} (op : A -> B -> C) (a : list A) (b : list B) (y : B) :
  length a = length b -> In y b -> exists x, In (op x y) (zip_with op a b).
Proof.
  revert b. induction a as [|x a IH]; intros [|y' b]; simpl; try discriminate; try tauto.
  intros [= Hlen] [<- | Hin].
  - exists x. now left.
  - destruct (IH b Hlen Hin) as (x' & Hx'). exists x'. now right.
Qed.

Lemma mape_not_finite (y_true y_pred : list fl) (q : Q) :
  length y_true = length y_pred -> In (Fin q) y_true -> q == 0 ->
  is_finite (np_mean (map fabs (zip_with fdiv (zip_with fsub y_true y_pred) y_true))
             * of_Z 100)%fl = false.
Proof.
  intros Hlen Hin Hq. apply not_true_is_false. intros Hfin.
  apply finite_fmul_fin, finite_fdiv_l, finite_foldl_fadd in Hfin as [_ Hall].
  destruct (zip_with_In_r fdiv (zip_with fsub y_true y_pred) y_true (Fin q))
    as (x & Hx); [|exact Hin|].
  { rewrite length_zip_with. lia. }
  rewrite Forall_forall in Hall.
  apply (fdiv_zero_not_finite x q Hq), finite_fabs, Hall.
  apply list_elem_of_In, in_map, Hx.
Qed.

(** C3.  A true value of 0 is divided by as it is: whenever
    [evaluate_model] returns, its MAPE is an infinity or [NaN], not a
    sentinel. *)
Theorem evaluate_model_mape_unguarded (y_true y_pred : list fl) (q : Q) (d : dict) :
  length y_true = length y_pred ->
  In (Fin q) y_true -> q == 0 ->
  evaluate_model y_true y_pred = Ok d ->
  exists x, dict_get d "mape" = Some x /\ is_finite x = false.
Proof.
  intros Hlen Hin Hq. unfold evaluate_model, elementwise.
  destruct (r2_score y_true y_pred) as [r2v|]; [|discriminate].
  destruct (mean_squared_error y_true y_pred) as [msev|]; [|discriminate].
  destruct (mean_absolute_error y_true y_pred) as [maev|]; [|discriminate].
  cbn [mbind result_bind]. rewrite Hlen, Nat.eqb_refl. cbn [mbind result_bind].
  rewrite length_zip_with, <- Hlen, Nat.min_id, Nat.eqb_refl. cbn [mbind result_bind].
  intros [= <-]. eexists. split; [reflexivity|].
  now apply (mape_not_finite y_true y_pred q).
Qed.

(** *** Forecasts *)

Lemma zip_with_map_r {A B C} (g : A -> B -> C) (h : A -> B) (l : list A) :
  zip_with g l (map h l) = map (fun x => g x (h x)) l.
Proof. induction l; simpl; congruence. Qed.

Lemma arange_length (start stop : Q) (n : Z) :
  stop - start == inject_Z n -> length (arange start stop) = Z.to_nat n.
Proof.
  intros Hn. unfold arange. rewrite length_map, length_seq, Hn. now rewrite Qceiling_Z.
Qed.

Lemma in_int64_years (z : Z) :
  (- 9007199254740992 <= z)%Z -> (z <= 9007199254740992)%Z -> in_int64 z = true.
Proof.
  intros Hlo Hhi. unfold in_int64, int64_min, int64_max.
  change (2 ^ 63)%Z with 9223372036854775808%Z.
  apply andb_true_iff. rewrite !Z.leb_le. lia.
Qed.

Lemma int64_wrap_small (z : Z) : in_int64 z = true -> int64_wrap z = z.
Proof.
  unfold in_int64, int64_wrap, int64_min, int64_max.
  change (2 ^ 63)%Z with 9223372036854775808%Z.
  change (2 ^ 64)%Z with 18446744073709551616%Z.
  intros [Hlo Hhi]%andb_true_iff. apply Z.leb_le in Hlo, Hhi.
  rewrite Z.mod_small by lia. lia.
Qed.

(** Within the int64 range the sum is the sum. *)
Lemma scalar_add_exact (x : Q) (z k : Z) :
  x == inject_Z z ->
  in_int64 z = true -> in_int64 k = true -> in_int64 (z + k) = true ->
  scalar_add x k = Ok (inject_Z (z + k)).
Proof.
  intros Hx Hz Hk Hsum. unfold scalar_add, is_int64.
  assert (Hfloor : Qfloor x = z) by (rewrite (Qfloor_comp _ _ Hx); apply Qfloor_Z).
  assert (Hwhole : Qeq_bool x (inject_Z z) = true) by now apply Qeq_bool_iff.
  rewrite Hfloor, Hwhole, Hz, Hk. cbn [andb]. now rewrite int64_wrap_small.
Qed.

(** C8, amended.  For a model fitted on the single feature [year] and a
    history whose last year [L] and last forecast year stay within the whole
    numbers that int64 and float64 both add exactly (magnitude at most
    2^53), [predict_future] returns exactly [N] rows; row [i] (from 0) holds
    the year [L + 1 + i] and the model's prediction for that year. *)
Theorem predict_future_years (m : fitted) (d : DataFrame) (L N : Z) (last : Q) :
  n_features_in_ m = 1%nat ->
  df_empty d = false ->
  getitem d "year" ≫= series_max = Ok (Fin last) ->
  last == inject_Z L ->
  (1 <= N)%Z ->
  (- 2 ^ 53 <= L)%Z -> (L + N + 1 <= 2 ^ 53)%Z ->
  exists out,
    predict_future (Some m) d N = Ok out
    /\ columns out = [("year", Number); ("value", Number)]%string
    /\ length (rows out) = Z.to_nat N
    /\ forall i : nat, (i < Z.to_nat N)%nat ->
         exists y, rows out !! i = Some [CNum (Fin y); CNum (predict_row m [Fin y])]
                   /\ y == inject_Z (L + 1 + Z.of_nat i).
Proof.
  intros Hfeat Hne Hmax Hlast HN Hlo Hhi. unfold predict_future. rewrite Hne.
  change (2 ^ 53)%Z with 9007199254740992%Z in Hlo, Hhi.
  assert (Hsmall : forall z, (L <= z <= L + N + 1)%Z -> in_int64 z = true).
  { intros z Hz. apply in_int64_years; lia. }
  assert (Hone : in_int64 1 = true) by reflexivity.
  assert (HNs : in_int64 N = true).
  { unfold in_int64, int64_min, int64_max.
    change (2 ^ 63)%Z with 9223372036854775808%Z.
    apply andb_true_iff. rewrite !Z.leb_le. lia. }
  destruct (getitem d "year") as [year|]; [|discriminate].
  cbn [mbind result_bind] in *. rewrite Hmax. cbn [mbind result_bind].
  rewrite (scalar_add_exact last L 1 Hlast) by (try assumption; apply Hsmall; lia).
  rewrite (scalar_add_exact last L N Hlast) by (try assumption; apply Hsmall; lia).
  cbn [mbind result_bind].
  rewrite (scalar_add_exact (inject_Z (L + N)) (L + N) 1 (Qeq_refl _))
    by (try assumption; apply Hsmall; lia).
  cbn [mbind result_bind].
  replace (L + N + 1)%Z with (L + 1 + N)%Z by lia.
  set (start := inject_Z (L + 1)). set (stop := inject_Z (L + 1 + N)).
  assert (Hlen : length (arange start stop) = Z.to_nat N).
  { apply arange_length. unfold start, stop. rewrite inject_Z_plus. ring. }
  unfold predict, reshape_column. cbn [ncols mrows].
  rewrite length_map, Hlen.
  destruct (Nat.eqb_spec (Z.to_nat N) 0) as [|_]; [lia|].
  rewrite Hfeat, Nat.eqb_refl.
  assert (Hfin : forallb (forallb is_finite)
                   (map (fun x => [x]) (arange start stop)) = true).
  { apply forallb_forall. intros r (x & <- & Hx)%in_map_iff.
    unfold arange in Hx. apply in_map_iff in Hx as (i & <- & _). reflexivity. }
  rewrite Hfin. cbn [andb mbind result_bind].
  unfold frame_of_pairs. rewrite !length_map, Nat.eqb_refl.
  eexists. split; [reflexivity|]. split; [reflexivity|]. cbn [rows].
  rewrite map_map, zip_with_map_r.
  split; [now rewrite length_map|].
  intros i Hi. unfold arange. rewrite map_map.
  assert (Hn : Z.to_nat (Qceiling (stop - start)) = Z.to_nat N).
  { rewrite <- Hlen. unfold arange. now rewrite length_map, length_seq. }
  rewrite Hn, list_lookup_fmap, lookup_seq_lt by exact Hi.
  eexists. split; [reflexivity|].
  unfold start. rewrite <- inject_Z_plus. reflexivity.
Qed.

End Models.

(** *** The statements above on concrete data *)

Lemma two_points_raise :
  @perform_regression sample_libm (sample_sklearn false) two_points two_targets
  = Raise ZeroDivisionError.
Proof. reflexivity. Qed.

Lemma two_points_not_finite :
  exists r, @perform_regression sample_libm (sample_sklearn true) two_points two_targets = Ok r
            /\ adjusted_r2 r = NInf.
Proof. eexists. split; reflexivity. Qed.

Lemma perform_regression_adjusted_r2_witness :
  @perform_regression sample_libm (sample_sklearn false) two_points two_targets
  = Raise ZeroDivisionError
  \/ exists r,
       @perform_regression sample_libm (sample_sklearn false) two_points two_targets = Ok r
       /\ is_finite (adjusted_r2 r) = false.
Proof.
  eapply (@perform_regression_adjusted_r2_unguarded sample_libm (sample_sklearn false)
            two_points two_targets [true; true]);
    first [ discriminate | reflexivity ].
Defined.

Lemma example_mape_infinite : dict_get example_metrics "mape" = Some PInf.
Proof. reflexivity. Qed.

Lemma evaluate_model_mape_witness :
  exists x, dict_get example_metrics "mape" = Some x /\ is_finite x = false.
Proof.
  apply (@evaluate_model_mape_unguarded sample_libm (sample_sklearn false)
           [Fin 0; Fin 1] [Fin 1; Fin 1] 0 example_metrics);
    first [ reflexivity | now left | (vm_compute; reflexivity) ].
Defined.



(** C8, as stated, fails where the year overflows: after a last year of
    2^63 - 1 the year of the forecast is -2^63, not 2^63. *)
Lemma predict_future_year_overflow :
  exists out y,
    @predict_future (sample_sklearn false) (Some (Fin 10, 1%nat)) overflow_frame 1 = Ok out
    /\ (getitem overflow_frame "year" ≫= series_max) = Ok (Fin (inject_Z int64_max))
    /\ rows out = [[CNum (Fin y); CNum (Fin 10)]]
    /\ y == inject_Z int64_min
    /\ ~ y == inject_Z (int64_max + 1).
Proof.
  eexists. eexists. split; [vm_compute; reflexivity|].
  split; [reflexivity|]. split; [reflexivity|]. split; [reflexivity|].
  intros H. discriminate H.
Qed.

Lemma predict_future_witness :
  exists out,
    @predict_future (sample_sklearn false) (Some (Fin 10, 1%nat)) history_frame 5 = Ok out
    /\ columns out = [("year", Number); ("value", Number)]%string
    /\ length (rows out) = Z.to_nat 5
    /\ forall i : nat, (i < Z.to_nat 5)%nat ->
         exists y, rows out !! i
                   = Some [CNum (Fin y);
                           CNum (@predict_row (sample_sklearn false) (Fin 10, 1%nat) [Fin y])]
                   /\ y == inject_Z (2024 + 1 + Z.of_nat i).
Proof.
  apply (@predict_future_years (sample_sklearn false) (Fin 10, 1%nat) history_frame
           2024 5 (inject_Z 2024));
    first [ reflexivity | lia | (vm_compute; discriminate) ].
Defined.

Lemma example_forecast_years :
  Forall2 (fun r y => exists x, cell_at 0 r = CNum (Fin x) /\ x == inject_Z y)
          (rows example_forecast) [2025; 2026; 2027; 2028; 2029]%Z.
Proof. repeat constructor; eexists; split; reflexivity. Qed.

(** ** Correlation *)

Lemma Qmult_comm_eq (a b : Q) : a * b = b * a.
Proof.
  destruct a as [an ad], b as [bn bd]. unfold Qmult. simpl.
  now rewrite Z.mul_comm, Pos.mul_comm.
Qed.

Lemma dot_comm (u v : list Q) : dot u v = dot v u.
Proof.
  unfold dot. f_equal. revert v.
  induction u as [|a u IH]; intros [|b v]; simpl; try reflexivity.
  now rewrite Qmult_comm_eq, IH.
Qed.

Lemma dot_cons (a b : Q) (u v : list Q) : dot (a :: u) (b :: v) = a * b + dot u v.
Proof. reflexivity. Qed.

Lemma dot_self_nonneg (u : list Q) : 0 <= dot u u.
Proof.
  induction u as [|a u IH]; [apply Qle_refl|].
  rewrite dot_cons. pose proof (Qsquare_nonneg a). lra.
Qed.

(** Cauchy-Schwarz, for sums over the common prefix of two lists. *)
Lemma cross_term (a b A B C : Q) :
  0 <= A -> 0 <= C -> B * B <= A * C ->
  2 * (a * b * B) <= a * a * C + b * b * A.
Proof.
  intros HA HC HB.
  assert (Hs : 0 <= a * a * C + b * b * A).
  { pose proof (Qsquare_nonneg a). pose proof (Qsquare_nonneg b). nra. }
  assert (Hsq : (2 * (a * b * B)) * (2 * (a * b * B))
                <= (a * a * C + b * b * A) * (a * a * C + b * b * A)).
  { pose proof (Qsquare_nonneg (a * a * C - b * b * A)).
    pose proof (Qsquare_nonneg (a * b)).
    nra. }
  destruct (Qlt_le_dec (a * a * C + b * b * A) (2 * (a * b * B))) as [Hlt|]; [|assumption].
  exfalso. nra.
Qed.

Lemma cauchy_schwarz (u v : list Q) : dot u v * dot u v <= dot u u * dot v v.
Proof.
  revert v. induction u as [|a u IH]; intros [|b v].
  - unfold dot. simpl. lra.
  - unfold dot at 1 2 3. simpl. pose proof (dot_self_nonneg (b :: v)). lra.
  - unfold dot at 1 2 4. simpl. pose proof (dot_self_nonneg (a :: u)). lra.
  - rewrite !dot_cons.
    pose proof (IH v) as Hind.
    pose proof (dot_self_nonneg u) as HA. pose proof (dot_self_nonneg v) as HC.
    pose proof (cross_term a b _ _ _ HA HC Hind) as Hx.
    nra.
Qed.

Lemma product_positive (A C : Q) : 0 <= A -> 0 <= C -> ~ A * C == 0 -> 0 < A * C.
Proof.
  intros HA HC Hne.
  destruct (Qlt_le_dec 0 (A * C)) as [|Hle]; [assumption|].
  exfalso. apply Hne. apply Qle_antisym; [assumption|]. now apply Qmult_le_0_compat.
Qed.

Lemma coefficient_bounds (A B C : Q) :
  0 <= A -> 0 <= C -> B * B <= A * C -> ~ A * C == 0 ->
  (-1 <= Q2R B / sqrt (Q2R (A * C)) <= 1)%R.
Proof.
  intros HA HC HB Hne.
  pose proof (product_positive A C HA HC Hne) as Hpos.
  apply Qlt_Rlt in Hpos. rewrite RMicromega.Q2R_0 in Hpos.
  apply Qle_Rle in HB. rewrite Q2R_mult in HB.
  set (b := Q2R B) in *. set (a := Q2R (A * C)) in *.
  pose proof (sqrt_lt_R0 a Hpos) as Hs.
  pose proof (sqrt_sqrt a (Rlt_le _ _ Hpos)) as Hss.
  set (s := sqrt a) in *.
  assert (Hb : (- s <= b <= s)%R) by (split; nra).
  split.
  - apply (Rmult_le_reg_r s); [exact Hs|].
    unfold Rdiv. rewrite Rmult_assoc, Rinv_l by lra. lra.
  - apply (Rmult_le_reg_r s); [exact Hs|].
    unfold Rdiv. rewrite Rmult_assoc, Rinv_l by lra. lra.
Qed.

Lemma coefficient_self (A : Q) :
  0 <= A -> ~ A * A == 0 -> (Q2R A / sqrt (Q2R (A * A)) = 1)%R.
Proof.
  intros HA Hne.
  assert (Hpos : 0 < A).
  { destruct (Qlt_le_dec 0 A) as [|Hle]; [assumption|].
    exfalso. apply Hne. assert (A == 0) as -> by now apply Qle_antisym. ring. }
  apply Qlt_Rlt in Hpos. rewrite RMicromega.Q2R_0 in Hpos.
  rewrite Q2R_mult, sqrt_square by lra.
  field. lra.
Qed.

Lemma valid_pairs_swap (x y : list fl) :
  List.filter both_valid (zip y x)
  = map (fun p => (snd p, fst p)) (List.filter both_valid (zip x y)).
Proof.
  revert y. induction x as [|a x IH]; intros [|b y]; simpl; try reflexivity.
  assert (Hswap : both_valid (b, a) = both_valid (a, b)) by apply andb_comm.
  rewrite Hswap. destruct (both_valid (a, b)); simpl; now rewrite IH.
Qed.

Lemma valid_pairs_self (x : list fl) :
  map snd (List.filter both_valid (zip x x)) = map fst (List.filter both_valid (zip x x)).
Proof.
  induction x as [|a x IH]; simpl; [reflexivity|].
  destruct (both_valid (a, a)); simpl; now rewrite ?IH.
Qed.

Lemma corr_sums_swap (m : corr_method) (x y : list fl) (A B C : Q) :
  corr_sums m x y = Some (A, B, C) -> corr_sums m y x = Some (C, B, A).
Proof.
  unfold corr_sums. rewrite (valid_pairs_swap x y), !map_map. simpl.
  change (map (fun p : fl * fl => snd p)) with (@map (fl * fl) fl snd).
  change (map (fun p : fl * fl => fst p)) with (@map (fl * fl) fl fst).
  destruct (embed m (map fst _)) as [u|]; [|discriminate].
  destruct (embed m (map snd _)) as [v|]; [|discriminate].
  intros [= <- <- <-]. now rewrite (dot_comm v u).
Qed.

Lemma corr_sums_self (m : corr_method) (x : list fl) (A B C : Q) :
  corr_sums m x x = Some (A, B, C) -> B = A /\ C = A.
Proof.
  unfold corr_sums. rewrite valid_pairs_self.
  destruct (embed m _) as [u|]; [|discriminate].
  intros [= <- <- <-]. auto.
Qed.

Lemma corr_sums_facts (m : corr_method) (x y : list fl) (A B C : Q) :
  corr_sums m x y = Some (A, B, C) -> 0 <= A /\ 0 <= C /\ B * B <= A * C.
Proof.
  unfold corr_sums.
  destruct (embed m (map fst _)) as [u|]; [|discriminate].
  destruct (embed m (map snd _)) as [v|]; [|discriminate].
  intros [= <- <- <-]. auto using dot_self_nonneg, cauchy_schwarz.
Qed.

Lemma corr_pair_defined (m : corr_method) (x y : list fl) :
  defined_pair m x y = true ->
  exists r, corr_pair m x y = RVal r /\ corr_pair m y x = RVal r
            /\ (-1 <= r <= 1)%R.
Proof.
  unfold defined_pair, corr_pair.
  destruct (corr_sums m x y) as [[[A B] C]|] eqn:Hxy; [|discriminate].
  rewrite (corr_sums_swap m x y A B C Hxy), (Qmult_comm_eq C A).
  intros Hne%negb_true_iff. rewrite Hne.
  eexists. split; [reflexivity|]. split; [reflexivity|].
  destruct (corr_sums_facts m x y A B C Hxy) as (HA & HC & HB).
  apply coefficient_bounds; auto.
  intros Heq%Qeq_bool_iff. congruence.
Qed.

Lemma corr_pair_self (m : corr_method) (x : list fl) :
  defined_pair m x x = true -> corr_pair m x x = RVal 1%R.
Proof.
  unfold defined_pair, corr_pair.
  destruct (corr_sums m x x) as [[[A B] C]|] eqn:Hxx; [|discriminate].
  destruct (corr_sums_self m x A B C Hxx) as [-> ->].
  intros Hne%negb_true_iff. rewrite Hne. f_equal.
  destruct (corr_sums_facts m x x A A A Hxx) as (HA & _ & _).
  apply coefficient_self; auto.
  intros Heq%Qeq_bool_iff. congruence.
Qed.

Lemma select_filter {A} (p : A -> bool) (l : list A) :
  select l (map p l) = List.filter p l.
Proof.
  induction l as [|x l IH]; simpl; [reflexivity|]. destruct (p x); now rewrite IH.
Qed.

Lemma select_number_columns (data : DataFrame) :
  map fst (columns (select_number data)) = numeric_names data.
Proof. unfold select_number, numeric_names. simpl. now rewrite select_filter. Qed.

Lemma select_number_empty (data : DataFrame) :
  df_empty data = false ->
  df_empty (select_number data) = match numeric_names data with [] => true | _ => false end.
Proof.
  unfold df_empty, numeric_names, select_number. simpl. rewrite select_filter.
  destruct (columns data) as [|c cs]; [discriminate|].
  destruct (rows data) as [|r rs]; [discriminate|]. intros _.
  destruct (List.filter is_number (c :: cs)); reflexivity.
Qed.

Lemma nth_map_seq {A} (f : nat -> A) (n i : nat) (dflt : A) :
  (i < n)%nat -> nth i (map f (seq 0 n)) dflt = f i.
Proof.
  intros Hi. rewrite (nth_indep _ dflt (f 0%nat)) by now rewrite length_map, length_seq.
  rewrite map_nth, seq_nth by exact Hi. reflexivity.
Qed.

Lemma forallb_seq (p : nat -> bool) (n i : nat) :
  forallb p (seq 0 n) = true -> (i < n)%nat -> p i = true.
Proof.
  intros Hall Hi. rewrite forallb_forall in Hall. apply Hall, in_seq. lia.
Qed.

(** C7.  On a frame with rows and at least one numeric column,
    [calculate_correlation] with one of the three methods returns a square
    matrix labelled by the numeric column names; when the frame is
    non-degenerate the matrix is symmetric, has 1 on the diagonal and all
    entries in [-1, 1].  An empty frame, a frame without numeric columns and
    a failing computation give the empty matrix. *)
Theorem calculate_correlation_matrix (data : DataFrame) (method : string) :
  (df_empty data = true \/ numeric_names data = []
   \/ raises (pandas_corr (select_number data) method) = true ->
   calculate_correlation data method = empty_corr)
  /\ (forall m : corr_method,
        parse_method method = Ok m ->
        df_empty data = false -> numeric_names data <> [] ->
        nondegenerate data m = true ->
        let C := calculate_correlation data method in
        let n := length (numeric_names data) in
        clabels C = numeric_names data
        /\ length (cvalues C) = n
        /\ Forall (fun r => length r = n) (cvalues C)
        /\ forall i j : nat, (i < n)%nat -> (j < n)%nat ->
             exists r : R,
               entry C i j = RVal r /\ entry C j i = RVal r
               /\ (-1 <= r <= 1)%R /\ (i = j -> r = 1%R)).
Proof.
  split.
  - unfold calculate_correlation. intros [-> | [Hnone | Hraise]]; [reflexivity | |].
    + destruct (df_empty data) eqn:Hempty; [reflexivity|].
      now rewrite (select_number_empty data Hempty), Hnone.
    + destruct (df_empty data); [reflexivity|].
      destruct (df_empty (select_number data)); [reflexivity|].
      destruct (pandas_corr (select_number data) method); [discriminate | reflexivity].
  - intros m Hm Hempty Hsome Hnd C n. subst C n.
    unfold calculate_correlation. rewrite Hempty, (select_number_empty data Hempty).
    destruct (numeric_names data) as [|c cs] eqn:Hnames; [congruence|].
    unfold pandas_corr. rewrite Hm. cbn [mbind result_bind mret result_ret clabels cvalues].
    rewrite select_number_columns, Hnames.
    assert (Hlen : length (columns (select_number data)) = length (c :: cs)).
    { now rewrite <- Hnames, <- select_number_columns, length_map. }
    rewrite Hlen. unfold nondegenerate in Hnd. cbv zeta in Hnd. rewrite Hlen in Hnd.
    split; [reflexivity|]. split; [now rewrite length_map, length_seq|]. split.
    { apply Forall_forall. intros r (i & <- & _)%list_elem_of_In%in_map_iff.
      now rewrite length_map, length_seq. }
    intros i j Hi Hj. unfold entry. cbn [cvalues].
    rewrite !(nth_map_seq _ _ _ [] ) by assumption.
    rewrite !(nth_map_seq _ _ _ RNaN) by assumption.
    pose proof (forallb_seq _ _ j (forallb_seq _ _ i Hnd Hi) Hj) as Hij.
    destruct (corr_pair_defined _ _ _ Hij) as (r & Hr & Hr' & Hbounds).
    exists r. repeat split; try assumption; try apply Hbounds.
    intros <-. rewrite (corr_pair_self _ _ Hij) in Hr. now injection Hr as <-.
Qed.

Lemma indicator_frame_labels :
  clabels (calculate_correlation indicator_frame "pearson") = ["poverty"; "literacy"]%string.
Proof. reflexivity. Qed.

(** An unknown method name is a failure inside pandas: the empty matrix. *)
Lemma calculate_correlation_unknown_method :
  calculate_correlation indicator_frame "cosine" = empty_corr.
Proof. reflexivity. Qed.

Lemma calculate_correlation_witness :
  let C := calculate_correlation indicator_frame "pearson" in
  let n := length (numeric_names indicator_frame) in
  clabels C = numeric_names indicator_frame
  /\ length (cvalues C) = n
  /\ Forall (fun r => length r = n) (cvalues C)
  /\ forall i j : nat, (i < n)%nat -> (j < n)%nat ->
       exists r : R,
         entry C i j = RVal r /\ entry C j i = RVal r
         /\ (-1 <= r <= 1)%R /\ (i = j -> r = 1%R).
Proof.
  destruct (calculate_correlation_matrix indicator_frame "pearson") as [_ Hmatrix].
  apply (Hmatrix Pearson); first [ reflexivity | discriminate | (vm_compute; reflexivity) ].
Defined.

(** * Further properties *)

(** ** filter_data: exactly the rows that pass *)

Lemma mapM_compare_cells (op : fl -> fl -> bool) (v : fl) (cs : list cell) (bs : list bool) :
  mapM (compare_cell op v) cs = Ok bs ->
  bs = map (fun c => match c with CNum x => op x v | CObj _ => false end) cs
  /\ forallb comparable cs = true.
Proof.
  revert bs. induction cs as [|c cs IH]; intros bs; simpl.
  - intros [= <-]. auto.
  - destruct (compare_cell op v c) as [b|] eqn:Hc; simpl; [|discriminate].
    destruct (mapM (compare_cell op v) cs) as [bs'|]; simpl; [|discriminate].
    intros [= <-]. destruct (IH bs' eq_refl) as [-> Hcs].
    destruct c as [x|[s|]]; simpl in Hc; try discriminate; injection Hc as <-; auto.
Qed.

Lemma mapM_compare_comparable (op : fl -> fl -> bool) (v : fl) (cs : list cell) :
  forallb comparable cs = true ->
  mapM (compare_cell op v) cs
  = Ok (map (fun c => match c with CNum x => op x v | CObj _ => false end) cs).
Proof.
  induction cs as [|c cs IH]; simpl; [reflexivity|].
  intros [Hc Hcs]%andb_prop. rewrite (IH Hcs).
  destruct c as [x|[s|]]; simpl in *; try discriminate; reflexivity.
Qed.

Lemma mask_and_map {A} (p q : A -> bool) (l : list A) :
  mask_and (map p l) (map q l) = map (fun x => p x && q x) l.
Proof. unfold mask_and. induction l; simpl; congruence. Qed.

Lemma select_map_filter {A B} (f : A -> B) (p : B -> bool) (l : list A) :
  select l (map p (map f l)) = List.filter (fun x => p (f x)) l.
Proof. rewrite map_map. apply (select_filter (fun x => p (f x))). Qed.

Lemma filter_filter {A} (p q : A -> bool) (l : list A) :
  List.filter q (List.filter p l) = List.filter (fun x => p x && q x) l.
Proof.
  induction l as [|x l IH]; simpl; [reflexivity|].
  destruct (p x); simpl; [destruct (q x)|]; now rewrite IH.
Qed.

Lemma filter_true {A} (l : list A) : List.filter (fun _ => true) l = l.
Proof. induction l; simpl; congruence. Qed.

Lemma filtering_same (h : heap) (cur : ref) (d : DataFrame) :
  h !! cur = Some d ->
  exists d', h !! cur = Some d' /\ columns d' = columns d
             /\ rows d' = List.filter (fun _ => true) (rows d).
Proof. intros. exists d. now rewrite filter_true. Qed.

Lemma filter_year_filtering (year_range : option (Z * Z)) :
  filtering (filter_year year_range) (fun d => passes_year d year_range).
Proof.
  intros h cur d r' h' Hcur. unfold filter_year, passes_year, column_test. py_run Hcur.
  destruct year_range as [[lo hi]|].
  - unfold has_column, getitem.
    destruct (col_index "year" (columns d)) as [k|]; simpl.
    + unfold series_ge, series_le. simpl.
      destruct (mapM (compare_cell fge (of_Z lo)) _) as [m1|] eqn:H1; [|discriminate].
      destruct (mapM (compare_cell fle (of_Z hi)) _) as [m2|] eqn:H2; [|discriminate].
      apply mapM_compare_cells in H1 as [-> _]. apply mapM_compare_cells in H2 as [-> _].
      simpl. intros [= <- <-]. eexists. split; [apply py_new_spec|].
      split; [reflexivity|]. simpl. rewrite mask_and_map, select_map_filter.
      apply filter_ext. intros r. unfold cell_between. now destruct (cell_at k r).
    + intros [= <- <-]. now apply filtering_same.
  - intros [= <- <-]. now apply filtering_same.
Qed.

Lemma filter_isin_filtering (values : option (list string)) (name : string) :
  filtering (filter_isin values name) (fun d => passes_isin d values name).
Proof.
  intros h cur d r' h' Hcur. unfold filter_isin, passes_isin, column_test. py_run Hcur.
  destruct (truthy_list values); simpl.
  - unfold has_column, getitem.
    destruct (col_index name (columns d)) as [k|]; simpl.
    + intros [= <- <-]. eexists. split; [apply py_new_spec|].
      split; [reflexivity|]. simpl. unfold series_isin. simpl.
      apply (select_map_filter (cell_at k) (cell_in (default [] values))).
    + intros [= <- <-]. now apply filtering_same.
  - intros [= <- <-]. now apply filtering_same.
Qed.

Lemma filter_area_filtering (area_type : option string) :
  filtering (filter_area area_type) (fun d => passes_area d area_type).
Proof.
  intros h cur d r' h' Hcur. unfold filter_area, passes_area, column_test. py_run Hcur.
  destruct (truthy_str area_type && negb (String.eqb (default EmptyString area_type) "All"));
    simpl.
  - unfold has_column, getitem.
    destruct (col_index "area_type" (columns d)) as [k|]; simpl.
    + intros [= <- <-]. eexists. split; [apply py_new_spec|].
      split; [reflexivity|]. simpl. unfold series_eq. simpl.
      apply (select_map_filter (cell_at k) (cell_is (default EmptyString area_type))).
    + intros [= <- <-]. now apply filtering_same.
  - intros [= <- <-]. now apply filtering_same.
Qed.

Lemma passes_columns (d d' : DataFrame)
    (year_range : option (Z * Z)) (states countries : option (list string))
    (area_type : option string) (indicators : option (list string)) (r : row) :
  columns d' = columns d ->
  passes_year d' year_range r = passes_year d year_range r
  /\ (forall values name, passes_isin d' values name r = passes_isin d values name r)
  /\ passes_area d' area_type r = passes_area d area_type r.
Proof.
  intros Hc. unfold passes_year, passes_isin, passes_area, column_test. rewrite Hc. auto.
Qed.

Lemma passes_without_columns (d : DataFrame)
    (year_range : option (Z * Z)) (states countries : option (list string))
    (area_type : option string) (indicators : option (list string)) (r : row) :
  columns d = [] -> passes d year_range states countries area_type indicators r = true.
Proof.
  intros Hc. unfold passes, passes_year, passes_isin, passes_area, column_test.
  rewrite Hc. simpl.
  destruct year_range as [[lo hi]|]; destruct (truthy_list states);
    destruct (truthy_list countries); destruct (truthy_list indicators);
    destruct (truthy_str area_type && _); reflexivity.
Qed.

(** The rows [filter_data] returns, step by step. *)
Lemma filter_data_rows (h : heap) (r : ref) (d : DataFrame)
    (year_range : option (Z * Z)) (states countries : option (list string))
    (area_type : option string) (indicators : option (list string))
    (out : option ref) (h' : heap) :
  h !! r = Some d ->
  filter_data (Some r) year_range states countries area_type indicators h = Ok (out, h') ->
  exists r' d',
    out = Some r' /\ h' !! r' = Some d'
    /\ columns d' = columns d
    /\ rows d' = List.filter (passes d year_range states countries area_type indicators)
                             (rows d).
Proof.
  intros Hr Hrun. unfold filter_data in Hrun.
  apply py_bind_Ok in Hrun as (d0 & h0 & Hderef & Hrun).
  unfold py_deref in Hderef. rewrite Hr in Hderef. injection Hderef as <- <-.
  destruct (df_empty d) eqn:Hempty.
  - injection Hrun as <- <-. exists r, d. repeat split; auto.
    unfold df_empty in Hempty. destruct (columns d) eqn:Hc.
    + symmetry. erewrite filter_ext; [apply filter_true|].
      intros row. now apply passes_without_columns.
    + destruct (rows d); [reflexivity | discriminate].
  - apply py_bind_Ok in Hrun as (c & hc & Hcopy & Hrun).
    unfold df_copy, py_bind, py_deref in Hcopy. rewrite Hr in Hcopy.
    injection Hcopy as <- <-.
    assert (Hc : (h ++ [d]) !! length h = Some d) by apply py_new_spec.
    apply py_bind_Ok in Hrun as (r1 & h1 & Hs1 & Hrun).
    destruct (filter_year_filtering _ _ _ _ _ _ Hc Hs1) as (d1 & Hd1 & Hc1 & Hr1).
    apply py_bind_Ok in Hrun as (r2 & h2 & Hs2 & Hrun).
    destruct (filter_isin_filtering _ _ _ _ _ _ _ Hd1 Hs2) as (d2 & Hd2 & Hc2 & Hr2).
    apply py_bind_Ok in Hrun as (r3 & h3 & Hs3 & Hrun).
    destruct (filter_isin_filtering _ _ _ _ _ _ _ Hd2 Hs3) as (d3 & Hd3 & Hc3 & Hr3).
    apply py_bind_Ok in Hrun as (r4 & h4 & Hs4 & Hrun).
    destruct (filter_area_filtering _ _ _ _ _ _ Hd3 Hs4) as (d4 & Hd4 & Hc4 & Hr4).
    apply py_bind_Ok in Hrun as (r5 & h5 & Hs5 & Hrun).
    destruct (filter_isin_filtering _ _ _ _ _ _ _ Hd4 Hs5) as (d5 & Hd5 & Hc5 & Hr5).
    injection Hrun as <- <-.
    exists r5, d5. split; [reflexivity|]. split; [exact Hd5|].
    split; [congruence|].
    rewrite Hr5, Hr4, Hr3, Hr2, Hr1, !filter_filter.
    apply filter_ext. intros row. unfold passes.
    assert (E2 : columns d1 = columns d) by congruence.
    assert (E3 : columns d2 = columns d) by congruence.
    assert (E4 : columns d3 = columns d) by congruence.
    assert (E5 : columns d4 = columns d) by congruence.
    destruct (passes_columns d d1 year_range states countries area_type indicators row E2)
      as (_ & -> & _).
    destruct (passes_columns d d2 year_range states countries area_type indicators row E3)
      as (_ & -> & _).
    destruct (passes_columns d d3 year_range states countries area_type indicators row E4)
      as (_ & _ & ->).
    destruct (passes_columns d d4 year_range states countries area_type indicators row E5)
      as (_ & -> & _).
    now rewrite !andb_assoc.
Qed.

(** X1.  The frame [filter_data] returns holds exactly the rows of the input
    that pass every supplied predicate, in their order, under the same
    columns: nothing that passes is lost, nothing else is kept. *)
Theorem filter_data_exact (h : heap) (r : ref) (d : DataFrame)
    (year_range : option (Z * Z)) (states countries : option (list string))
    (area_type : option string) (indicators : option (list string))
    (out : option ref) (h' : heap) :
  h !! r = Some d ->
  filter_data (Some r) year_range states countries area_type indicators h = Ok (out, h') ->
  exists r' d',
    out = Some r' /\ h' !! r' = Some d'
    /\ columns d' = columns d
    /\ rows d' = List.filter (passes d year_range states countries area_type indicators)
                             (rows d)
    /\ forall row, In row (rows d')
                   <-> In row (rows d)
                       /\ passes d year_range states countries area_type indicators row = true.
Proof.
  intros Hr Hrun.
  destruct (filter_data_rows _ _ _ _ _ _ _ _ _ _ Hr Hrun) as (r' & d' & Hout & Hd' & Hc & Hrows).
  exists r', d'. split; [exact Hout|]. split; [exact Hd'|]. split; [exact Hc|].
  split; [exact Hrows|]. intros row. rewrite Hrows. apply filter_In.
Qed.

Lemma filter_data_exact_witness :
  exists r' d',
    Some 3%nat = Some r' /\ example_heap !! r' = Some d'
    /\ columns d' = columns example_frame
    /\ rows d' = List.filter (passes example_frame (Some (2001, 2003)%Z)
                                (Some ["Goa"%string]) None (Some "All"%string) None)
                             (rows example_frame)
    /\ forall row, In row (rows d')
                   <-> In row (rows example_frame)
                       /\ passes example_frame (Some (2001, 2003)%Z)
                            (Some ["Goa"%string]) None (Some "All"%string) None row = true.
Proof.
  apply (filter_data_exact [example_frame] 0%nat example_frame
           (Some (2001, 2003)%Z) (Some ["Goa"%string]) None (Some "All"%string) None
           (Some 3%nat) example_heap);
    reflexivity.
Defined.

(** X2.  Filtering what was filtered with the same specification changes
    nothing: the second result has the rows and the columns of the first. *)
Theorem filter_data_idempotent (h : heap) (r : ref) (d : DataFrame)
    (year_range : option (Z * Z)) (states countries : option (list string))
    (area_type : option string) (indicators : option (list string))
    (r1 : ref) (h1 : heap) (out : option ref) (h2 : heap) :
  h !! r = Some d ->
  filter_data (Some r) year_range states countries area_type indicators h = Ok (Some r1, h1) ->
  filter_data (Some r1) year_range states countries area_type indicators h1 = Ok (out, h2) ->
  exists d1 r2 d2,
    h1 !! r1 = Some d1 /\ out = Some r2 /\ h2 !! r2 = Some d2
    /\ columns d2 = columns d1 /\ rows d2 = rows d1.
Proof.
  intros Hr Hrun1 Hrun2.
  destruct (filter_data_rows _ _ _ _ _ _ _ _ _ _ Hr Hrun1)
    as (r1' & d1 & [= <-] & Hd1 & Hc1 & Hr1).
  destruct (filter_data_rows _ _ _ _ _ _ _ _ _ _ Hd1 Hrun2)
    as (r2 & d2 & -> & Hd2 & Hc2 & Hr2).
  exists d1, r2, d2. repeat split; auto.
  rewrite Hr2, Hr1, filter_filter. apply filter_ext. intros row.
  unfold passes.
  destruct (passes_columns d d1 year_range states countries area_type indicators row Hc1)
    as (Hy & Hi & Ha).
  rewrite Hy, !Hi, Ha. now rewrite andb_diag.
Qed.

Lemma filter_data_idempotent_witness :
  exists d1 r2 d2,
    example_heap !! 3%nat = Some d1 /\ Some 6%nat = Some r2
    /\ example_heap_twice !! r2 = Some d2
    /\ columns d2 = columns d1 /\ rows d2 = rows d1.
Proof.
  apply (filter_data_idempotent [example_frame] 0%nat example_frame
           (Some (2001, 2003)%Z) (Some ["Goa"%string]) None (Some "All"%string) None
           3%nat example_heap (Some 6%nat) example_heap_twice);
    reflexivity.
Defined.

(** X20.  Filters can be applied one after the other: filtering by the year
    range first and filtering the result by the other criteria gives the
    columns and the rows of one call with all the criteria. *)
Theorem filter_data_in_two_steps (h : heap) (r : ref) (d : DataFrame)
    (year_range : option (Z * Z)) (states countries : option (list string))
    (area_type : option string) (indicators : option (list string))
    (r1 : ref) (h1 : heap) (out2 : option ref) (h2 : heap)
    (out : option ref) (h' : heap) :
  h !! r = Some d ->
  filter_data (Some r) year_range None None None None h = Ok (Some r1, h1) ->
  filter_data (Some r1) None states countries area_type indicators h1 = Ok (out2, h2) ->
  filter_data (Some r) year_range states countries area_type indicators h = Ok (out, h') ->
  exists r2 d2 r' d',
    out2 = Some r2 /\ h2 !! r2 = Some d2
    /\ out = Some r' /\ h' !! r' = Some d'
    /\ columns d2 = columns d' /\ rows d2 = rows d'.
Proof.
  intros Hr Hrun1 Hrun2 Hrun.
  destruct (filter_data_rows _ _ _ _ _ _ _ _ _ _ Hr Hrun1)
    as (r1' & d1 & [= <-] & Hd1 & Hc1 & Hr1).
  destruct (filter_data_rows _ _ _ _ _ _ _ _ _ _ Hd1 Hrun2)
    as (r2 & d2 & -> & Hd2 & Hc2 & Hr2).
  destruct (filter_data_rows _ _ _ _ _ _ _ _ _ _ Hr Hrun)
    as (r' & d' & -> & Hd' & Hc' & Hr').
  exists r2, d2, r', d'. repeat split; auto; [congruence|].
  rewrite Hr2, Hr1, Hr', filter_filter. apply filter_ext. intros row.
  unfold passes.
  destruct (passes_columns d d1 year_range states countries area_type indicators row Hc1)
    as (_ & Hi & Ha).
  rewrite !Hi, Ha. unfold passes_year at 2, passes_isin at 1 2 3, passes_area at 1.
  simpl. now rewrite !andb_true_r, !andb_assoc.
Qed.

Lemma filter_data_in_two_steps_witness :
  exists r2 d2 r' d',
    Some 4%nat = Some r2 /\ example_heap_second !! r2 = Some d2
    /\ Some 3%nat = Some r' /\ example_heap !! r' = Some d'
    /\ columns d2 = columns d' /\ rows d2 = rows d'.
Proof.
  apply (filter_data_in_two_steps [example_frame] 0%nat example_frame
           (Some (2001, 2003)%Z) (Some ["Goa"%string]) None (Some "All"%string) None
           2%nat example_heap_first (Some 4%nat) example_heap_second
           (Some 3%nat) example_heap);
    reflexivity.
Defined.

(** ** filter_data: when it raises *)

Lemma py_bind_run {A B} (m : Py A) (k : A -> Py B) (h : heap) (a : A) (h1 : heap) :
  m h = Ok (a, h1) -> py_bind m k h = k a h1.
Proof. unfold py_bind. now intros ->. Qed.

Lemma filter_isin_returns (values : option (list string)) (name : string)
    (h : heap) (cur : ref) (d : DataFrame) :
  h !! cur = Some d -> exists r' h', filter_isin values name cur h = Ok (r', h').
Proof.
  intros Hcur. unfold filter_isin. py_run Hcur.
  destruct (truthy_list values && has_column d name) eqn:Hc; [|eauto].
  apply andb_prop in Hc as [_ Hc]. unfold has_column in Hc. unfold getitem.
  destruct (col_index name (columns d)); [|discriminate]. simpl. eauto.
Qed.

Lemma filter_area_returns (area_type : option string)
    (h : heap) (cur : ref) (d : DataFrame) :
  h !! cur = Some d -> exists r' h', filter_area area_type cur h = Ok (r', h').
Proof.
  intros Hcur. unfold filter_area. py_run Hcur.
  match goal with |- context [if ?c then _ else _] => destruct c eqn:Hc end; [|eauto].
  apply andb_prop in Hc as [_ Hc]. unfold has_column in Hc. unfold getitem.
  destruct (col_index "area_type" (columns d)); [|discriminate]. simpl. eauto.
Qed.

Lemma filter_year_returns (year_range : option (Z * Z))
    (h : heap) (cur : ref) (d : DataFrame) :
  h !! cur = Some d ->
  (forall k, col_index "year" (columns d) = Some k ->
             forallb comparable (map (cell_at k) (rows d)) = true) ->
  exists r' h', filter_year year_range cur h = Ok (r', h').
Proof.
  intros Hcur Hcmp. unfold filter_year. py_run Hcur.
  destruct year_range as [[lo hi]|]; [|eauto].
  unfold has_column, getitem.
  destruct (col_index "year" (columns d)) as [k|]; [|eauto]. simpl.
  unfold series_ge, series_le. simpl.
  rewrite !mapM_compare_comparable by auto. simpl. eauto.
Qed.

(** A string in the year column is what makes the year step raise. *)
Lemma filter_year_raises (lo hi : Z) (h : heap) (cur : ref) (d : DataFrame) (k : nat) :
  h !! cur = Some d -> col_index "year" (columns d) = Some k ->
  forallb comparable (map (cell_at k) (rows d)) = false ->
  filter_year (Some (lo, hi)) cur h = Raise TypeError.
Proof.
  intros Hcur Hk Hcmp. unfold filter_year. py_run Hcur.
  unfold has_column, getitem. rewrite Hk. simpl. unfold series_ge. simpl.
  destruct (mapM (compare_cell fge (of_Z lo)) _) as [m1|e] eqn:H1.
  - apply mapM_compare_cells in H1 as [_ H1]. congruence.
  - simpl. f_equal. clear -H1. revert H1.
    induction (map (cell_at k) (rows d)) as [|c cs IH]; simpl; [discriminate|].
    destruct c as [x|[s|]]; simpl; try (intros [= <-]; reflexivity);
      destruct (mapM (compare_cell fge (of_Z lo)) cs); simpl; try discriminate; auto.
Qed.

(** X3.  [filter_data] raises only on a year column that holds a string:
    when the year cells are numbers or missing (or the frame has no year
    column) it returns, whatever the specification; and with a year range,
    a non-empty frame with a string among its years makes it raise
    [TypeError]. *)
Theorem filter_data_raises_only_on_string_years (h : heap) (r : ref) (d : DataFrame)
    (states countries : option (list string))
    (area_type : option string) (indicators : option (list string)) :
  h !! r = Some d ->
  (forall year_range,
     (forall k, col_index "year" (columns d) = Some k ->
                forallb comparable (map (cell_at k) (rows d)) = true) ->
     exists out h',
       filter_data (Some r) year_range states countries area_type indicators h
       = Ok (out, h'))
  /\ (forall lo hi k,
        df_empty d = false -> col_index "year" (columns d) = Some k ->
        forallb comparable (map (cell_at k) (rows d)) = false ->
        filter_data (Some r) (Some (lo, hi)) states countries area_type indicators h
        = Raise TypeError).
Proof.
  intros Hr.
  assert (Hc : (h ++ [d]) !! length h = Some d) by apply py_new_spec.
  assert (Hcopy : df_copy r h = Ok (length h, h ++ [d])).
  { unfold df_copy, py_bind, py_deref. now rewrite Hr. }
  split.
  - intros year_range Hcmp. unfold filter_data.
    rewrite (py_bind_run _ _ h d h) by (unfold py_deref; now rewrite Hr).
    destruct (df_empty d); [unfold py_ret; eauto|].
    rewrite (py_bind_run _ _ _ _ _ Hcopy).
    destruct (filter_year_returns year_range _ _ _ Hc Hcmp) as (r1 & h1 & Hs1).
    destruct (filter_year_selecting _ _ _ _ _ _ Hc Hs1) as (_ & _ & d1 & Hd1 & _).
    rewrite (py_bind_run _ _ _ _ _ Hs1).
    destruct (filter_isin_returns states "state" _ _ _ Hd1) as (r2 & h2 & Hs2).
    destruct (filter_isin_selecting _ _ _ _ _ _ _ Hd1 Hs2) as (_ & _ & d2 & Hd2 & _).
    rewrite (py_bind_run _ _ _ _ _ Hs2).
    destruct (filter_isin_returns countries "country" _ _ _ Hd2) as (r3 & h3 & Hs3).
    destruct (filter_isin_selecting _ _ _ _ _ _ _ Hd2 Hs3) as (_ & _ & d3 & Hd3 & _).
    rewrite (py_bind_run _ _ _ _ _ Hs3).
    destruct (filter_area_returns area_type _ _ _ Hd3) as (r4 & h4 & Hs4).
    destruct (filter_area_selecting _ _ _ _ _ _ Hd3 Hs4) as (_ & _ & d4 & Hd4 & _).
    rewrite (py_bind_run _ _ _ _ _ Hs4).
    destruct (filter_isin_returns indicators "indicator" _ _ _ Hd4) as (r5 & h5 & Hs5).
    rewrite (py_bind_run _ _ _ _ _ Hs5). unfold py_ret. eauto.
  - intros lo hi k Hne Hk Hcmp. unfold filter_data.
    rewrite (py_bind_run _ _ h d h) by (unfold py_deref; now rewrite Hr).
    rewrite Hne, (py_bind_run _ _ _ _ _ Hcopy).
    unfold py_bind at 1. now rewrite (filter_year_raises lo hi _ _ d k).
Qed.

Lemma filter_data_raises_witness :
  (exists out h',
     filter_data (Some 0%nat) (Some (2001, 2003)%Z) (Some ["Goa"%string]) None None None
                 [example_frame]
     = Ok (out, h'))
  /\ filter_data (Some 0%nat) (Some (2001, 2003)%Z) (Some ["Goa"%string]) None None None
                 [text_year_frame]
     = Raise TypeError.
Proof.
  split.
  - destruct (filter_data_raises_only_on_string_years [example_frame] 0%nat example_frame
                (Some ["Goa"%string]) None None None eq_refl) as [Hreturns _].
    apply Hreturns. intros k [= <-]. reflexivity.
  - destruct (filter_data_raises_only_on_string_years [text_year_frame] 0%nat
                text_year_frame (Some ["Goa"%string]) None None None eq_refl)
      as [_ Hraises].
    apply (Hraises 2001%Z 2003%Z 0%nat); reflexivity.
Defined.

(** ** clean_data: what the result looks like *)

Lemma dedup_sublist (seen rs : list row) : dedup seen rs `sublist_of` rs.
Proof.
  revert seen. induction rs as [|r rs IH]; intros seen; simpl; [constructor|].
  destruct (existsb (row_same r) seen).
  - apply sublist_cons, IH.
  - apply sublist_skip, IH.
Qed.

Lemma cell_at_insert (k j : nat) (v : cell) (r : row) :
  cell_at j (<[k := v]> r)
  = if decide (k = j) then (if decide (k < length r)%nat then v else cell_at j r)
    else cell_at j r.
Proof.
  unfold cell_at, row in *. rewrite !nth_lookup.
  destruct (decide (k = j)) as [Heq|Hne].
  - subst j. destruct (decide (k < length r)%nat) as [Hlt|Hge].
    + now rewrite list_lookup_insert_eq by exact Hlt.
    + now rewrite list_insert_ge by lia.
  - now rewrite list_lookup_insert_ne by exact Hne.
Qed.

Lemma fillna_shape (k : nat) (v : cell) (d : DataFrame) (n : nat) :
  rows_of_width n d ->
  columns (fillna k v d) = columns d
  /\ length (rows (fillna k v d)) = length (rows d)
  /\ rows_of_width n (fillna k v d).
Proof.
  intros Hw. unfold fillna, rows_of_width in *. simpl.
  split; [reflexivity|]. split; [apply length_map|].
  apply Forall_map. eapply Forall_impl; [exact Hw|]. intros r Hr. simpl.
  destruct (isnull (cell_at k r)); [|exact Hr].
  unfold row in *. now rewrite length_insert.
Qed.

Lemma fillna_filled (k j : nat) (v : cell) (d : DataFrame) (n : nat) :
  rows_of_width n d -> isnull v = false ->
  (j = k /\ (k < n)%nat \/ filled j d) -> filled j (fillna k v d).
Proof.
  intros Hw Hv Hj. unfold filled, fillna, rows_of_width in *. simpl.
  apply Forall_map. apply Forall_forall. intros r Hin. simpl.
  rewrite Forall_forall in Hw. specialize (Hw r Hin).
  destruct (isnull (cell_at k r)) eqn:Hnull.
  - rewrite cell_at_insert. destruct (decide (k = j)) as [<-|Hne].
    + destruct Hj as [[_ Hlt] | Hf].
      * rewrite decide_True by lia. exact Hv.
      * rewrite Forall_forall in Hf. specialize (Hf r Hin). congruence.
    + destruct Hj as [[-> _] | Hf]; [congruence|].
      rewrite Forall_forall in Hf. now apply Hf.
  - destruct Hj as [[-> _] | Hf]; [exact Hnull|].
    rewrite Forall_forall in Hf. now apply Hf.
Qed.

Lemma impute_shape (step : DataFrame -> nat -> DataFrame) (n : nat) :
  (forall d k, rows_of_width n d ->
     columns (step d k) = columns d /\ length (rows (step d k)) = length (rows d)
     /\ rows_of_width n (step d k)) ->
  forall ks d, rows_of_width n d ->
    columns (foldl step d ks) = columns d
    /\ length (rows (foldl step d ks)) = length (rows d)
    /\ rows_of_width n (foldl step d ks).
Proof.
  intros Hstep ks. induction ks as [|k ks IH]; intros d Hw; simpl; [auto|].
  destruct (Hstep d k Hw) as (Hc & Hl & Hw').
  destruct (IH _ Hw') as (Hc' & Hl' & Hw''). repeat split; congruence || assumption.
Qed.

Lemma fillna_chained_shape {mode : PandasMode} (k : nat) (v : cell) (d : DataFrame)
    (n : nat) :
  rows_of_width n d ->
  columns (fillna_chained k v d) = columns d
  /\ length (rows (fillna_chained k v d)) = length (rows d)
  /\ rows_of_width n (fillna_chained k v d).
Proof.
  intros Hw. unfold fillna_chained. destruct copy_on_write; [auto|].
  now apply fillna_shape.
Qed.

Lemma impute_number_shape {mode : PandasMode} (n : nat) (d : DataFrame) (k : nat) :
  rows_of_width n d ->
  columns (impute_number d k) = columns d
  /\ length (rows (impute_number d k)) = length (rows d)
  /\ rows_of_width n (impute_number d k).
Proof.
  intros Hw. unfold impute_number. destruct (any_null k d); [|auto].
  now apply fillna_chained_shape.
Qed.

Lemma impute_object_shape {mode : PandasMode} (n : nat) (d : DataFrame) (k : nat) :
  rows_of_width n d ->
  columns (impute_object d k) = columns d
  /\ length (rows (impute_object d k)) = length (rows d)
  /\ rows_of_width n (impute_object d k).
Proof.
  intros Hw. unfold impute_object. destruct (any_null k d); [|auto].
  now apply fillna_chained_shape.
Qed.

(** With copy-on-write the two fills change nothing. *)
Lemma imputation_lost {mode : PandasMode} (d : DataFrame) (ks ks' : list nat) :
  copy_on_write = true ->
  foldl impute_object (foldl impute_number d ks) ks' = d.
Proof.
  intros Hcow.
  assert (Hn : forall d0 ks0, foldl impute_number d0 ks0 = d0).
  { intros d0 ks0. apply impute_nothing, Forall_forall. intros k _.
    unfold impute_number, fillna_chained. rewrite Hcow. now destruct (any_null k d0). }
  assert (Ho : forall d0 ks0, foldl impute_object d0 ks0 = d0).
  { intros d0 ks0. apply impute_nothing, Forall_forall. intros k _.
    unfold impute_object, fillna_chained. rewrite Hcow. now destruct (any_null k d0). }
  now rewrite Ho, Hn.
Qed.

Lemma any_null_filled (k : nat) (d : DataFrame) : any_null k d = false -> filled k d.
Proof.
  unfold any_null, filled. intros Hnone. apply Forall_forall. intros r Hin%list_elem_of_In.
  apply not_true_is_false. intros Hnull.
  assert (existsb (fun r => isnull (cell_at k r)) (rows d) = true); [|congruence].
  apply existsb_exists. eauto.
Qed.

Lemma impute_object_filled {mode : PandasMode} (n : nat) (d : DataFrame) (k j : nat) :
  copy_on_write = false ->
  rows_of_width n d ->
  (j = k /\ (k < n)%nat \/ filled j d) -> filled j (impute_object d k).
Proof.
  intros Hcow Hw Hj. unfold impute_object, fillna_chained. rewrite Hcow.
  destruct (any_null k d) eqn:Hany.
  - now apply (fillna_filled k j _ d n).
  - destruct Hj as [[-> _] | Hf]; [now apply any_null_filled | exact Hf].
Qed.

Lemma impute_objects_filled {mode : PandasMode} (n : nat) (ks : list nat) (d : DataFrame)
    (j : nat) :
  copy_on_write = false ->
  rows_of_width n d -> (j < n)%nat ->
  In j ks \/ filled j d -> filled j (foldl impute_object d ks).
Proof.
  intros Hcow. revert d. induction ks as [|k ks IH]; intros d Hw Hj Hin; simpl.
  - destruct Hin as [[] | Hf]. exact Hf.
  - destruct (impute_object_shape n d k Hw) as (_ & _ & Hw').
    apply IH; [exact Hw' | exact Hj |].
    destruct Hin as [[<- | Hin] | Hf]; auto.
    + right. apply (impute_object_filled n); auto.
    + right. apply (impute_object_filled n); auto.
Qed.

Lemma rectangular_width (d : DataFrame) :
  rectangular d = true -> rows_of_width (length (columns d)) d.
Proof.
  unfold rectangular, rows_of_width. rewrite forallb_forall. intros Hrect.
  apply Forall_forall. intros r Hin%list_elem_of_In. now apply Nat.eqb_eq, Hrect.
Qed.

Lemma remove_outliers_kept (d d' : DataFrame) :
  remove_outliers d = Ok d' -> kept d d'.
Proof.
  unfold remove_outliers.
  destruct (getitem d "value") as [v|]; [|discriminate]. cbn [mbind result_bind].
  destruct (value_fence v) as [[lo hi]|]; [|discriminate]. cbn [mbind result_bind].
  destruct (series_ge v lo) as [m1|]; [|discriminate]. cbn [mbind result_bind].
  destruct (series_le v hi) as [m2|]; [|discriminate]. cbn [mbind result_bind].
  intros [= <-]. apply kept_mask.
Qed.

(** The frame before the outlier step. *)
Lemma clean_data_steps {mode : PandasMode} (d d' : DataFrame) :
  df_empty d = false -> clean_data (Some d) = Ok (Some d') ->
  let imputed :=
    foldl impute_object
      (foldl impute_number (drop_duplicates d) (positions_of Number (drop_duplicates d)))
      (positions_of Object
         (foldl impute_number (drop_duplicates d) (positions_of Number (drop_duplicates d))))
  in
  (has_column imputed "value" = true /\ remove_outliers imputed = Ok d')
  \/ (has_column imputed "value" = false /\ d' = imputed).
Proof.
  intros Hne. unfold clean_data. rewrite Hne. cbv zeta.
  match goal with |- context [has_column ?x "value"] => set (imputed := x) end.
  destruct (has_column imputed "value").
  - destruct (remove_outliers imputed) as [d1|]; simpl; [|discriminate].
    intros [= <-]. now left.
  - intros [= <-]. now right.
Qed.

(** The imputation steps keep the columns and the number of rows. *)
Lemma imputation_keeps_shape {mode : PandasMode} (d : DataFrame) :
  let deduped := drop_duplicates d in
  let d1 := foldl impute_number deduped (positions_of Number deduped) in
  let d2 := foldl impute_object d1 (positions_of Object d1) in
  columns d2 = columns d /\ length (rows d2) = length (rows deduped).
Proof.
  cbv zeta.
  assert (Hshape : forall (step : DataFrame -> nat -> DataFrame) (ks : list nat)
                          (d0 : DataFrame),
            (forall d1 k, columns (step d1 k) = columns d1
                          /\ length (rows (step d1 k)) = length (rows d1)) ->
            columns (foldl step d0 ks) = columns d0
            /\ length (rows (foldl step d0 ks)) = length (rows d0)).
  { intros step ks. induction ks as [|k ks IH]; intros d0 Hstep; simpl; [auto|].
    destruct (Hstep d0 k) as [Hc Hl]. destruct (IH (step d0 k) Hstep) as [Hc' Hl'].
    split; congruence. }
  assert (Hfill : forall k v (d0 : DataFrame),
            columns (fillna k v d0) = columns d0
            /\ length (rows (fillna k v d0)) = length (rows d0)).
  { intros. unfold fillna. simpl. split; [reflexivity | apply length_map]. }
  set (deduped := drop_duplicates d).
  destruct (Hshape impute_number (positions_of Number deduped) deduped) as [Hc1 Hl1].
  { intros d1 k. unfold impute_number, fillna_chained.
    destruct (any_null k d1); auto. destruct copy_on_write; auto. }
  set (d1 := foldl impute_number deduped _) in *.
  destruct (Hshape impute_object (positions_of Object d1) d1) as [Hc2 Hl2].
  { intros d2 k. unfold impute_object, fillna_chained.
    destruct (any_null k d2); auto. destruct copy_on_write; auto. }
  split; [now rewrite Hc2, Hc1 | congruence].
Qed.


(** X4.  [clean_data] keeps the columns and returns at most as many rows as
    it was given: it never adds a row, with or without copy-on-write. *)
Theorem clean_data_never_adds_rows {mode : PandasMode} (d d' : DataFrame) :
  clean_data (Some d) = Ok (Some d') ->
  columns d' = columns d /\ (length (rows d') <= length (rows d))%nat.
Proof.
  intros Hclean. destruct (df_empty d) eqn:Hne.
  { unfold clean_data in Hclean. rewrite Hne in Hclean. injection Hclean as <-. auto. }
  apply (clean_data_steps d d' Hne) in Hclean. cbv zeta in Hclean.
  destruct (imputation_keeps_shape d) as [Hc Hl].
  assert (Hd : (length (rows (drop_duplicates d)) <= length (rows d))%nat)
    by apply sublist_length, dedup_sublist.
  destruct Hclean as [[_ Hout] | [_ ->]].
  - apply remove_outliers_kept in Hout as [Hc3 Hl3%sublist_length].
    split; [congruence | lia].
  - split; [exact Hc | lia].
Qed.

Lemma clean_data_never_adds_rows_witness :
  columns example_cleaned = columns example_frame
  /\ (length (rows example_cleaned) <= length (rows example_frame))%nat.
Proof.
  apply (@clean_data_never_adds_rows pandas_2 example_frame example_cleaned).
  vm_compute. reflexivity.
Defined.

Lemma drop_duplicates_width (n : nat) (d : DataFrame) :
  rows_of_width n d -> rows_of_width n (drop_duplicates d).
Proof.
  unfold rows_of_width, drop_duplicates. simpl. intros Hw.
  eapply Forall_sublist_of; [apply dedup_sublist | exact Hw].
Qed.

(** X5.  What becomes of a missing category depends on the mode of pandas.
    Without copy-on-write the fill with ['Unknown'] takes effect: in a
    rectangular frame no cell of a text column is missing after
    [clean_data].  With copy-on-write the fill is lost: [clean_data] only
    selects, every row it returns is a row of the input as it was. *)
Theorem clean_data_fill_by_mode {mode : PandasMode} (d d' : DataFrame) :
  clean_data (Some d) = Ok (Some d') ->
  (copy_on_write = false -> rectangular d = true ->
   forall k, In k (positions_of Object d) -> filled k d')
  /\ (copy_on_write = true -> rows d' `sublist_of` rows d).
Proof.
  intros Hclean. split.
  - intros Hcow Hrect k Hk.
    pose proof (positions_of_lt _ _ _ Hk) as Hlt.
    destruct (df_empty d) eqn:Hne.
    { unfold df_empty in Hne. destruct (columns d) eqn:Hc; [simpl in Hlt; lia|].
      unfold clean_data, df_empty in Hclean. rewrite Hc in Hclean.
      destruct (rows d) eqn:Hrows; [|discriminate].
      injection Hclean as <-. unfold filled. rewrite Hrows. constructor. }
    apply (clean_data_steps d d' Hne) in Hclean. cbv zeta in Hclean.
    set (n := length (columns d)) in *.
    pose proof (drop_duplicates_width n d (rectangular_width d Hrect)) as Hw0.
    set (deduped := drop_duplicates d) in *.
    destruct (impute_shape impute_number n (impute_number_shape n)
                (positions_of Number deduped) deduped Hw0) as (Hc1 & _ & Hw1).
    set (d1 := foldl impute_number deduped _) in *.
    assert (Hpos : positions_of Object d1 = positions_of Object d).
    { unfold positions_of. now rewrite Hc1. }
    rewrite Hpos in Hclean.
    assert (Hfilled : filled k (foldl impute_object d1 (positions_of Object d))).
    { apply (impute_objects_filled n); auto. }
    destruct Hclean as [[_ Hout] | [_ ->]]; [|exact Hfilled].
    apply remove_outliers_kept in Hout as [_ Hsub].
    unfold filled in *. eapply Forall_sublist_of; eauto.
  - intros Hcow. destruct (df_empty d) eqn:Hne.
    { unfold clean_data in Hclean. rewrite Hne in Hclean. now injection Hclean as <-. }
    apply (clean_data_steps d d' Hne) in Hclean. cbv zeta in Hclean.
    rewrite (imputation_lost _ _ _ Hcow) in Hclean.
    assert (Hdedup : rows (drop_duplicates d) `sublist_of` rows d) by apply dedup_sublist.
    destruct Hclean as [[_ Hout] | [_ ->]]; [|exact Hdedup].
    apply remove_outliers_kept in Hout as [_ Hsub].
    now transitivity (rows (drop_duplicates d)).
Qed.

Lemma clean_data_fill_by_mode_witness :
  filled 0 example_cleaned /\ rows example_selected `sublist_of` rows example_frame.
Proof.
  split.
  - apply (proj1 (@clean_data_fill_by_mode pandas_2 example_frame example_cleaned
                    ltac:(vm_compute; reflexivity)));
      first [ reflexivity | (simpl; auto) ].
  - apply (proj2 (@clean_data_fill_by_mode pandas_3 example_frame example_selected
                    ltac:(vm_compute; reflexivity))).
    reflexivity.
Defined.

Lemma select_inside (k : nat) (lo hi : fl) (rs : list row) (m1 m2 : list bool) :
  Forall2 (fun c b => compare_cell fge lo c = Ok b) (map (cell_at k) rs) m1 ->
  Forall2 (fun c b => compare_cell fle hi c = Ok b) (map (cell_at k) rs) m2 ->
  Forall (fun r => inside lo hi (cell_at k r) = true) (select rs (mask_and m1 m2)).
Proof.
  revert m1 m2. induction rs as [|r rs IH]; intros m1 m2 H1 H2; simpl; [constructor|].
  inversion H1 as [|c1 b1 cs1 m1' Hb1 Hrest1]; subst.
  inversion H2 as [|c2 b2 cs2 m2' Hb2 Hrest2]; subst.
  simpl. destruct b1, b2; simpl; auto.
  constructor; auto.
  destruct (cell_at k r) as [x|[s|]]; simpl in *; try discriminate.
  injection Hb1 as ->. injection Hb2 as ->. reflexivity.
Qed.

Lemma inside_not_missing (lo hi : fl) (c : cell) :
  inside lo hi c = true -> exists x, c = CNum x /\ isnan x = false.
Proof.
  destruct c as [x|]; simpl; [|discriminate]. intros [Hge _]%andb_prop.
  exists x. split; [reflexivity|]. destruct x; try reflexivity.
  unfold fge in Hge. destruct lo; discriminate.
Qed.

(** X6.  When the frame has a [value] column, no row that [clean_data]
    returns has a missing value there: every such cell is a number that is
    not [NaN]. *)
Theorem clean_data_values_present {mode : PandasMode} (d d' : DataFrame) (k : nat) :
  df_empty d = false ->
  col_index "value" (columns d) = Some k ->
  clean_data (Some d) = Ok (Some d') ->
  Forall (fun r => exists x, cell_at k r = CNum x /\ isnan x = false) (rows d').
Proof.
  intros Hne Hk Hclean.
  pose proof (imputation_keeps_shape d) as Hcols.
  apply (clean_data_steps d d' Hne) in Hclean. cbv zeta in Hclean, Hcols.
  destruct Hcols as [Hc _].
  set (imputed := foldl impute_object _ _) in *.
  assert (Hhas : has_column imputed "value" = true).
  { unfold has_column. now rewrite Hc, Hk. }
  destruct Hclean as [[_ Hout] | [Hnone _]]; [|congruence].
  unfold remove_outliers, getitem in Hout. rewrite Hc, Hk in Hout.
  cbn [mbind result_bind] in Hout.
  destruct (value_fence _) as [[lo hi]|]; [|discriminate]. cbn [mbind result_bind] in Hout.
  unfold series_ge, series_le in Hout. cbn [svalues] in Hout.
  destruct (mapM (compare_cell fge lo) _) as [m1|] eqn:H1; [|discriminate].
  destruct (mapM (compare_cell fle hi) _) as [m2|] eqn:H2; [|discriminate].
  cbn [mbind result_bind] in Hout. injection Hout as <-.
  simpl.
  eapply Forall_impl.
  - apply (select_inside k lo hi); now apply mapM_result_Forall2.
  - intros r Hin. now apply (inside_not_missing lo hi).
Qed.

Lemma clean_data_values_present_witness :
  Forall (fun r => exists x, cell_at 2 r = CNum x /\ isnan x = false) (rows example_cleaned).
Proof.
  apply (@clean_data_values_present pandas_2 example_frame example_cleaned 2%nat);
    vm_compute; reflexivity.
Defined.

(** ** Growth rates *)

Lemma feqb_zero (q : Q) : feqb (Fin q) (of_Z 0) = Qeq_bool q 0.
Proof.
  unfold feqb, of_Z. simpl. destruct (Qeq_bool q 0) eqn:Hq.
  - apply Qeq_bool_iff in Hq. apply andb_true_iff. rewrite !Qle_bool_iff, Hq.
    split; apply Qle_refl.
  - apply not_true_is_false. intros [H1 H2]%andb_true_iff.
    apply Qle_bool_iff in H1, H2.
    assert (Hz : q == 0) by (apply Qle_antisym; assumption).
    apply Qeq_bool_iff in Hz. congruence.
Qed.

Lemma item_fin (qs : list Q) (i : nat) :
  (i < length qs)%nat -> item (map Fin qs) i = Fin (nth i qs 0).
Proof.
  intros Hi. unfold item.
  rewrite (nth_indep _ NaN (Fin 0)) by now rewrite length_map.
  apply (map_nth Fin).
Qed.

Lemma growth_rate_item (values : list fl) (periods i : nat) :
  (periods < length values)%nat -> (i < length values)%nat ->
  item (calculate_growth_rate values periods) i
  = if (i <? periods)%nat then NaN
    else if negb (feqb (item values (i - periods)) (of_Z 0))
         then (((item values i - item values (i - periods)) / item values (i - periods))
               * of_Z 100)%fl
         else NaN.
Proof.
  intros Hp Hi. unfold calculate_growth_rate.
  destruct (Nat.ltb_spec (length values) (periods + 1)) as [|_]; [lia|].
  unfold item at 1. now rewrite nth_map_seq.
Qed.

(** X7.  On finite values with more entries than [periods],
    [calculate_growth_rate] returns one rate per entry; a rate is [NaN]
    exactly where there is no earlier entry or the earlier entry is zero: a
    zero is never divided by.  Everywhere else the rate is a finite number
    in exact arithmetic (no rounding, no overflow). *)
Theorem growth_rate_nan_positions (values : list fl) (periods : nat) :
  Forall finite values -> (periods < length values)%nat ->
  let rates := calculate_growth_rate values periods in
  length rates = length values
  /\ forall i, (i < length values)%nat ->
       never_infinite (item rates i)
       /\ (isnan (item rates i) = true
           <-> (i < periods)%nat \/ feq (item values (i - periods)) (Fin 0)).
Proof.
  intros Hfin Hp. cbv zeta. split.
  { unfold calculate_growth_rate.
    destruct (Nat.ltb_spec (length values) (periods + 1)) as [|_]; [lia|].
    now rewrite length_map, length_seq. }
  intros i Hi. rewrite (growth_rate_item values periods i Hp Hi).
  destruct (all_finite_map values Hfin) as (qs & ->).
  rewrite length_map in Hi, Hp.
  destruct (Nat.ltb_spec i periods) as [Hlt|Hge].
  { split; [now left|]. split; [now left | reflexivity]. }
  rewrite !item_fin by lia.
  set (b := nth (i - periods) qs 0). set (v := nth i qs 0).
  rewrite feqb_zero. destruct (Qeq_bool b 0) eqn:Hb; cbn [negb].
  - apply Qeq_bool_iff in Hb. split; [now left|]. split; [now right | reflexivity].
  - simpl. rewrite Hb. split; [now right|]. split; [discriminate|].
    intros [Hlt | Hz]; [lia|]. simpl in Hz. apply Qeq_bool_iff in Hz. congruence.
Qed.

Lemma growth_rate_nan_positions_witness :
  let rates := calculate_growth_rate growth_series 1 in
  length rates = length growth_series
  /\ forall i, (i < length growth_series)%nat ->
       never_infinite (item rates i)
       /\ (isnan (item rates i) = true
           <-> (i < 1)%nat \/ feq (item growth_series (i - 1)) (Fin 0)).
Proof.
  apply (growth_rate_nan_positions growth_series 1).
  - unfold growth_series. repeat (constructor; [reflexivity|]). constructor.
  - simpl. lia.
Defined.

Lemma rescale_fin (c : Q) (qs : list Q) :
  rescale c (map Fin qs) = map Fin (map (Qmult c) qs).
Proof. unfold rescale. rewrite !map_map. reflexivity. Qed.

(** X8.  Growth rates do not depend on the unit: multiplying every (finite)
    value by one non-zero factor leaves every rate the same, in exact
    arithmetic. *)
Theorem growth_rate_unit_free (values : list fl) (periods : nat) (c : Q) :
  Forall finite values -> nonzero c ->
  Forall2 feq (calculate_growth_rate (rescale c values) periods)
              (calculate_growth_rate values periods).
Proof.
  intros Hfin Hc. destruct (all_finite_map values Hfin) as (qs & ->).
  rewrite rescale_fin. unfold calculate_growth_rate. rewrite !length_map.
  destruct (length qs <? periods + 1)%nat; [constructor|].
  apply Forall2_fmap, Forall_Forall2_diag, Forall_forall.
  intros i Hi%list_elem_of_In%in_seq.
  destruct (Nat.ltb_spec i periods) as [Hlt|Hge]; [exact I|].
  rewrite !item_fin by (rewrite ?length_map; lia).
  rewrite !feqb_zero.
  rewrite (nth_indep (map (Qmult c) qs) 0 (c * 0)) by (rewrite length_map; lia).
  rewrite (nth_indep (map (Qmult c) qs) 0 (c * 0)) by (rewrite length_map; lia).
  rewrite !(map_nth (Qmult c)).
  set (b := nth (i - periods) qs 0). set (v := nth i qs 0).
  assert (Hzero : Qeq_bool (c * b) 0 = Qeq_bool b 0).
  { destruct (Qeq_bool b 0) eqn:Hb.
    - apply Qeq_bool_iff in Hb. apply Qeq_bool_iff. rewrite Hb. ring.
    - apply not_true_is_false. intros Hcb%Qeq_bool_iff.
      apply Qmult_integral in Hcb as [Hz|Hz]; [now apply Hc|].
      apply Qeq_bool_iff in Hz. congruence. }
  rewrite Hzero. destruct (Qeq_bool b 0) eqn:Hb; cbn [negb]; [exact I|].
  simpl. rewrite Hzero, Hb. simpl.
  assert (Hb' : ~ b == 0) by (intros Hz%Qeq_bool_iff; congruence).
  unfold nonzero in Hc. field. split; assumption.
Qed.

Lemma growth_rate_unit_free_witness :
  Forall2 feq (calculate_growth_rate (rescale 1000 growth_series) 1)
              (calculate_growth_rate growth_series 1).
Proof.
  apply (growth_rate_unit_free growth_series 1 1000).
  - unfold growth_series. repeat (constructor; [reflexivity|]). constructor.
  - unfold nonzero. intros H. discriminate H.
Defined.

(** ** Moving averages *)

Lemma repeat_rev {A} (x : A) (n : nat) : rev (repeat x n) = repeat x n.
Proof.
  induction n as [|n IH]; simpl; [reflexivity|].
  rewrite IH. symmetry. apply repeat_cons.
Qed.

Lemma zip_with_repeat {A B C} (f : A -> B -> C) (l : list A) (y : B) (n : nat) :
  zip_with f l (repeat y n) = map (fun x => f x y) (take n l).
Proof.
  revert l. induction n as [|n IH]; intros [|x l]; simpl; try reflexivity.
  now rewrite IH.
Qed.

Lemma window_kernel (window : Z) :
  (1 <= window)%Z ->
  map (fun x => (x / of_Z window)%fl) (repeat (Fin 1) (Z.to_nat window))
  = repeat (Fin (1 / inject_Z window)) (Z.to_nat window).
Proof.
  intros Hw. rewrite map_repeat. f_equal. unfold of_Z. simpl.
  assert (Hz : Qeq_bool (inject_Z window) 0 = false).
  { apply not_true_is_false. intros Hq%Qeq_bool_iff.
    assert (0 < inject_Z window) by (rewrite <- (Zlt_Qlt 0); lia).
    rewrite Hq in H. now apply Qlt_irrefl in H. }
  now rewrite Hz.
Qed.

(** What [calculate_moving_average] computes when the window fits. *)
Lemma moving_average_windows (data : list fl) (window : Z) :
  (1 <= window <= Z.of_nat (length data))%Z ->
  calculate_moving_average data window
  = Ok (map (fun k => np_sum (map (fun x => (x * Fin (1 / inject_Z window))%fl)
                                  (take (Z.to_nat window) (drop k data))))
            (seq 0 (length data - Z.to_nat window + 1))).
Proof.
  intros [Hw Hn]. unfold calculate_moving_average, np_ones.
  destruct (Z.ltb_spec (Z.of_nat (length data)) window) as [|_]; [lia|].
  destruct (Z.ltb_spec window 0) as [|_]; [lia|].
  cbn [mbind result_bind]. rewrite window_kernel by exact Hw.
  unfold np_convolve_valid. rewrite repeat_length.
  destruct (Nat.ltb_spec (length data) (Z.to_nat window)) as [|_]; [lia|].
  destruct (Nat.eqb_spec (length data) 0) as [|_]; [lia|].
  rewrite repeat_length.
  destruct (Nat.eqb_spec (Z.to_nat window) 0) as [|_]; [lia|].
  f_equal. apply map_ext. intros k.
  now rewrite repeat_rev, zip_with_repeat.
Qed.

Lemma moving_average_bad_window (data : list fl) (window : Z) :
  (window <= 0)%Z -> calculate_moving_average data window = Raise ValueError.
Proof.
  intros Hw. unfold calculate_moving_average, np_ones.
  destruct (Z.ltb_spec (Z.of_nat (length data)) window) as [|_]; [lia|].
  destruct (Z.ltb_spec window 0) as [|Hge]; [reflexivity|].
  assert (window = 0%Z) as -> by lia. cbn [mbind result_bind]. simpl.
  unfold np_convolve_valid. simpl.
  repeat match goal with
         | |- context [if ?b then _ else _] => destruct b; simpl
         end; reflexivity.
Qed.

(** X9.  The three cases of [calculate_moving_average]: a window of zero or
    less is a [ValueError]; data shorter than the window comes back as it
    is, not averaged; otherwise there is one average per position of the
    window, [len(data) - window + 1] in all. *)
Theorem moving_average_shape (data : list fl) (window : Z) :
  ((window <= 0)%Z -> calculate_moving_average data window = Raise ValueError)
  /\ ((Z.of_nat (length data) < window)%Z -> calculate_moving_average data window = Ok data)
  /\ ((1 <= window <= Z.of_nat (length data))%Z ->
      exists out, calculate_moving_average data window = Ok out
                  /\ Z.of_nat (length out) = (Z.of_nat (length data) - window + 1)%Z).
Proof.
  split; [apply moving_average_bad_window|]. split.
  - intros Hshort. unfold calculate_moving_average.
    destruct (Z.ltb_spec (Z.of_nat (length data)) window) as [_|]; [reflexivity | lia].
  - intros Hfit. rewrite (moving_average_windows data window Hfit).
    eexists. split; [reflexivity|]. rewrite length_map, length_seq. lia.
Qed.

Lemma moving_average_shape_witness :
  calculate_moving_average smooth_series 0 = Raise ValueError
  /\ calculate_moving_average smooth_series 5 = Ok smooth_series
  /\ exists out, calculate_moving_average smooth_series 3 = Ok out
                 /\ Z.of_nat (length out) = (Z.of_nat (length smooth_series) - 3 + 1)%Z.
Proof.
  split; [|split].
  - apply (proj1 (moving_average_shape smooth_series 0)). lia.
  - apply (proj1 (proj2 (moving_average_shape smooth_series 5))). simpl. lia.
  - apply (proj2 (proj2 (moving_average_shape smooth_series 3))). simpl. lia.
Defined.

Lemma sum_scaled_between (lo hi c : Q) (qs : list Q) :
  0 <= c -> Forall (between lo hi) qs ->
  inject_Z (Z.of_nat (length qs)) * c * lo
  <= foldl Qplus 0 (map (fun q => q * c) qs)
  <= inject_Z (Z.of_nat (length qs)) * c * hi.
Proof.
  intros Hc. induction 1 as [|x l [Hlo Hhi] _ IH].
  - simpl. split; apply Qle_lteq; right; ring.
  - cbn [map foldl length]. rewrite foldl_Qplus_shift.
    rewrite Nat2Z.inj_succ, <- Z.add_1_l, inject_Z_plus.
    assert (H1 : lo * c <= x * c) by now apply Qmult_le_compat_r.
    assert (H2 : x * c <= hi * c) by now apply Qmult_le_compat_r.
    destruct IH as [IHlo IHhi]. change (inject_Z 1) with 1.
    set (N := inject_Z (Z.of_nat (length l))) in *.
    set (S := foldl Qplus 0 (map (fun q => q * c) l)) in *.
    split; nra.
Qed.

(** X10.  A moving average never leaves the range of the data: when every
    value is a finite number between [lo] and [hi], so is every value
    [calculate_moving_average] returns, in exact arithmetic. *)
Theorem moving_average_within_range (data out : list fl) (window : Z) (lo hi : Q) :
  Forall (valued (between lo hi)) data ->
  calculate_moving_average data window = Ok out ->
  Forall (valued (between lo hi)) out.
Proof.
  intros Hdata Hout.
  destruct (Z.le_gt_cases window 0) as [Hle|Hpos].
  { rewrite (moving_average_bad_window data window Hle) in Hout. discriminate. }
  destruct (Z.lt_ge_cases (Z.of_nat (length data)) window) as [Hlt|Hge].
  { unfold calculate_moving_average in Hout.
    destruct (Z.ltb_spec (Z.of_nat (length data)) window) as [_|]; [|lia].
    now injection Hout as <-. }
  rewrite (moving_average_windows data window) in Hout by lia.
  injection Hout as <-.
  destruct (valued_map _ _ Hdata) as (qs & -> & Hqs).
  rewrite length_map in *.
  apply Forall_forall. intros x (k & <- & Hk%in_seq)%list_elem_of_In%in_map_iff.
  rewrite <- fmap_drop, <- fmap_take.
  change (fmap Fin) with (map Fin). rewrite map_map.
  change (map (fun x => (Fin x * Fin (1 / inject_Z window))%fl) ?l)
    with (map (fun x => Fin (x * (1 / inject_Z window))) l).
  rewrite <- (map_map (fun q => q * (1 / inject_Z window)) Fin).
  unfold np_sum. rewrite foldl_fadd_fin.
  eexists. split; [reflexivity|].
  set (w := take (Z.to_nat window) (drop k qs)).
  assert (Hlen : length w = Z.to_nat window).
  { unfold w. rewrite length_take, length_drop. lia. }
  assert (Hw : Forall (between lo hi) w).
  { unfold w. apply Forall_take, Forall_drop, Hqs. }
  assert (Hpos' : 0 < inject_Z window) by (rewrite <- (Zlt_Qlt 0); lia).
  assert (Hc : 0 <= 1 / inject_Z window).
  { apply Qle_shift_div_l; [exact Hpos' | lra]. }
  pose proof (sum_scaled_between lo hi _ w Hc Hw) as [Hlo Hhi].
  rewrite Hlen, Z2Nat.id in Hlo, Hhi by lia.
  assert (Hone : inject_Z window * (1 / inject_Z window) == 1).
  { field. intros Hz. rewrite Hz in Hpos'. now apply Qlt_irrefl in Hpos'. }
  unfold between. rewrite Hone in Hlo, Hhi. split; lra.
Qed.

Lemma moving_average_within_range_witness :
  Forall (valued (between 1 6)) smooth_averages.
Proof.
  apply (moving_average_within_range smooth_series smooth_averages 3 1 6).
  - unfold smooth_series.
    repeat (constructor; [eexists; split; [reflexivity | unfold between; lra]|]).
    constructor.
  - vm_compute. reflexivity.
Defined.

(** ** Scores and outliers *)

Lemma not_nan_finite (l : list fl) : Forall finite l -> not_nan l = l.
Proof.
  unfold not_nan. induction 1 as [|x l Hx _ IH]; simpl; [reflexivity|].
  destruct x; try discriminate. simpl. now rewrite IH.
Qed.


Section Scores.
Context {libm : Libm}.




Lemma Forall2_map_diag {A B} (R : A -> B -> Prop) (f : A -> B) (l : list A) :
  (forall x, R x (f x)) -> Forall2 R l (map f l).
Proof. intros H. induction l; simpl; constructor; auto. Qed.

(** X13.  With a threshold that is not negative, [detect_outliers] returns
    one flag per value and never flags a missing value, whatever the
    method. *)
Theorem detect_outliers_spares_missing (data : list fl) (method : string) (threshold : fl) :
  fle (of_Z 0) threshold = true ->
  Forall2 spares_missing data (detect_outliers data method threshold).
Proof.
  intros Ht. unfold detect_outliers, spares_missing.
  destruct (String.eqb method "iqr").
  { apply Forall2_map_diag. intros x Hx. destruct x; try discriminate.
    unfold fgt. simpl. now destruct (_ - _)%fl, (_ + _)%fl. }
  destruct (String.eqb method "zscore"); [|now apply Forall2_map_diag].
  unfold calculate_zscore. destruct (feqb _ _); rewrite !map_map.
  - apply Forall2_map_diag. intros x _. unfold fgt, flt. simpl.
    destruct threshold; try discriminate; simpl in *; try reflexivity.
    change (Z.abs 0 # 1) with (inject_Z 0). now rewrite Ht.
  - apply Forall2_map_diag. intros x Hx. destruct x; try discriminate.
    unfold fgt. simpl. now destruct threshold.
Qed.

End Scores.



Lemma detect_outliers_spares_missing_witness :
  Forall2 spares_missing flat_sample (@detect_outliers sample_libm flat_sample "zscore" (of_Z 3)).
Proof.
  apply (@detect_outliers_spares_missing sample_libm flat_sample "zscore" (of_Z 3)).
  reflexivity.
Defined.

(** ** The two outlier rules agree *)

Lemma feq_refl (x : fl) : feq x x.
Proof. destruct x; simpl; auto. apply Qeq_refl. Qed.

Lemma fsign_feq (x y : fl) : feq x y -> fsign x = fsign y.
Proof.
  destruct x as [a| | |], y as [b| | |]; simpl; try tauto. intros Hab.
  assert (H1 : Qeq_bool a 0 = Qeq_bool b 0) by now rewrite Hab.
  assert (H2 : Qle_bool 0 a = Qle_bool 0 b) by now rewrite Hab.
  now rewrite H1, H2.
Qed.

Lemma fopp_feq (x y : fl) : feq x y -> feq (fopp x) (fopp y).
Proof.
  destruct x as [a| | |], y as [b| | |]; simpl; try tauto. intros Hab. now rewrite Hab.
Qed.

Lemma fadd_feq (x x' y y' : fl) : feq x x' -> feq y y' -> feq (x + y)%fl (x' + y')%fl.
Proof.
  destruct x as [a| | |], x' as [a'| | |]; simpl; try tauto;
    destruct y as [b| | |], y' as [b'| | |]; simpl; try tauto.
  intros Ha Hb. now rewrite Ha, Hb.
Qed.

Lemma fsub_feq (x x' y y' : fl) : feq x x' -> feq y y' -> feq (x - y)%fl (x' - y')%fl.
Proof. intros Hx Hy. apply fadd_feq; [exact Hx | now apply fopp_feq]. Qed.

Lemma fmul_feq (x x' y y' : fl) : feq x x' -> feq y y' -> feq (x * y)%fl (x' * y')%fl.
Proof.
  intros Hx Hy.
  pose proof (fsign_feq x x' Hx) as Hsx. pose proof (fsign_feq y y' Hy) as Hsy.
  destruct x as [a| | |], x' as [a'| | |]; simpl in Hx; try tauto;
    destruct y as [b| | |], y' as [b'| | |]; simpl in Hy; try tauto;
    try exact I; unfold fmul.
  1: { simpl. now rewrite Hx, Hy. }
  all: match goal with
       | |- feq (of_sign (fsign (Fin _) * _)) _ => rewrite Hsx; apply feq_refl
       | |- feq (of_sign (_ * fsign (Fin _))) _ => rewrite Hsy; apply feq_refl
       | |- _ => exact I
       end.
Qed.

Lemma fle_feq (x x' y y' : fl) : feq x x' -> feq y y' -> fle x y = fle x' y'.
Proof.
  destruct x as [a| | |], x' as [a'| | |]; simpl; try tauto;
    destruct y as [b| | |], y' as [b'| | |]; simpl; try tauto.
  intros Ha Hb. now rewrite Ha, Hb.
Qed.

Lemma lerp_feq (a b : fl) (t t' : Q) : t == t' -> feq (lerp a b t) (lerp a b t').
Proof.
  intros Ht. unfold lerp.
  assert (Hb : Qle_bool (1 # 2) t' = Qle_bool (1 # 2) t) by now rewrite Ht.
  rewrite Hb. destruct (Qle_bool (1 # 2) t).
  - apply fsub_feq; [apply feq_refl|]. apply fmul_feq; [apply feq_refl|].
    simpl. now rewrite Ht.
  - apply fadd_feq; [apply feq_refl|]. apply fmul_feq; [apply feq_refl | exact Ht].
Qed.

Lemma quantile_feq (l : list fl) (q q' : Q) :
  q == q' -> feq (np_quantile l q) (np_quantile l q').
Proof.
  intros Hq. unfold np_quantile. cbv zeta.
  destruct (existsb isnan l); [exact I|].
  destruct (length l =? 0)%nat; [exact I|].
  set (N := inject_Z (Z.of_nat (length l - 1))).
  assert (Hf : Qfloor (N * q') = Qfloor (N * q)) by (apply Qfloor_comp; now rewrite Hq).
  rewrite Hf. apply lerp_feq. unfold Qminus.
  apply Qplus_comp; [|reflexivity]. apply Qmult_comp; [reflexivity | exact Hq].
Qed.

(** For numbers, being inside the fence is not being flagged. *)
Lemma inside_not_flagged (x lo hi lo' hi' : fl) :
  finite x -> finite lo -> finite hi -> feq lo lo' -> feq hi hi' ->
  fge x lo && fle x hi = negb (flt x lo' || fgt x hi').
Proof.
  intros Hx Hlo Hhi Hl Hh. unfold fge, fgt.
  rewrite (fle_feq lo lo' x x Hl (feq_refl x)), (fle_feq x x hi hi' (feq_refl x) Hh).
  destruct x; try discriminate. destruct lo; try discriminate. destruct hi; try discriminate.
  destruct lo'; simpl in Hl; try tauto. destruct hi'; simpl in Hh; try tauto.
  simpl. now rewrite negb_orb, !negb_involutive.
Qed.

Lemma finite_fl_ops (x y : fl) :
  finite x -> finite y -> finite (x + y)%fl /\ finite (x - y)%fl /\ finite (x * y)%fl.
Proof. destruct x, y; try discriminate. intros _ _. repeat split. Qed.

Lemma clean_data_tidy {mode : PandasMode} (d : DataFrame) :
  df_empty d = false -> tidy d = true -> has_column d "value" = true ->
  clean_data (Some d) = Some <$> remove_outliers d.
Proof.
  unfold tidy. intros Hne [[Hrect Hdist]%andb_prop Hfull]%andb_prop Hvalue.
  unfold clean_data. rewrite Hne, (drop_duplicates_distinct d Hdist).
  rewrite (impute_nothing impute_number), (impute_nothing impute_object).
  - now rewrite Hvalue.
  - apply Forall_forall. intros k Hk%list_elem_of_In%positions_of_lt.
    unfold impute_object. now rewrite complete_no_null.
  - apply Forall_forall. intros k Hk%list_elem_of_In%positions_of_lt.
    unfold impute_number. now rewrite complete_no_null.
Qed.

Lemma mapM_compare_numbers (op : fl -> fl -> bool) (v : fl) (k : nat) (rs : list row) :
  Forall (fun r => finite (cell_fl (cell_at k r))) rs ->
  mapM (compare_cell op v) (map (cell_at k) rs)
  = Ok (map (fun r => op (cell_fl (cell_at k r)) v) rs).
Proof.
  induction 1 as [|r rs Hr _ IH]; simpl; [reflexivity|].
  destruct (cell_at k r) as [x|]; [|discriminate]. simpl. now rewrite IH.
Qed.

Lemma mask_and_maps {A} (f g : A -> bool) (l : list A) :
  mask_and (map f l) (map g l) = map (fun x => f x && g x) l.
Proof. unfold mask_and. induction l; simpl; congruence. Qed.

Section Outliers.
Context {libm : Libm}.

(** X14.  The two outlier rules of the code agree.  On a frame with rows,
    nothing to deduplicate or fill in, and finite values, [clean_data]
    removes exactly the rows that [detect_outliers] flags with the method
    ['iqr'] and the threshold 3. *)
Theorem clean_data_removes_flagged_rows {mode : PandasMode} (d d' : DataFrame) (k : nat) :
  df_empty d = false -> tidy d = true ->
  col_index "value" (columns d) = Some k ->
  Forall finite (column_values d k) ->
  clean_data (Some d) = Ok (Some d') ->
  columns d' = columns d
  /\ rows d' = unflagged d (detect_outliers (column_values d k) "iqr" (of_Z 3)).
Proof.
  intros Hne Htidy Hk Hfin Hclean.
  assert (Hvalue : has_column d "value" = true) by (unfold has_column; now rewrite Hk).
  rewrite (clean_data_tidy d Hne Htidy Hvalue) in Hclean.
  destruct (remove_outliers d) as [d1|] eqn:Hout; [|discriminate].
  injection Hclean as ->.
  unfold remove_outliers, getitem in Hout. rewrite Hk in Hout.
  cbn [mbind result_bind] in Hout.
  unfold value_fence, series_quantile, numeric_only in Hout. cbn [sdtype svalues] in Hout.
  destruct (col_dtype k d); [|discriminate]. cbn [mbind result_bind mret result_ret] in Hout.
  unfold series_ge, series_le in Hout. cbn [svalues] in Hout.
  assert (Hcells : Forall (fun r => finite (cell_fl (cell_at k r))) (rows d)).
  { pose proof Hfin as Hall. rewrite Forall_forall in Hall.
    apply Forall_forall. intros r Hr. apply Hall.
    unfold column_values. apply list_elem_of_In, in_map_iff.
    exists r. split; [reflexivity | now apply list_elem_of_In]. }
  rewrite !(mapM_compare_numbers _ _ k (rows d) Hcells) in Hout.
  cbn [mbind result_bind] in Hout. injection Hout as <-.
  split; [reflexivity|]. unfold getitem_mask, unflagged. cbn [rows].
  rewrite mask_and_maps. unfold detect_outliers. cbn [String.eqb Ascii.eqb Bool.eqb].
  unfold column_values. rewrite !map_map. f_equal.
  unfold dropna. cbn [svalues]. rewrite map_map.
  fold (column_values d k). fold (not_nan (column_values d k)).
  rewrite (not_nan_finite _ Hfin).
  destruct (rows d) as [|r0 rs] eqn:Hrows; [reflexivity|].
  assert (Hobs : column_values d k <> []) by (unfold column_values; now rewrite Hrows).
  rewrite <- Hrows in *. 
  pose proof (quantile_valued (fun _ => True) (column_values d k) (1 # 4) convex_any) as H1.
  pose proof (quantile_valued (fun _ => True) (column_values d k) (3 # 4) convex_any) as H3.
  assert (Hval : Forall (valued (fun _ => True)) (column_values d k)).
  { eapply Forall_impl; [exact Hfin | apply finite_valued]. }
  specialize (H1 ltac:(lra) Hobs Hval). specialize (H3 ltac:(lra) Hobs Hval).
  apply valued_finite in H1, H3.
  set (Q1 := np_quantile (column_values d k) (1 # 4)) in *.
  set (Q3 := np_quantile (column_values d k) (3 # 4)) in *.
  assert (E1 : feq Q1 (np_nanpercentile (column_values d k) 25)).
  { unfold np_nanpercentile, np_percentile. rewrite (not_nan_finite _ Hfin).
    apply quantile_feq. reflexivity. }
  assert (E3 : feq Q3 (np_nanpercentile (column_values d k) 75)).
  { unfold np_nanpercentile, np_percentile. rewrite (not_nan_finite _ Hfin).
    apply quantile_feq. reflexivity. }
  set (q1 := np_nanpercentile (column_values d k) 25) in *.
  set (q3 := np_nanpercentile (column_values d k) 75) in *.
  apply map_ext_in. intros r Hr.
  rewrite Forall_forall in Hcells.
  apply inside_not_flagged.
  - apply Hcells. now apply list_elem_of_In.
  - destruct (finite_fl_ops Q3 Q1 H3 H1) as (_ & Hd & _).
    destruct (finite_fl_ops (of_Z 3) (Q3 - Q1)%fl eq_refl Hd) as (_ & _ & Hm).
    now destruct (finite_fl_ops Q1 (of_Z 3 * (Q3 - Q1))%fl H1 Hm) as (_ & Hs & _).
  - destruct (finite_fl_ops Q3 Q1 H3 H1) as (_ & Hd & _).
    destruct (finite_fl_ops (of_Z 3) (Q3 - Q1)%fl eq_refl Hd) as (_ & _ & Hm).
    now destruct (finite_fl_ops Q3 (of_Z 3 * (Q3 - Q1))%fl H3 Hm) as (Hs & _ & _).
  - exact (fsub_feq Q1 q1 (of_Z 3 * (Q3 - Q1))%fl (of_Z 3 * (q3 - q1))%fl E1
             (fmul_feq (of_Z 3) (of_Z 3) (Q3 - Q1)%fl (q3 - q1)%fl (feq_refl _)
                (fsub_feq Q3 q3 Q1 q1 E3 E1))).
  - exact (fadd_feq Q3 q3 (of_Z 3 * (Q3 - Q1))%fl (of_Z 3 * (q3 - q1))%fl E3
             (fmul_feq (of_Z 3) (of_Z 3) (Q3 - Q1)%fl (q3 - q1)%fl (feq_refl _)
                (fsub_feq Q3 q3 Q1 q1 E3 E1))).
Qed.

End Outliers.

Lemma clean_data_removes_flagged_rows_witness :
  columns outlier_cleaned = columns outlier_frame
  /\ rows outlier_cleaned
     = unflagged outlier_frame
         (@detect_outliers sample_libm (column_values outlier_frame 1) "iqr" (of_Z 3)).
Proof.
  apply (@clean_data_removes_flagged_rows sample_libm pandas_3 outlier_frame
           outlier_cleaned 1%nat).
  - reflexivity.
  - reflexivity.
  - reflexivity.
  - unfold outlier_frame, column_values. simpl.
    repeat (constructor; [reflexivity|]). constructor.
  - vm_compute. reflexivity.
Defined.

(** ** More on the models *)

Lemma sum_between (lo hi : Q) (qs : list Q) :
  Forall (between lo hi) qs ->
  inject_Z (Z.of_nat (length qs)) * lo
  <= foldl Qplus 0 qs
  <= inject_Z (Z.of_nat (length qs)) * hi.
Proof.
  induction 1 as [|x l [Hlo Hhi] _ IH].
  - simpl. split; apply Qle_lteq; right; ring.
  - cbn [foldl length]. rewrite foldl_Qplus_shift.
    rewrite Nat2Z.inj_succ, <- Z.add_1_l, inject_Z_plus.
    destruct IH as [IHlo IHhi]. change (inject_Z 1) with 1.
    set (N := inject_Z (Z.of_nat (length l))) in *.
    set (S := foldl Qplus 0 l) in *.
    split; nra.
Qed.

(** The mean of numbers between two bounds lies between them. *)
Lemma mean_between (lo hi : Q) (l : list fl) :
  l <> [] -> Forall (valued (between lo hi)) l -> valued (between lo hi) (np_mean l).
Proof.
  intros Hne Hall. destruct (valued_map _ _ Hall) as (qs & -> & Hqs).
  assert (Hq : qs <> []) by (intros ->; now apply Hne).
  rewrite (np_mean_fin qs Hq). eexists. split; [reflexivity|].
  pose proof (sum_between lo hi qs Hqs) as [Hlo Hhi].
  assert (Hpos : 0 < inject_Z (Z.of_nat (length qs))).
  { apply count_positive. destruct qs; [congruence | simpl; lia]. }
  unfold between. split.
  - apply Qle_shift_div_l; [exact Hpos|]. lra.
  - apply Qle_shift_div_r; [exact Hpos|]. lra.
Qed.

Lemma zip_with_fin (op : Q -> Q -> Q) (fop : fl -> fl -> fl) (a b : list Q) :
  (forall x y, In x a -> In y b -> fop (Fin x) (Fin y) = Fin (op x y)) ->
  zip_with fop (map Fin a) (map Fin b) = map Fin (zip_with op a b).
Proof.
  revert b. induction a as [|x a IH]; intros [|y b] Hop; simpl; try reflexivity.
  rewrite Hop by (simpl; auto). f_equal. apply IH.
  intros x' y' Hx Hy. apply Hop; simpl; auto.
Qed.

Section More.
Context {libm : Libm} {sklearn : Sklearn}.

Lemma adjusted_r2_value (q : Q) (n p : Z) :
  (0 < n - p - 1)%Z ->
  exists a, adjusted_r2_formula (Fin q) n p = Ok (Fin a)
            /\ a == 1 - (1 - q) * inject_Z (n - 1) / inject_Z (n - p - 1).
Proof.
  intros Hd. unfold adjusted_r2_formula, scalar_truediv.
  assert (Hz : Qeq_bool (inject_Z (n - p - 1)) 0 = false).
  { apply not_true_is_false. intros Hq%Qeq_bool_iff.
    assert (H0 : 0 < inject_Z (n - p - 1)) by (rewrite <- (Zlt_Qlt 0); lia).
    rewrite Hq in H0. now apply Qlt_irrefl in H0. }
  assert (Hdiv : (((of_Z 1 - Fin q) * of_Z (n - 1)) / of_Z (n - p - 1))%fl
                 = Fin ((inject_Z 1 + - q) * inject_Z (n - 1) / inject_Z (n - p - 1))).
  { unfold of_Z. simpl. now rewrite Hz. }
  destruct metrics_are_numpy_scalars.
  - rewrite Hdiv. cbn [mbind result_bind mret result_ret].
    eexists. split; [reflexivity|]. change (inject_Z 1) with 1. unfold Qminus. reflexivity.
  - destruct (Z.eqb_spec (n - p - 1) 0) as [|_]; [lia|].
    rewrite Hdiv. cbn [mbind result_bind mret result_ret].
    eexists. split; [reflexivity|]. change (inject_Z 1) with 1. unfold Qminus. reflexivity.
Qed.

Lemma adjusted_below (q : Q) (n p : Z) :
  q <= 1 -> (0 <= p)%Z -> (0 < n - p - 1)%Z ->
  1 - (1 - q) * inject_Z (n - 1) / inject_Z (n - p - 1) <= q.
Proof.
  intros Hq Hp Hd.
  assert (H0 : 0 < inject_Z (n - p - 1)) by (rewrite <- (Zlt_Qlt 0); lia).
  assert (Hn : inject_Z (n - 1) == inject_Z (n - p - 1) + inject_Z p).
  { rewrite <- inject_Z_plus. replace (n - p - 1 + p)%Z with (n - 1)%Z by lia. reflexivity. }
  assert (Hp' : 0 <= inject_Z p) by (rewrite <- (Zle_Qle 0); lia).
  assert (Hfrac : (1 - q) <= (1 - q) * inject_Z (n - 1) / inject_Z (n - p - 1)).
  { apply Qle_shift_div_l; [exact H0|]. rewrite Hn. nra. }
  lra.
Qed.

(** X15.  With more complete rows than features plus one, the division in
    the adjusted R-squared is by a positive number: for a score that is a
    finite number not above 1, [perform_regression] returns an adjusted
    R-squared that is a finite number not above the score. *)
Theorem perform_regression_adjusted_r2_bounded (X : x_arg) (y : y_arg) (mask : list bool)
    (m : fitted) (y_pred : list fl) (q : Q) (msev maev : fl) :
  nan_mask (as_matrix X) (as_vector y) = Ok mask ->
  mrows (complete_rows X mask) <> [] -> complete_targets y mask <> [] ->
  fit LinearRegression (complete_rows X mask) (complete_targets y mask) = Ok m ->
  predict m (complete_rows X mask) = Ok y_pred ->
  r2_score (complete_targets y mask) y_pred = Ok (Fin q) ->
  mean_squared_error (complete_targets y mask) y_pred = Ok msev ->
  mean_absolute_error (complete_targets y mask) y_pred = Ok maev ->
  q <= 1 ->
  (ncols (complete_rows X mask) + 1 < length (complete_targets y mask))%nat ->
  exists r a,
    perform_regression X y = Ok r
    /\ r2 r = Fin q /\ adjusted_r2 r = Fin a /\ a <= q.
Proof.
  intros Hmask HX Hy Hfit Hpred Hr2 Hmse Hmae Hq Hrows.
  rewrite (perform_regression_fitted X y mask m y_pred (Fin q) msev maev) by assumption.
  destruct (adjusted_r2_value q (Z.of_nat (length (complete_targets y mask)))
              (Z.of_nat (ncols (complete_rows X mask)))) as (a & -> & Ha); [lia|].
  cbn [mbind result_bind mret result_ret].
  eexists _, a. split; [reflexivity|]. split; [reflexivity|]. split; [reflexivity|].
  rewrite Ha. apply adjusted_below; [exact Hq | lia | lia].
Qed.

(** X16.  In exact arithmetic (no rounding, no overflow), without a zero
    among the true values the percentage error is a number: for finite
    inputs of one length, whenever [evaluate_model] returns, its MAPE is
    finite and not negative. *)
Theorem evaluate_model_mape_finite (y_true y_pred : list fl) (d : dict) :
  y_true <> [] -> length y_true = length y_pred ->
  Forall (valued nonzero) y_true -> Forall finite y_pred ->
  evaluate_model y_true y_pred = Ok d ->
  field d "mape" (valued (fun q => 0 <= q)).
Proof.
  intros Hne Hlen Htrue Hpred. unfold evaluate_model, elementwise.
  destruct (r2_score y_true y_pred) as [r2v|]; [|discriminate].
  destruct (mean_squared_error y_true y_pred) as [msev|]; [|discriminate].
  destruct (mean_absolute_error y_true y_pred) as [maev|]; [|discriminate].
  cbn [mbind result_bind]. rewrite Hlen, Nat.eqb_refl. cbn [mbind result_bind].
  rewrite length_zip_with, <- Hlen, Nat.min_id, Nat.eqb_refl. cbn [mbind result_bind].
  intros [= <-]. eexists. split; [reflexivity|].
  destruct (valued_map _ _ Htrue) as (ts & -> & Hts).
  destruct (all_finite_map y_pred Hpred) as (ps & ->).
  rewrite !length_map in Hlen.
  rewrite (zip_with_fin (fun t p => t + - p) fsub ts ps) by reflexivity.
  rewrite (zip_with_fin Qdiv fdiv).
  2:{ intros x t _ Ht. rewrite Forall_forall in Hts.
      specialize (Hts t (proj2 (list_elem_of_In _ _) Ht)). simpl.
      destruct (Qeq_bool t 0) eqn:Hz; [|reflexivity].
      apply Qeq_bool_iff in Hz. now apply Hts in Hz. }
  rewrite map_map.
  replace (map (fun x => fabs (Fin x)) (zip_with Qdiv (zip_with (fun t p => t + - p) ts ps) ts))
    with (map Fin (map Qabs (zip_with Qdiv (zip_with (fun t p => t + - p) ts ps) ts)))
    by now rewrite map_map.
  set (errs := map Qabs _).
  assert (Herrs : errs <> []).
  { unfold errs. destruct ts as [|t ts]; [now contradiction Hne|].
    destruct ps; [discriminate|]. discriminate. }
  rewrite (np_mean_fin errs Herrs). eexists. split; [reflexivity|].
  assert (Hsum : 0 <= foldl Qplus 0 errs).
  { apply foldl_Qplus_nonneg. apply Forall_forall.
    intros x (e & <- & _)%list_elem_of_In%in_map_iff. apply Qabs_nonneg. }
  assert (Hpos : 0 < inject_Z (Z.of_nat (length errs))).
  { apply count_positive. destruct errs; [congruence | simpl; lia]. }
  apply Qmult_le_0_compat; [|discriminate].
  apply Qle_shift_div_l; [exact Hpos | lra].
Qed.

(** X17.  [cross_validate_model] validates nothing when fewer complete rows
    are left than folds: it returns zeros and no scores, whatever the model
    type; and a model type outside the three known names is validated as a
    linear regression. *)
Theorem cross_validate_model_fallbacks (data : DataFrame) (target : string)
    (features : list string) (model_type : string) (cv : Z) :
  (forall X y, prepare data target features = Ok (X, y) ->
               (Z.of_nat (length (mrows X)) < cv)%Z ->
               cross_validate_model data target features model_type cv = Ok no_scores)
  /\ (~ In model_type ML_MODELS ->
      cross_validate_model data target features model_type cv
      = cross_validate_model data target features "Linear Regression" cv).
Proof.
  split.
  - intros X y Hprep Hfew. unfold cross_validate_model. rewrite Hprep.
    cbn [mbind result_bind].
    destruct (Z.ltb_spec (Z.of_nat (length (mrows X))) cv) as [_|]; [reflexivity | lia].
  - apply cross_validate_unknown_type_is_linear.
Qed.

Lemma predict_rows (model : fitted) (X : ndarray2) (pred : list fl) :
  predict model X = Ok pred -> pred = map (predict_row model) (mrows X).
Proof.
  unfold predict. destruct (length (mrows X) =? 0)%nat; [discriminate|].
  destruct (_ && _); [|discriminate]. now intros [= <-].
Qed.

(** X18.  In exact arithmetic (no rounding), an ensemble never predicts
    outside the range of its members: when every model's prediction on
    every row is a finite number between [lo] and [hi],
    [create_ensemble_prediction] returns one value per row, each between
    [lo] and [hi]. *)
Theorem ensemble_within_members (models : list fitted) (X : ndarray2) (lo hi : Q)
    (out : ensemble) :
  models <> [] ->
  predicting (valued (between lo hi)) models X ->
  create_ensemble_prediction models X = Ok out ->
  exists v, out = EArray v
            /\ length v = length (mrows X)
            /\ Forall (valued (between lo hi)) v.
Proof.
  intros Hne Hall. unfold create_ensemble_prediction.
  destruct (mapM (fun model => predict model X) models) as [predictions|] eqn:Hpreds;
    [|discriminate].
  cbn [mbind result_bind]. apply mapM_result_Forall2 in Hpreds.
  assert (Heach : Forall (fun pred => length pred = length (mrows X)
                                      /\ Forall (valued (between lo hi)) pred) predictions).
  { unfold predicting in Hall. clear Hne.
    induction Hpreds as [|model pred ms ps Hp _ IH]; [constructor|].
    inversion Hall as [|? ? Hm Hms]; subst. constructor; [|now apply IH].
    apply predict_rows in Hp as ->. split; [apply length_map|].
    apply Forall_forall. intros x (r & <- & Hr)%list_elem_of_In%in_map_iff.
    rewrite Forall_forall in Hm. apply Hm. now apply list_elem_of_In. }
  destruct predictions as [|p0 ps] eqn:Hps.
  { inversion Hpreds; subst. congruence. }
  rewrite <- Hps in *. intros [= <-]. eexists. split; [reflexivity|].
  split; [now rewrite length_map, length_seq|].
  apply Forall_forall. intros x (i & <- & Hi%in_seq)%list_elem_of_In%in_map_iff.
  apply mean_between.
  - rewrite Hps. discriminate.
  - apply Forall_forall. intros z (pred & <- & Hin)%list_elem_of_In%in_map_iff.
    rewrite Forall_forall in Heach.
    destruct (Heach pred (proj2 (list_elem_of_In _ _) Hin)) as [Hlen Hval].
    apply item_Forall; [exact Hval | lia].
Qed.

End More.

Lemma perform_regression_adjusted_r2_bounded_witness :
  exists r a,
    @perform_regression sample_libm (sample_sklearn false) three_points three_targets = Ok r
    /\ r2 r = Fin three_r2 /\ adjusted_r2 r = Fin a /\ a <= three_r2.
Proof.
  eapply (@perform_regression_adjusted_r2_bounded sample_libm (sample_sklearn false)
            three_points three_targets [true; true; true]);
    first [ discriminate | reflexivity | (simpl; lia) ].
Defined.

Lemma evaluate_model_mape_finite_witness :
  field fair_metrics "mape" (valued (fun q => 0 <= q)).
Proof.
  apply (@evaluate_model_mape_finite sample_libm (sample_sklearn false)
           [Fin 1; Fin 2] [Fin 1; Fin 1] fair_metrics).
  - discriminate.
  - reflexivity.
  - repeat (constructor; [eexists; split; [reflexivity | intros H; discriminate H]|]).
    constructor.
  - repeat (constructor; [reflexivity|]). constructor.
  - vm_compute. reflexivity.
Defined.

Lemma cross_validate_model_fallbacks_witness :
  @cross_validate_model sample_libm (sample_sklearn false) missing_frame "value"
     ["year"%string] "XGBoost" 5
  = Ok no_scores
  /\ @cross_validate_model sample_libm (sample_sklearn false) outlier_frame "value"
       ["year"%string] "XGBoost" 5
     = @cross_validate_model sample_libm (sample_sklearn false) outlier_frame "value"
         ["year"%string] "Linear Regression" 5.
Proof.
  split.
  - apply (proj1 (@cross_validate_model_fallbacks sample_libm (sample_sklearn false)
                    missing_frame "value" ["year"%string] "XGBoost" 5)
             {| ncols := 1; mrows := [] |} []); [reflexivity | simpl; lia].
  - apply (proj2 (@cross_validate_model_fallbacks sample_libm (sample_sklearn false)
                    outlier_frame "value" ["year"%string] "XGBoost" 5)).
    simpl. intros [H | [H | [H | []]]]; discriminate H.
Defined.

Lemma ensemble_within_members_witness :
  exists v, ensemble_example = EArray v
            /\ length v = length (mrows two_rows)
            /\ Forall (valued (between 1 3)) v.
Proof.
  apply (@ensemble_within_members (sample_sklearn false)
           [(Fin 1, 1%nat); (Fin 3, 1%nat)] two_rows 1 3 ensemble_example).
  - discriminate.
  - unfold predicting, two_rows. simpl.
    repeat (constructor;
            [repeat (constructor; [eexists; split; [reflexivity | unfold between; lra]|]);
             constructor|]).
    constructor.
  - vm_compute. reflexivity.
Defined.

(** ** The summary stays within the data *)

Lemma lerp_between (lo hi : Q) (x y : fl) (t : Q) :
  0 <= t <= 1 ->
  valued (between lo hi) x -> valued (between lo hi) y ->
  valued (between lo hi) (lerp x y t).
Proof.
  intros [Ht0 Ht1] (a & -> & Ha) (b & -> & Hb). unfold lerp. simpl.
  unfold between in *.
  destruct (Qle_bool (1 # 2) t); eexists; (split; [reflexivity|]); split; nra.
Qed.

Lemma fraction_bounds (h : Q) : 0 <= h - inject_Z (Qfloor h) <= 1.
Proof.
  pose proof (Qfloor_le h) as Hlo. pose proof (Qlt_floor h) as Hhi.
  rewrite inject_Z_plus in Hhi. change (inject_Z 1) with 1 in Hhi.
  split; lra.
Qed.

Lemma quantile_between (lo hi : Q) (l : list fl) (q : Q) :
  0 <= q <= 1 -> l <> [] -> Forall (valued (between lo hi)) l ->
  valued (between lo hi) (np_quantile l q).
Proof.
  intros Hq Hne Hall. unfold np_quantile.
  rewrite (valued_no_nan _ l Hall).
  assert (Hlen : (0 < length l)%nat) by (destruct l; [congruence | simpl; lia]).
  destruct (Nat.eqb_spec (length l) 0) as [|_]; [lia|].
  pose proof (np_sort_Forall _ _ Hall) as Hs.
  pose proof (np_sort_length l) as Hsl.
  pose proof (virtual_index_bound (length l) q Hlen Hq) as Hi.
  apply lerp_between; [apply fraction_bounds | |]; apply item_Forall; auto; lia.
Qed.

Lemma median_between (lo hi : Q) (l : list fl) :
  l <> [] -> Forall (valued (between lo hi)) l -> valued (between lo hi) (np_median l).
Proof.
  intros Hne Hall. unfold np_median.
  rewrite (valued_no_nan _ l Hall).
  assert (Hlen : (0 < length l)%nat) by (destruct l; [congruence | simpl; lia]).
  destruct (Nat.eqb_spec (length l) 0) as [|_]; [lia|].
  pose proof (np_sort_Forall _ _ Hall) as Hs.
  pose proof (np_sort_length l) as Hsl.
  assert (Hhalf : (length l / 2 < length l)%nat) by (apply Nat.div_lt; lia).
  destruct (Nat.odd (length l)).
  - apply item_Forall; [exact Hs | lia].
  - apply mean_between; [discriminate|].
    constructor; [apply item_Forall; [exact Hs | lia]|].
    constructor; [apply item_Forall; [exact Hs | lia]|]. constructor.
Qed.

(** The smallest value is not above the first, the largest not below it. *)
Lemma min_max_order (x : Q) (qs : list Q) :
  exists m M, foldl fmin (Fin x) (map Fin qs) = Fin m
              /\ foldl fmax (Fin x) (map Fin qs) = Fin M
              /\ m <= x <= M.
Proof.
  revert x. induction qs as [|q qs IH]; intros x.
  - exists x, x. repeat split; apply Qle_refl.
  - cbn [map foldl]. unfold fmin at 2, fmax at 2. simpl.
    destruct (Qle_bool x q) eqn:Hle.
    + apply Qle_bool_iff in Hle.
      destruct (IH x) as (m & _ & Hm & _ & [Hmx _]).
      destruct (IH q) as (_ & M & _ & HM & [_ HqM]).
      exists m, M. repeat split; auto. lra.
    + assert (Hlt : q <= x).
      { destruct (Qlt_le_dec x q) as [H|H]; [|exact H].
        apply Qlt_le_weak, Qle_bool_iff in H. congruence. }
      destruct (IH q) as (m & _ & Hm & _ & [Hmq _]).
      destruct (IH x) as (_ & M & _ & HM & [_ HxM]).
      exists m, M. repeat split; auto. lra.
Qed.

Section Range.
Context {libm : Libm} {scipy : SciPy}.

(** X19.  In exact arithmetic (no rounding, no overflow), the summary
    stays within the data.  When the observations (the values that are not
    [NaN]) are finite numbers between [lo] and [hi],
    [get_summary_statistics] returns mean, median, minimum, maximum and the
    three quartiles between [lo] and [hi], a range between 0 and
    [hi - lo], and a variance that is not negative. *)
Theorem summary_statistics_within_range (data : stats_arg) (lo hi : Q) :
  observations data <> [] ->
  Forall (valued (between lo hi)) (observations data) ->
  exists d,
    get_summary_statistics data = Ok d
    /\ Forall (fun k => field d k (valued (between lo hi))) location_keys
    /\ field d "range" (valued (between 0 (hi - lo)))
    /\ field d "variance" (valued (fun q => 0 <= q)).
Proof.
  intros Hne Hall.
  destruct (observations data) as [|x l] eqn:Hobs; [congruence|].
  rewrite (summary_nonempty data x l Hobs). cbv zeta.
  eexists. split; [reflexivity|].
  assert (Hq : forall p, 0 <= p <= 100 -> valued (between lo hi) (np_percentile (x :: l) p)).
  { intros p Hp. unfold np_percentile.
    apply quantile_between; [now apply percent_bounds | discriminate | exact Hall]. }
  inversion Hall as [|? ? Hx Hl]; subst.
  assert (Hmin : valued (between lo hi) (foldl fmin x l))
    by (apply foldl_valued; auto using fmin_valued).
  assert (Hmax : valued (between lo hi) (foldl fmax x l))
    by (apply foldl_valued; auto using fmax_valued).
  split; [|split].
  - unfold location_keys.
    repeat (constructor; [eexists; split; [reflexivity|]|]); try constructor.
    + now apply mean_between.
    + now apply median_between.
    + exact Hmin.
    + exact Hmax.
    + apply Hq. lra.
    + apply Hq. lra.
    + apply Hq. lra.
  - eexists. split; [reflexivity|].
    destruct Hx as (a & -> & Ha). destruct (valued_map _ _ Hl) as (qs & -> & Hqs).
    destruct (min_max_order a qs) as (m & M & Em & EM & [HmA HAM]).
    rewrite Em in Hmin. rewrite EM in Hmax. rewrite Em, EM.
    destruct Hmin as (m' & [= <-] & Hm). destruct Hmax as (M' & [= <-] & HM).
    eexists. split; [reflexivity|]. unfold between in *. split; lra.
  - eexists. split; [reflexivity|].
    destruct (valued_map _ _ Hall) as (qs & Eqs & _).
    rewrite Eqs. apply var_nonneg. intros ->. discriminate Eqs.
Qed.

End Range.

Lemma summary_statistics_within_range_witness :
  exists d,
    @get_summary_statistics sample_libm sample_scipy gapped_series = Ok d
    /\ Forall (fun k => field d k (valued (between 2 8))) location_keys
    /\ field d "range" (valued (between 0 (8 - 2)))
    /\ field d "variance" (valued (fun q => 0 <= q)).
Proof.
  apply (@summary_statistics_within_range sample_libm sample_scipy gapped_series 2 8).
  - discriminate.
  - simpl.
    repeat (constructor; [eexists; split; [reflexivity | unfold between; lra]|]).
    constructor.
Defined.

(** ** The middle quartile is the median *)

Lemma floor_unique (x : Q) (z : Z) :
  inject_Z z <= x -> x < inject_Z (z + 1) -> Qfloor x = z.
Proof.
  intros Hlo Hhi.
  assert (H1 : (z <= Qfloor x)%Z).
  { apply Qfloor_resp_le in Hlo. now rewrite Qfloor_Z in Hlo. }
  assert (H2 : (Qfloor x < z + 1)%Z).
  { rewrite Zlt_Qlt. eapply Qle_lt_trans; [apply Qfloor_le | exact Hhi]. }
  lia.
Qed.

Lemma half_of_even (k : nat) :
  inject_Z (Z.of_nat (2 * k)) * (50 / 100) == inject_Z (Z.of_nat k).
Proof.
  rewrite Nat2Z.inj_mul, inject_Z_mult. change (inject_Z (Z.of_nat 2)) with 2. field.
Qed.

Lemma half_of_odd (k : nat) :
  inject_Z (Z.of_nat (2 * S k - 1)) * (50 / 100) == inject_Z (Z.of_nat k) + (1 # 2).
Proof.
  replace (2 * S k - 1)%nat with (2 * k + 1)%nat by lia.
  rewrite Nat2Z.inj_add, Nat2Z.inj_mul, inject_Z_plus, inject_Z_mult.
  change (inject_Z (Z.of_nat 2)) with 2. change (inject_Z (Z.of_nat 1)) with 1. field.
Qed.

Lemma percentile_50_median (l : list fl) :
  l <> [] -> Forall finite l -> feq (np_median l) (np_percentile l 50).
Proof.
  intros Hne Hfin.
  assert (Hall : Forall (valued (fun _ => True)) l).
  { eapply Forall_impl; [exact Hfin | apply finite_valued]. }
  unfold np_median, np_percentile, np_quantile.
  rewrite (valued_no_nan _ l Hall).
  assert (Hlen : (0 < length l)%nat) by (destruct l; [congruence | simpl; lia]).
  destruct (Nat.eqb_spec (length l) 0) as [|_]; [lia|].
  pose proof (np_sort_Forall _ _ Hall) as Hs.
  pose proof (np_sort_length l) as Hsl.
  set (s := np_sort l) in *. set (n := length l) in *.
  set (h := inject_Z (Z.of_nat (n - 1)) * (50 / 100)).
  destruct (Nat.odd n) eqn:Hodd.
  - apply Nat.odd_spec in Hodd as (k & Hk).
    assert (Hhalf : (n / 2 = k)%nat).
    { symmetry. apply (Nat.div_unique n 2 k 1); lia. }
    assert (Hh : h == inject_Z (Z.of_nat k)).
    { unfold h. replace (n - 1)%nat with (2 * k)%nat by lia. apply half_of_even. }
    assert (Hfl : Qfloor h = Z.of_nat k) by (rewrite (Qfloor_comp _ _ Hh); apply Qfloor_Z).
    rewrite Hfl, Nat2Z.id, Hhalf.
    destruct (item_Forall _ s k Hs) as (a & -> & _); [lia|].
    destruct (item_Forall _ s (Nat.min (k + 1) (n - 1)) Hs) as (b & -> & _); [lia|].
    assert (Hg : h - inject_Z (Z.of_nat k) == 0) by (rewrite Hh; ring).
    unfold lerp.
    assert (Hb : Qle_bool (1 # 2) (h - inject_Z (Z.of_nat k)) = false).
    { apply not_true_is_false. intros H%Qle_bool_iff. rewrite Hg in H. unfold Qle in H. simpl in H. lia. }
    rewrite Hb. simpl. rewrite Hg. ring.
  - assert (Heven : Nat.even n = true) by (rewrite <- Nat.negb_odd, Hodd; reflexivity).
    apply Nat.even_spec in Heven as (k & Hk).
    destruct k as [|k]; [lia|].
    assert (Hhalf : (n / 2 = S k)%nat).
    { symmetry. apply (Nat.div_unique n 2 (S k) 0); lia. }
    assert (Hh : h == inject_Z (Z.of_nat k) + (1 # 2)).
    { unfold h. rewrite Hk. apply half_of_odd. }
    assert (Hfl : Qfloor h = Z.of_nat k).
    { apply floor_unique; rewrite Hh, ?inject_Z_plus; [lra|].
      change (inject_Z 1) with 1. lra. }
    rewrite Hfl, Nat2Z.id, Hhalf.
    replace (S k - 1)%nat with k by lia.
    replace (Nat.min (k + 1) (n - 1)) with (S k) by lia.
    destruct (item_Forall _ s k Hs) as (a & -> & _); [lia|].
    destruct (item_Forall _ s (S k) Hs) as (b & -> & _); [lia|].
    assert (Hg : h - inject_Z (Z.of_nat k) == 1 # 2) by (rewrite Hh; ring).
    unfold lerp.
    assert (Hb : Qle_bool (1 # 2) (h - inject_Z (Z.of_nat k)) = true).
    { apply Qle_bool_iff. rewrite Hg. apply Qle_refl. }
    rewrite Hb. change [Fin a; Fin b] with (map Fin [a; b]).
    rewrite np_mean_fin by discriminate. simpl. rewrite Hg. field.
Qed.

Section Median.
Context {libm : Libm} {scipy : SciPy}.

(** X21.  In exact arithmetic (no rounding), in the summary of finite
    observations the entry [q50] is the entry [median]: the two are
    computed in two ways and denote the same number. *)
Theorem summary_q50_is_median (data : stats_arg) :
  observations data <> [] -> Forall finite (observations data) ->
  exists d m q,
    get_summary_statistics data = Ok d
    /\ dict_get d "median" = Some m /\ dict_get d "q50" = Some q
    /\ finite m /\ feq m q.
Proof.
  intros Hne Hfin.
  destruct (observations data) as [|x l] eqn:Hobs; [congruence|].
  rewrite (summary_nonempty data x l Hobs). cbv zeta.
  eexists _, _, _. split; [reflexivity|]. split; [reflexivity|]. split; [reflexivity|].
  split.
  - eapply valued_finite. apply (median_valued (fun _ => True)); [apply convex_any | discriminate |].
    eapply Forall_impl; [exact Hfin | apply finite_valued].
  - apply percentile_50_median; [discriminate | exact Hfin].
Qed.

End Median.

Lemma summary_q50_is_median_witness :
  exists d m q,
    @get_summary_statistics sample_libm sample_scipy gapped_series = Ok d
    /\ dict_get d "median" = Some m /\ dict_get d "q50" = Some q
    /\ finite m /\ feq m q.
Proof.
  apply (@summary_q50_is_median sample_libm sample_scipy gapped_series).
  - discriminate.
  - simpl. repeat (constructor; [reflexivity|]). constructor.
Defined.
